(** * STM32F4xx clock-control (RCC) and flash-interface register blocks

    A shallow embedding of the two QEMU device models, the clock-control
    peripheral of [hw/misc/stm32f4xx_rcc.c] and the flash interface declared
    in [hw/block/stm32f4xx_flash.h], together with their headers, and the
    properties of their MMIO read/write dispatch, reset and interrupt-input
    handlers.

    - [uint32_t] registers are [Z] with the wrap-around written out;
    - the device structs are records, assignments to a field are record
      updates;
    - every handler is a computation in a small state/log/abort monad
      [Dev]: it threads the device struct, appends the externally visible
      calls it makes (trace points, [qemu_log_mask], [qemu_set_irq]) to a
      log, and can abort on a failed [g_assert]. *)

From Stdlib Require Import ZArith List Bool String Lia.
From coqutil Require Import Datatypes.RecordSetters.
Import ListNotations.
Import RecordSetters.TriangleBracketNotations.
Local Open Scope Z_scope.

(** ** Machine integers *)

(** The conversion to [uint32_t]: reduction modulo [2^32]. *)
Definition uint32_t (x : Z) : Z := x mod 2 ^ 32.

(** The conversion to [int] (32-bit two's complement), as in [(int)addr]. *)
Definition int (x : Z) : Z := (x + 2 ^ 31) mod 2 ^ 32 - 2 ^ 31.

(** [~x] on a [uint32_t]. *)
Definition not32 (x : Z) : Z := uint32_t (Z.lnot x).

(** QEMU's [BIT(nr)] macro ([qemu/bitops.h]): [1UL << (nr)], the word with
    only bit [nr] set.  Every use below has [0 <= nr < 32], where the width
    of [unsigned long] plays no role. *)
Definition BIT (nr : Z) : Z := Z.shiftl 1 nr.

(** ** Externally visible calls *)

Inductive LogMask : Type := LOG_GUEST_ERROR.

Inductive Event : Type :=
| trace_point (name : string) (args : list Z)
| qemu_log_mask (mask : LogMask) (fmt : string) (arg : Z)
| qemu_set_irq (level : Z).

Definition is_diagnostic (e : Event) : bool :=
  match e with
  | qemu_log_mask _ _ _ => true
  | _ => false
  end.

(** Number of diagnostics in a log. *)
Definition diagnostics (log : list Event) : nat :=
  List.length (List.filter is_diagnostic log).

(** The levels driven on the output interrupt line, in order. *)
Fixpoint irq_levels (log : list Event) : list Z :=
  match log with
  | [] => []
  | qemu_set_irq l :: rest => l :: irq_levels rest
  | _ :: rest => irq_levels rest
  end.

(** ** The device monad *)

Inductive outcome (A : Type) : Type :=
| Returned (a : A)
| Aborted.
Arguments Returned {A} a.
Arguments Aborted {A}.

Definition Dev (St A : Type) : Type := St -> outcome (A * St * list Event).

Definition ret {St A : Type} (a : A) : Dev St A :=
  fun s => Returned (a, s, []).

Definition bind {St A B : Type} (m : Dev St A) (f : A -> Dev St B) : Dev St B :=
  fun s =>
    match m s with
    | Aborted => Aborted
    | Returned (a, s1, l1) =>
        match f a s1 with
        | Aborted => Aborted
        | Returned (b, s2, l2) => Returned (b, s2, l1 ++ l2)
        end
    end.

Declare Scope dev_scope.
Delimit Scope dev_scope with dev.
Notation "x <- m ;; k" := (bind m (fun x => k))
  (at level 61, m at next level, right associativity) : dev_scope.
Notation "m ;; k" := (bind m (fun _ => k))
  (at level 61, right associativity) : dev_scope.
Local Open Scope dev_scope.

Definition get {St : Type} : Dev St St :=
  fun s => Returned (s, s, []).

Definition modify {St : Type} (f : St -> St) : Dev St unit :=
  fun s => Returned (tt, f s, []).

Definition emit {St : Type} (e : Event) : Dev St unit :=
  fun s => Returned (tt, s, [e]).

Definition g_assert {St : Type} (cond : bool) : Dev St unit :=
  fun s => if cond then Returned (tt, s, []) else Aborted.

(** [qemu_irq_pulse]: raise the line, then lower it. *)
Definition qemu_irq_pulse {St : Type} : Dev St unit :=
  emit (qemu_set_irq 1) ;; emit (qemu_set_irq 0).

(** A C [switch] all of whose cases leave the switch: the first case whose
    label equals the scrutinee runs, the default otherwise. *)
Fixpoint switch {A : Type} (x : Z) (cases : list (Z * A)) (default : A) : A :=
  match cases with
  | [] => default
  | (label, body) :: rest => if x =? label then body else switch x rest default
  end.

(** ** Clock-control peripheral: [stm32f4xx_rcc.h], [stm32f4xx_rcc.c] *)

Module Rcc.

Definition RCC_CR : Z := 0x00.
Definition RCC_PLLCFGR : Z := 0x04.
Definition RCC_CFGR : Z := 0x08.
Definition RCC_CIR : Z := 0x0C.
Definition RCC_AHB1RSTR : Z := 0x10.
Definition RCC_AHB2RSTR : Z := 0x14.
Definition RCC_APB1RSTR : Z := 0x20.
Definition RCC_APB2RSTR : Z := 0x24.
Definition RCC_AHB1ENR : Z := 0x30.
Definition RCC_AHB2ENR : Z := 0x34.
Definition RCC_APB1ENR : Z := 0x40.
Definition RCC_APB2ENR : Z := 0x44.
Definition RCC_AHB1LPENR : Z := 0x50.
Definition RCC_AHB2LPENR : Z := 0x54.
Definition RCC_APB1LPENR : Z := 0x60.
Definition RCC_APB2LPENR : Z := 0x64.
Definition RCC_BDCR : Z := 0x70.
Definition RCC_CSR : Z := 0x74.
Definition RCC_SSCGR : Z := 0x80.
Definition RCC_PLLI2SCFGR : Z := 0x84.
Definition RCC_DCKCFGR : Z := 0x8C.

(** Size of the MMIO window given to [memory_region_init_io]. *)
Definition MMIO_SIZE : Z := 0x400.

(** [struct STM32F4xxRccState], without the QOM parent object, the memory
    region and the output line handle (the line is observed through the
    [qemu_set_irq] events). *)
Record STM32F4xxRccState : Type := Build_RccState {
  rcc_cr : Z;
  rcc_pllcfgr : Z;
  rcc_cfgr : Z;
  rcc_cir : Z;
  rcc_ahb1rstr : Z;
  rcc_ahb2rstr : Z;
  rcc_reserved0 : list Z;
  rcc_apb1rstr : Z;
  rcc_apb2rstr : Z;
  rcc_reserved1 : list Z;
  rcc_ahb1enr : Z;
  rcc_ahb2enr : Z;
  rcc_reserved2 : list Z;
  rcc_apb1enr : Z;
  rcc_apb2enr : Z;
  rcc_reserved3 : list Z;
  rcc_ahb1lpenr : Z;
  rcc_ahb2lpenr : Z;
  rcc_reserved4 : list Z;
  rcc_apb1lpenr : Z;
  rcc_apb2lpenr : Z;
  rcc_reserved5 : list Z;
  rcc_bdcr : Z;
  rcc_csr : Z;
  rcc_reserved6 : list Z;
  rcc_sscgr : Z;
  rcc_plli2scfgr : Z;
  rcc_reserved7 : list Z;
  rcc_dckcfgr : Z
}.

(** [enum RccIrqEvents]; [RCC_IRQ_COUNT] is the number of enumerators. *)
Inductive RccIrqEvents : Type :=
| RCC_IRQ_LSI_READY
| RCC_IRQ_LSE_READY
| RCC_IRQ_HSI_READY
| RCC_IRQ_HSE_READY
| RCC_IRQ_PLL_READY
| RCC_IRQ_PLLI2S_READY
| RCC_IRQ_CSS.

Definition irq_number (e : RccIrqEvents) : Z :=
  match e with
  | RCC_IRQ_LSI_READY => 0
  | RCC_IRQ_LSE_READY => 1
  | RCC_IRQ_HSI_READY => 2
  | RCC_IRQ_HSE_READY => 3
  | RCC_IRQ_PLL_READY => 4
  | RCC_IRQ_PLLI2S_READY => 5
  | RCC_IRQ_CSS => 6
  end.

Definition RCC_IRQ_COUNT : Z := 7.

Definition RCC_CIR_ENABLE_BIT_OFFSET : Z := 7.
Definition RCC_CIR_CLEAR_BIT_OFFSET : Z := 16.

Definition stm32f4xx_rcc_reset : Dev STM32F4xxRccState unit :=
  (* Leave reserved registers uninitialized *)
  modify (fun s => s <| rcc_cr := 0x0000FF81 |>) ;;
  modify (fun s => s <| rcc_pllcfgr := 0x24003010 |>) ;;
  modify (fun s => s <| rcc_cfgr := 0x00000000 |>) ;;
  modify (fun s => s <| rcc_cir := 0x00000000 |>) ;;
  modify (fun s => s <| rcc_ahb1rstr := 0x00000000 |>) ;;
  modify (fun s => s <| rcc_ahb2rstr := 0x00000000 |>) ;;
  modify (fun s => s <| rcc_apb1rstr := 0x00000000 |>) ;;
  modify (fun s => s <| rcc_apb2rstr := 0x00000000 |>) ;;
  modify (fun s => s <| rcc_ahb1enr := 0x00000000 |>) ;;
  modify (fun s => s <| rcc_ahb2enr := 0x00000000 |>) ;;
  modify (fun s => s <| rcc_apb1enr := 0x00000000 |>) ;;
  modify (fun s => s <| rcc_apb2enr := 0x00000000 |>) ;;
  modify (fun s => s <| rcc_ahb1lpenr := 0x0061900F |>) ;;
  modify (fun s => s <| rcc_ahb2lpenr := 0x00000080 |>) ;;
  modify (fun s => s <| rcc_apb1lpenr := 0x10E2C80F |>) ;;
  modify (fun s => s <| rcc_apb2lpenr := 0x00077930 |>) ;;
  modify (fun s => s <| rcc_bdcr := 0x00000000 |>) ;;
  modify (fun s => s <| rcc_csr := 0x0E000000 |>) ;;
  modify (fun s => s <| rcc_sscgr := 0x00000000 |>) ;;
  modify (fun s => s <| rcc_plli2scfgr := 0x24003000 |>) ;;
  modify (fun s => s <| rcc_dckcfgr := 0x00000000 |>).

(** The handler of the input lines.  [stm32f4xx_rcc_init] registers
    [RCC_IRQ_COUNT] lines, so [irq] ranges over [0 .. RCC_IRQ_COUNT - 1];
    the properties below are stated for those, and for the assertion. *)
Definition stm32f4xx_rcc_set_irq (irq level : Z) : Dev STM32F4xxRccState unit :=
  emit (trace_point "stm32f4xx_rcc_set_irq" [irq; level]) ;;
  g_assert (irq <? RCC_IRQ_COUNT) ;;
  (if negb (level =? 0) then
     let irq_enable_bit := uint32_t (BIT (irq + RCC_CIR_ENABLE_BIT_OFFSET)) in
     s <- get ;;
     if (irq =? irq_number RCC_IRQ_CSS)
        || negb (Z.land (rcc_cir s) irq_enable_bit =? 0)
     then modify (fun s => s <| rcc_cir := Z.lor (rcc_cir s) (uint32_t irq) |>)
     else ret tt
   else ret tt) ;;
  qemu_irq_pulse.

Definition stm32f4xx_rcc_read (addr size : Z) : Dev STM32F4xxRccState Z :=
  emit (trace_point "stm32f4xx_rcc_read" [addr]) ;;
  s <- get ;;
  switch addr
    [ (RCC_CR, ret (rcc_cr s));
      (RCC_PLLCFGR, ret (rcc_pllcfgr s));
      (RCC_CFGR, ret (rcc_cfgr s));
      (RCC_CIR, ret (rcc_cir s));
      (RCC_AHB1RSTR, ret (rcc_ahb1rstr s));
      (RCC_AHB2RSTR, ret (rcc_ahb2rstr s));
      (RCC_APB1RSTR, ret (rcc_apb1rstr s));
      (RCC_APB2RSTR, ret (rcc_apb2rstr s));
      (RCC_AHB1ENR, ret (rcc_ahb1enr s));
      (RCC_AHB2ENR, ret (rcc_ahb2enr s));
      (RCC_APB1ENR, ret (rcc_apb1enr s));
      (RCC_APB2ENR, ret (rcc_apb2enr s));
      (RCC_AHB1LPENR, ret (rcc_ahb1lpenr s));
      (RCC_AHB2LPENR, ret (rcc_ahb2lpenr s));
      (RCC_APB1LPENR, ret (rcc_apb1lpenr s));
      (RCC_APB2LPENR, ret (rcc_apb2lpenr s));
      (RCC_BDCR, ret (rcc_bdcr s));
      (RCC_CSR, ret (rcc_csr s));
      (RCC_SSCGR, ret (rcc_sscgr s));
      (RCC_PLLI2SCFGR, ret (rcc_plli2scfgr s));
      (RCC_DCKCFGR, ret (rcc_dckcfgr s)) ]
    (emit (qemu_log_mask LOG_GUEST_ERROR
             "STM32F4XX_rcc_read: Bad offset %x\n" (int addr)) ;;
     ret 0).

(** Set value with bits from mask if condition is true, clear otherwise. *)
Definition set_or_clear_if (value mask condition : Z) : Z :=
  if negb (condition =? 0)
  then Z.lor value mask
  else Z.land value (not32 mask).

Definition handle_rcc_cr_write (rcc_cr : Z) : Z :=
  let rcc_cr := set_or_clear_if rcc_cr (uint32_t (BIT 1))
                  (uint32_t (Z.land rcc_cr (BIT 0))) in
  let rcc_cr := set_or_clear_if rcc_cr (uint32_t (BIT 17))
                  (uint32_t (Z.land rcc_cr (BIT 16))) in
  let rcc_cr := set_or_clear_if rcc_cr (uint32_t (BIT 25))
                  (uint32_t (Z.land rcc_cr (BIT 24))) in
  let rcc_cr := set_or_clear_if rcc_cr (uint32_t (BIT 27))
                  (uint32_t (Z.land rcc_cr (BIT 26))) in
  rcc_cr.

Definition handle_rcc_cfgr_write (rcc_cfgr : Z) : Z :=
  let sysclk_switch_status_offset := 2 in
  let sysclk_switch_status_bits :=
    uint32_t (Z.shiftl 0x3 sysclk_switch_status_offset) in
  let sysclk_switch_bits := 0x3 in
  let sysclk_switch := Z.land rcc_cfgr sysclk_switch_bits in
  Z.lor (Z.land rcc_cfgr (not32 sysclk_switch_status_bits))
        (uint32_t (Z.shiftl sysclk_switch sysclk_switch_status_offset)).

Definition stm32f4xx_rcc_write (addr val64 size : Z) : Dev STM32F4xxRccState unit :=
  let value := uint32_t val64 in
  emit (trace_point "stm32f4xx_rcc_write" [addr; value]) ;;
  switch addr
    [ (RCC_CR, modify (fun s => s <| rcc_cr := handle_rcc_cr_write value |>));
      (RCC_PLLCFGR, modify (fun s => s <| rcc_pllcfgr := value |>));
      (RCC_CFGR, modify (fun s => s <| rcc_cfgr := handle_rcc_cfgr_write value |>));
      (RCC_CIR, modify (fun s => s <| rcc_cir := value |>));
      (RCC_AHB1RSTR, modify (fun s => s <| rcc_ahb1rstr := value |>));
      (RCC_AHB2RSTR, modify (fun s => s <| rcc_ahb2rstr := value |>));
      (RCC_APB1RSTR, modify (fun s => s <| rcc_apb1rstr := value |>));
      (RCC_APB2RSTR, modify (fun s => s <| rcc_apb2rstr := value |>));
      (RCC_AHB1ENR, modify (fun s => s <| rcc_ahb1enr := value |>));
      (RCC_AHB2ENR, modify (fun s => s <| rcc_ahb2enr := value |>));
      (RCC_APB1ENR, modify (fun s => s <| rcc_apb1enr := value |>));
      (RCC_APB2ENR, modify (fun s => s <| rcc_apb2enr := value |>));
      (RCC_AHB1LPENR, modify (fun s => s <| rcc_ahb1lpenr := value |>));
      (RCC_AHB2LPENR, modify (fun s => s <| rcc_ahb2lpenr := value |>));
      (RCC_APB1LPENR, modify (fun s => s <| rcc_apb1lpenr := value |>));
      (RCC_APB2LPENR, modify (fun s => s <| rcc_apb2lpenr := value |>));
      (RCC_BDCR, modify (fun s => s <| rcc_bdcr := value |>));
      (RCC_CSR, modify (fun s => s <| rcc_csr := value |>));
      (RCC_SSCGR, modify (fun s => s <| rcc_sscgr := value |>));
      (RCC_PLLI2SCFGR, modify (fun s => s <| rcc_plli2scfgr := value |>));
      (RCC_DCKCFGR, modify (fun s => s <| rcc_dckcfgr := value |>)) ]
    (emit (qemu_log_mask LOG_GUEST_ERROR
             "STM32F4XX_rcc_write: Bad offset %x\n" (int addr))).

(** The offsets the header gives a register, i.e. the labels of the two
    switches. *)
Definition register_offsets : list Z :=
  [ RCC_CR; RCC_PLLCFGR; RCC_CFGR; RCC_CIR; RCC_AHB1RSTR; RCC_AHB2RSTR;
    RCC_APB1RSTR; RCC_APB2RSTR; RCC_AHB1ENR; RCC_AHB2ENR; RCC_APB1ENR;
    RCC_APB2ENR; RCC_AHB1LPENR; RCC_AHB2LPENR; RCC_APB1LPENR; RCC_APB2LPENR;
    RCC_BDCR; RCC_CSR; RCC_SSCGR; RCC_PLLI2SCFGR; RCC_DCKCFGR ].

(** The reset constant [stm32f4xx_rcc_reset] stores for each offset. *)
Definition reset_values : list (Z * Z) :=
  [ (RCC_CR, 0x0000FF81); (RCC_PLLCFGR, 0x24003010); (RCC_CFGR, 0x00000000);
    (RCC_CIR, 0x00000000); (RCC_AHB1RSTR, 0x00000000);
    (RCC_AHB2RSTR, 0x00000000); (RCC_APB1RSTR, 0x00000000);
    (RCC_APB2RSTR, 0x00000000); (RCC_AHB1ENR, 0x00000000);
    (RCC_AHB2ENR, 0x00000000); (RCC_APB1ENR, 0x00000000);
    (RCC_APB2ENR, 0x00000000); (RCC_AHB1LPENR, 0x0061900F);
    (RCC_AHB2LPENR, 0x00000080); (RCC_APB1LPENR, 0x10E2C80F);
    (RCC_APB2LPENR, 0x00077930); (RCC_BDCR, 0x00000000);
    (RCC_CSR, 0x0E000000); (RCC_SSCGR, 0x00000000);
    (RCC_PLLI2SCFGR, 0x24003000); (RCC_DCKCFGR, 0x00000000) ].

End Rcc.

(** ** Flash-interface peripheral: [stm32f4xx_flash.h], [stm32f4xx_flash.c] *)

Module Flash.

Definition FLASH_ACR : Z := 0x00.
Definition FLASH_KEYR : Z := 0x04.
Definition FLASH_OPTKEYR : Z := 0x08.
Definition FLASH_SR : Z := 0x0C.
Definition FLASH_CR : Z := 0x10.
Definition FLASH_OPTCR : Z := 0x14.
Definition FLASH_OPTCR1 : Z := 0x18.

(** Size of the MMIO window given to [memory_region_init_io]. *)
Definition MMIO_SIZE : Z := 0x400.

(** [struct STM32F4xxFlashState], without the QOM parent object, the memory
    region and the output line handle. *)
Record STM32F4xxFlashState : Type := Build_FlashState {
  flash_acr : Z;
  flash_keyr : Z;
  flash_optkeyr : Z;
  flash_sr : Z;
  flash_cr : Z;
  flash_optcr : Z;
  flash_optcr1 : Z
}.

Definition stm32f4xx_flash_reset : Dev STM32F4xxFlashState unit :=
  modify (fun s => s <| flash_acr := 0x00000000 |>) ;;
  modify (fun s => s <| flash_keyr := 0x00000000 |>) ;;
  modify (fun s => s <| flash_optkeyr := 0x00000000 |>) ;;
  modify (fun s => s <| flash_sr := 0x00000000 |>) ;;
  modify (fun s => s <| flash_cr := 0x80000000 |>) ;;
  modify (fun s => s <| flash_optcr := 0x0FFFAAED |>) ;;
  modify (fun s => s <| flash_optcr1 := 0x0FFF0000 |>).

Definition stm32f4xx_flash_set_irq (irq level : Z) : Dev STM32F4xxFlashState unit :=
  emit (trace_point "stm32f4xx_flash_set_irq" [irq; level]) ;;
  qemu_irq_pulse.

Definition stm32f4xx_flash_read (addr size : Z) : Dev STM32F4xxFlashState Z :=
  emit (trace_point "stm32f4xx_flash_read" [addr]) ;;
  s <- get ;;
  switch addr
    [ (FLASH_ACR, ret (flash_acr s));
      (FLASH_KEYR, ret (flash_keyr s));
      (FLASH_OPTKEYR, ret (flash_optkeyr s));
      (FLASH_SR, ret (flash_sr s));
      (FLASH_CR, ret (flash_sr s));
      (FLASH_OPTCR, ret (flash_optcr s));
      (FLASH_OPTCR1, ret (flash_optcr1 s)) ]
    (emit (qemu_log_mask LOG_GUEST_ERROR
             "STM32F4XX_flash_read: Bad offset %x\n" (int addr)) ;;
     ret 0).

Definition set_or_clear_if (value mask condition : Z) : Z :=
  if negb (condition =? 0)
  then Z.lor value mask
  else Z.land value (not32 mask).

Definition stm32f4xx_flash_write (addr val64 size : Z) : Dev STM32F4xxFlashState unit :=
  let value := uint32_t val64 in
  emit (trace_point "stm32f4xx_flash_write" [addr; value]) ;;
  switch addr
    [ (FLASH_ACR, modify (fun s => s <| flash_acr := value |>));
      (FLASH_KEYR, modify (fun s => s <| flash_keyr := value |>));
      (FLASH_OPTKEYR, modify (fun s => s <| flash_optkeyr := value |>));
      (FLASH_SR, modify (fun s => s <| flash_sr := value |>));
      (FLASH_CR, modify (fun s => s <| flash_cr := value |>));
      (FLASH_OPTCR, modify (fun s => s <| flash_optcr := value |>));
      (FLASH_OPTCR1, modify (fun s => s <| flash_optcr1 := value |>)) ]
    (emit (qemu_log_mask LOG_GUEST_ERROR
             "STM32F4XX_flash_write: Bad offset %x\n" (int addr))).

(** The offsets the header gives a register. *)
Definition register_offsets : list Z :=
  [ FLASH_ACR; FLASH_KEYR; FLASH_OPTKEYR; FLASH_SR; FLASH_CR; FLASH_OPTCR;
    FLASH_OPTCR1 ].

(** The reset constant [stm32f4xx_flash_reset] stores for each offset. *)
Definition reset_values : list (Z * Z) :=
  [ (FLASH_ACR, 0x00000000); (FLASH_KEYR, 0x00000000);
    (FLASH_OPTKEYR, 0x00000000); (FLASH_SR, 0x00000000);
    (FLASH_CR, 0x80000000); (FLASH_OPTCR, 0x0FFFAAED);
    (FLASH_OPTCR1, 0x0FFF0000) ].

End Flash.

(** ** SoC composition: [stm32f411_soc.c]

    The realize and instance-init functions of the SoC object are sequences
    of calls into QEMU's object, memory and sysbus interfaces.  They are
    modelled as computations that log those calls in order and stop at the
    first one that reports failure.  Which of the fallible calls fail, and
    whether the two clocks have a source, is given by an environment.  The
    macros of [hw/arm/stm32f411_soc.h] that the file uses (the device counts
    and the memory map of flash and SRAM) are parameters. *)

Module Soc.

Definition RCC_ADDR : Z := 0x40023800.
Definition SYSCFG_ADDR : Z := 0x40013800.
Definition FLASH_R_ADDR : Z := 0x40023C00.
Definition usart_addr : list Z :=
  [ 0x40011000; (* USART1 *)
    0x40004400; (* USART2 *)
    0x40011400  (* USART6 *) ].
(* At the moment only Timer 2 to 5 are modelled *)
Definition timer_addr : list Z :=
  [ 0x40000000; (* TIM2 *)
    0x40000400; (* TIM3 *)
    0x40000800; (* TIM4 *)
    0x40000C00  (* TIM5 *) ].
Definition adc_addr : list Z :=
  [ 0x40012000 (* ADC1 *) ].
Definition spi_addr : list Z :=
  [ 0x40003800; (* SPI2 *)
    0x40003C00; (* SPI3 *)
    0x40013000; (* SPI1 *)
    0x40013400; (* SPI4 *)
    0x40015000  (* SPI5 *) ].
Definition EXTI_ADDR : Z := 0x40013C00.

Definition RCC_IRQ : Z := 5.
Definition SYSCFG_IRQ : Z := 71.
Definition FLASH_R_IRQ : Z := 4.
Definition usart_irq : list Z :=
  [ 37; (* USART1 *)
    38; (* USART2 *)
    71  (* USART6 *) ].
Definition timer_irq : list Z :=
  [ 28; (* TIM2 *)
    29; (* TIM3 *)
    30; (* TIM4 *)
    50  (* TIM5 *) ].
Definition ADC_IRQ : Z := 18.
Definition spi_irq : list Z :=
  [ 35; (* SPI1 *)
    36; (* SPI2 *)
    51; (* SPI3 *)
    84; (* SPI4 *)
    85  (* SPI5 *) ].
Definition exti_irq : list Z :=
  [ 6;  (* EXTI0 *)
    7;  (* EXTI1 *)
    8;  (* EXTI2 *)
    9;  (* EXTI3 *)
    10; (* EXTI4 *)
    23; (* EXTI9_5 *)
    23; (* EXTI9_5 *)
    23; (* EXTI9_5 *)
    23; (* EXTI9_5 *)
    23; (* EXTI9_5 *)
    40; (* EXTI15_10 *)
    40; (* EXTI15_10 *)
    40; (* EXTI15_10 *)
    40; (* EXTI15_10 *)
    40; (* EXTI15_10 *)
    40  (* EXTI15_10 *) ].

(** The macros taken from the SoC header. *)
Record Macros : Type := {
  STM_NUM_USARTS : nat;
  STM_NUM_TIMERS : nat;
  STM_NUM_ADCS : nat;
  STM_NUM_SPIS : nat;
  FLASH_BASE_ADDRESS : Z;
  FLASH_SIZE : Z;
  SRAM_BASE_ADDRESS : Z;
  SRAM_SIZE : Z
}.

(** The two clock inputs, the three memory regions and the child devices of
    [STM32F411State]. *)
Inductive Clock : Type := sysclk | refclk.

Inductive Region : Type := flash | flash_alias | sram.

Inductive Device : Type :=
| armv7m
| rcc
| syscfg
| flash_r
| usart (i : nat)
| timer (i : nat)
| adc (i : nat)
| spi (i : nat)
| exti
| adc_irqs.

(** The QOM type names given to [object_initialize_child]. *)
Inductive TypeName : Type :=
| TYPE_ARMV7M
| TYPE_STM32F4XX_RCC
| TYPE_STM32F4XX_SYSCFG
| TYPE_STM32F4XX_FLASH
| TYPE_STM32F2XX_USART
| TYPE_STM32F2XX_TIMER
| TYPE_STM32F2XX_ADC
| TYPE_STM32F2XX_SPI
| TYPE_STM32F4XX_EXTI
| TYPE_OR_IRQ.

(** [qdev_get_gpio_in(dev, n)]. *)
Inductive Irq : Type := qdev_get_gpio_in (dev : Device) (n : Z).

(** The calls the two functions make, with the arguments that vary.  A
    call that is handed [&error_abort] cannot return an error (QEMU aborts
    instead) and is modelled like a call that cannot fail. *)
Inductive Call : Type :=
| object_initialize_child (name : string) (child : Device) (type : TypeName)
| qdev_init_clock_in (name : string) (c : Clock)
| clock_set_mul_div (c : Clock) (multiplier divider : Z)
| clock_set_source (c src : Clock)
| memory_region_init_rom (mr : Region) (name : string) (size : Z)
| memory_region_init_alias (mr : Region) (name : string) (orig : Region)
    (offset size : Z)
| memory_region_init_ram (mr : Region) (name : string) (size : Z)
| memory_region_add_subregion (offset : Z) (subregion : Region)
| qdev_prop_set_uint32 (dev : Device) (name : string) (value : Z)
| qdev_prop_set_uint64 (dev : Device) (name : string) (value : Z)
| qdev_prop_set_string (dev : Device) (name : string) (value : string)
| qdev_prop_set_bit (dev : Device) (name : string) (value : bool)
| qdev_prop_set_chr (dev : Device) (name : string) (serial_hd : nat)
| qdev_connect_clock_in (dev : Device) (name : string) (source : Clock)
| object_property_set_link (dev : Device) (name : string)
| object_property_set_int (dev : Device) (name : string) (value : Z)
| object_initialize_child_with_props (name : string) (child : Device)
    (type : TypeName)
| sysbus_realize (dev : Device)
| qdev_realize (dev : Device)
| sysbus_mmio_map (dev : Device) (n : Z) (addr : Z)
| sysbus_connect_irq (dev : Device) (n : Z) (irq : Irq)
| qdev_connect_gpio_out (dev : Device) (n : Z) (irq : Irq)
| create_unimplemented_device (name : string) (base size : Z).

(** What the surroundings decide: whether a clock has a source, whether a
    fallible call succeeds, and the [cpu-type] property of the SoC. *)
Record Env : Type := {
  clock_has_source : Clock -> bool;
  succeeds : Call -> bool;
  cpu_type : string
}.

(** The error left in [errp]: a message set here, or the error of a failed
    call. *)
Inductive Error : Type :=
| error_setg (msg : string)
| error_of (c : Call).

(** How a function ended: it ran to its end, it returned early with an
    error, or it read a table past its end (undefined in C). *)
Inductive status (A : Type) : Type :=
| Done (a : A)
| Failed (e : Error)
| Undefined.
Arguments Done {A} a.
Arguments Failed {A} e.
Arguments Undefined {A}.

Definition Wire (A : Type) : Type := (list Call * status A)%type.

Definition ret {A : Type} (a : A) : Wire A := ([], Done a).

Definition bind {A B : Type} (m : Wire A) (f : A -> Wire B) : Wire B :=
  match m with
  | (l, Done a) => let (l', st) := f a in (l ++ l', st)
  | (l, Failed e) => (l, Failed e)
  | (l, Undefined) => (l, Undefined)
  end.

Declare Scope wire_scope.
Delimit Scope wire_scope with wire.
Notation "x <- m ;; k" := (bind m (fun x => k))
  (at level 61, m at next level, right associativity) : wire_scope.
Notation "m ;; k" := (bind m (fun _ => k))
  (at level 61, right associativity) : wire_scope.
Local Open Scope wire_scope.

(** A call that cannot fail. *)
Definition call (c : Call) : Wire unit := ([c], Done tt).

(** A call whose failure makes the function return. *)
Definition attempt (env : Env) (c : Call) : Wire unit :=
  ([c], if succeeds env c then Done tt else Failed (error_of c)).

(** [error_setg(errp, msg); return;] *)
Definition fail {A : Type} (e : Error) : Wire A := ([], Failed e).

(** [table[i]] *)
Definition index (table : list Z) (i : nat) : Wire Z :=
  match nth_error table i with
  | Some x => ret x
  | None => ([], Undefined)
  end.

(** [for (; i < i + count; i++) body(i)] *)
Fixpoint for_loop (count i : nat) (body : nat -> Wire unit) : Wire unit :=
  match count with
  | O => ret tt
  | S count' => body i ;; for_loop count' (S i) body
  end.

(** [for (i = 0; i < n; i++) body(i)] *)
Definition for_each (n : nat) (body : nat -> Wire unit) : Wire unit :=
  for_loop n 0 body.

Definition stm32f411_soc_initfn (h : Macros) : Wire unit :=
  call (object_initialize_child "armv7m" armv7m TYPE_ARMV7M) ;;
  call (object_initialize_child "rcc" rcc TYPE_STM32F4XX_RCC) ;;
  call (object_initialize_child "syscfg" syscfg TYPE_STM32F4XX_SYSCFG) ;;
  call (object_initialize_child "flash_r" flash_r TYPE_STM32F4XX_FLASH) ;;
  for_each (STM_NUM_USARTS h) (fun i =>
    call (object_initialize_child "usart[*]" (usart i) TYPE_STM32F2XX_USART)) ;;
  for_each (STM_NUM_TIMERS h) (fun i =>
    call (object_initialize_child "timer[*]" (timer i) TYPE_STM32F2XX_TIMER)) ;;
  for_each (STM_NUM_ADCS h) (fun i =>
    call (object_initialize_child "adc[*]" (adc i) TYPE_STM32F2XX_ADC)) ;;
  for_each (STM_NUM_SPIS h) (fun i =>
    call (object_initialize_child "spi[*]" (spi i) TYPE_STM32F2XX_SPI)) ;;
  call (object_initialize_child "exti" exti TYPE_STM32F4XX_EXTI) ;;
  call (qdev_init_clock_in "sysclk" sysclk) ;;
  call (qdev_init_clock_in "refclk" refclk).

Definition stm32f411_soc_realize (h : Macros) (env : Env) : Wire unit :=
  if clock_has_source env refclk then
    fail (error_setg "refclk clock must not be wired up by the board code")
  else if negb (clock_has_source env sysclk) then
    fail (error_setg "sysclk clock must be wired up by the board code")
  else
  (* The refclk always runs at frequency HCLK / 8 *)
  call (clock_set_mul_div refclk 8 1) ;;
  call (clock_set_source refclk sysclk) ;;
  attempt env (memory_region_init_rom flash "STM32F411.flash" (FLASH_SIZE h)) ;;
  call (memory_region_init_alias flash_alias "STM32F411.flash.alias" flash 0
          (FLASH_SIZE h)) ;;
  call (memory_region_add_subregion (FLASH_BASE_ADDRESS h) flash) ;;
  call (memory_region_add_subregion 0 flash_alias) ;;
  attempt env (memory_region_init_ram sram "STM32F411.sram" (SRAM_SIZE h)) ;;
  call (memory_region_add_subregion (SRAM_BASE_ADDRESS h) sram) ;;
  call (qdev_prop_set_uint32 armv7m "num-irq" 100) ;;
  call (qdev_prop_set_string armv7m "cpu-type" (cpu_type env)) ;;
  call (qdev_prop_set_bit armv7m "enable-bitband" true) ;;
  call (qdev_connect_clock_in armv7m "cpuclk" sysclk) ;;
  call (qdev_connect_clock_in armv7m "refclk" refclk) ;;
  call (object_property_set_link armv7m "memory") ;;
  attempt env (sysbus_realize armv7m) ;;
  (* Reset and Clock controller *)
  attempt env (sysbus_realize rcc) ;;
  call (sysbus_mmio_map rcc 0 RCC_ADDR) ;;
  call (sysbus_connect_irq rcc 0 (qdev_get_gpio_in armv7m RCC_IRQ)) ;;
  (* System configuration controller *)
  attempt env (sysbus_realize syscfg) ;;
  call (sysbus_mmio_map syscfg 0 SYSCFG_ADDR) ;;
  call (sysbus_connect_irq syscfg 0 (qdev_get_gpio_in armv7m SYSCFG_IRQ)) ;;
  (* Flash controller *)
  attempt env (sysbus_realize flash_r) ;;
  call (sysbus_mmio_map flash_r 0 FLASH_R_ADDR) ;;
  call (sysbus_connect_irq flash_r 0 (qdev_get_gpio_in armv7m FLASH_R_IRQ)) ;;
  (* Attach UART (uses USART registers) and USART controllers *)
  for_each (STM_NUM_USARTS h) (fun i =>
    call (qdev_prop_set_chr (usart i) "chardev" i) ;;
    attempt env (sysbus_realize (usart i)) ;;
    addr <- index usart_addr i ;;
    call (sysbus_mmio_map (usart i) 0 addr) ;;
    irq <- index usart_irq i ;;
    call (sysbus_connect_irq (usart i) 0 (qdev_get_gpio_in armv7m irq))) ;;
  (* Timer 2 to 5 *)
  for_each (STM_NUM_TIMERS h) (fun i =>
    call (qdev_prop_set_uint64 (timer i) "clock-frequency" 1000000000) ;;
    attempt env (sysbus_realize (timer i)) ;;
    addr <- index timer_addr i ;;
    call (sysbus_mmio_map (timer i) 0 addr) ;;
    irq <- index timer_irq i ;;
    call (sysbus_connect_irq (timer i) 0 (qdev_get_gpio_in armv7m irq))) ;;
  (* ADC device, the IRQs are ORed together *)
  attempt env (object_initialize_child_with_props "adc-orirq" adc_irqs
                 TYPE_OR_IRQ) ;;
  call (object_property_set_int adc_irqs "num-lines"
          (Z.of_nat (STM_NUM_ADCS h))) ;;
  attempt env (qdev_realize adc_irqs) ;;
  call (qdev_connect_gpio_out adc_irqs 0 (qdev_get_gpio_in armv7m ADC_IRQ)) ;;
  for_each (STM_NUM_ADCS h) (fun i =>
    attempt env (sysbus_realize (adc i)) ;;
    addr <- index adc_addr i ;;
    call (sysbus_mmio_map (adc i) 0 addr) ;;
    call (sysbus_connect_irq (adc i) 0
            (qdev_get_gpio_in adc_irqs (Z.of_nat i)))) ;;
  (* SPI devices *)
  for_each (STM_NUM_SPIS h) (fun i =>
    attempt env (sysbus_realize (spi i)) ;;
    addr <- index spi_addr i ;;
    call (sysbus_mmio_map (spi i) 0 addr) ;;
    irq <- index spi_irq i ;;
    call (sysbus_connect_irq (spi i) 0 (qdev_get_gpio_in armv7m irq))) ;;
  (* EXTI device *)
  attempt env (sysbus_realize exti) ;;
  call (sysbus_mmio_map exti 0 EXTI_ADDR) ;;
  for_each 16 (fun i =>
    irq <- index exti_irq i ;;
    call (sysbus_connect_irq exti (Z.of_nat i) (qdev_get_gpio_in armv7m irq))) ;;
  for_each 16 (fun i =>
    call (qdev_connect_gpio_out syscfg (Z.of_nat i)
            (qdev_get_gpio_in exti (Z.of_nat i)))) ;;
  call (create_unimplemented_device "timer[7]" 0x40001400 0x400) ;;
  call (create_unimplemented_device "timer[12]" 0x40001800 0x400) ;;
  call (create_unimplemented_device "timer[6]" 0x40001000 0x400) ;;
  call (create_unimplemented_device "timer[13]" 0x40001C00 0x400) ;;
  call (create_unimplemented_device "timer[14]" 0x40002000 0x400) ;;
  call (create_unimplemented_device "RTC and BKP" 0x40002800 0x400) ;;
  call (create_unimplemented_device "WWDG" 0x40002C00 0x400) ;;
  call (create_unimplemented_device "IWDG" 0x40003000 0x400) ;;
  call (create_unimplemented_device "I2S2ext" 0x40003000 0x400) ;;
  call (create_unimplemented_device "I2S3ext" 0x40004000 0x400) ;;
  call (create_unimplemented_device "I2C1" 0x40005400 0x400) ;;
  call (create_unimplemented_device "I2C2" 0x40005800 0x400) ;;
  call (create_unimplemented_device "I2C3" 0x40005C00 0x400) ;;
  call (create_unimplemented_device "CAN1" 0x40006400 0x400) ;;
  call (create_unimplemented_device "CAN2" 0x40006800 0x400) ;;
  call (create_unimplemented_device "PWR" 0x40007000 0x400) ;;
  call (create_unimplemented_device "DAC" 0x40007400 0x400) ;;
  call (create_unimplemented_device "timer[1]" 0x40010000 0x400) ;;
  call (create_unimplemented_device "timer[8]" 0x40010400 0x400) ;;
  call (create_unimplemented_device "SDIO" 0x40012C00 0x400) ;;
  call (create_unimplemented_device "timer[9]" 0x40014000 0x400) ;;
  call (create_unimplemented_device "timer[10]" 0x40014400 0x400) ;;
  call (create_unimplemented_device "timer[11]" 0x40014800 0x400) ;;
  call (create_unimplemented_device "GPIOA" 0x40020000 0x400) ;;
  call (create_unimplemented_device "GPIOB" 0x40020400 0x400) ;;
  call (create_unimplemented_device "GPIOC" 0x40020800 0x400) ;;
  call (create_unimplemented_device "GPIOD" 0x40020C00 0x400) ;;
  call (create_unimplemented_device "GPIOE" 0x40021000 0x400) ;;
  call (create_unimplemented_device "GPIOF" 0x40021400 0x400) ;;
  call (create_unimplemented_device "GPIOG" 0x40021800 0x400) ;;
  call (create_unimplemented_device "GPIOH" 0x40021C00 0x400) ;;
  call (create_unimplemented_device "GPIOI" 0x40022000 0x400) ;;
  call (create_unimplemented_device "CRC" 0x40023000 0x400) ;;
  call (create_unimplemented_device "BKPSRAM" 0x40024000 0x400) ;;
  call (create_unimplemented_device "DMA1" 0x40026000 0x400) ;;
  call (create_unimplemented_device "DMA2" 0x40026400 0x400) ;;
  call (create_unimplemented_device "Ethernet" 0x40028000 0x1400) ;;
  call (create_unimplemented_device "USB OTG HS" 0x40040000 0x30000) ;;
  call (create_unimplemented_device "USB OTG FS" 0x50000000 0x31000) ;;
  call (create_unimplemented_device "DCMI" 0x50050000 0x400) ;;
  call (create_unimplemented_device "RNG" 0x50060800 0x400).

End Soc.

(** ** Notions used by the properties *)

(** All-zero device structs, for concrete runs. *)
Definition rcc_zero : Rcc.STM32F4xxRccState :=
  Rcc.Build_RccState 0 0 0 0 0 0 [0; 0] 0 0 [0; 0] 0 0 [0; 0] 0 0 [0; 0]
    0 0 [0; 0] 0 0 [0; 0] 0 0 [0; 0] 0 0 [0] 0.

Definition flash_zero : Flash.STM32F4xxFlashState :=
  Flash.Build_FlashState 0 0 0 0 0 0 0.

(** The derived bits of the clock-control struct agree with their sources:
    each ready bit of [rcc_cr] equals its enable bit, and bits 3:2 of
    [rcc_cfgr] equal its bits 1:0. *)
Definition cr_consistent (cr : Z) : Prop :=
  Z.testbit cr 1 = Z.testbit cr 0 /\
  Z.testbit cr 17 = Z.testbit cr 16 /\
  Z.testbit cr 25 = Z.testbit cr 24 /\
  Z.testbit cr 27 = Z.testbit cr 26.

Definition cfgr_consistent (cfgr : Z) : Prop :=
  Z.testbit cfgr 2 = Z.testbit cfgr 0 /\
  Z.testbit cfgr 3 = Z.testbit cfgr 1.

Definition derived_consistent (s : Rcc.STM32F4xxRccState) : Prop :=
  cr_consistent (Rcc.rcc_cr s) /\ cfgr_consistent (Rcc.rcc_cfgr s).

(** The gate of [stm32f4xx_rcc_set_irq]: the event is the clock-security
    event, or its enable bit (event index + 7) is set in [rcc_cir]. *)
Definition irq_gate_open (e : Rcc.RccIrqEvents) (cir : Z) : bool :=
  match e with
  | Rcc.RCC_IRQ_CSS => true
  | _ => Z.testbit cir (Rcc.irq_number e + Rcc.RCC_CIR_ENABLE_BIT_OFFSET)
  end.

(** Two flash structs that differ at most in [flash_cr]. *)
Definition same_but_flash_cr (s1 s2 : Flash.STM32F4xxFlashState) : Prop :=
  Flash.flash_acr s1 = Flash.flash_acr s2 /\
  Flash.flash_keyr s1 = Flash.flash_keyr s2 /\
  Flash.flash_optkeyr s1 = Flash.flash_optkeyr s2 /\
  Flash.flash_sr s1 = Flash.flash_sr s2 /\
  Flash.flash_optcr s1 = Flash.flash_optcr s2 /\
  Flash.flash_optcr1 s1 = Flash.flash_optcr1 s2.

(** The 21 registers of the clock-control struct, in declaration order. *)
Definition rcc_registers (s : Rcc.STM32F4xxRccState) : list Z :=
  [ Rcc.rcc_cr s; Rcc.rcc_pllcfgr s; Rcc.rcc_cfgr s; Rcc.rcc_cir s;
    Rcc.rcc_ahb1rstr s; Rcc.rcc_ahb2rstr s; Rcc.rcc_apb1rstr s;
    Rcc.rcc_apb2rstr s; Rcc.rcc_ahb1enr s; Rcc.rcc_ahb2enr s;
    Rcc.rcc_apb1enr s; Rcc.rcc_apb2enr s; Rcc.rcc_ahb1lpenr s;
    Rcc.rcc_ahb2lpenr s; Rcc.rcc_apb1lpenr s; Rcc.rcc_apb2lpenr s;
    Rcc.rcc_bdcr s; Rcc.rcc_csr s; Rcc.rcc_sscgr s; Rcc.rcc_plli2scfgr s;
    Rcc.rcc_dckcfgr s ].

(** The 7 registers of the flash struct, in declaration order. *)
Definition flash_registers (s : Flash.STM32F4xxFlashState) : list Z :=
  [ Flash.flash_acr s; Flash.flash_keyr s; Flash.flash_optkeyr s;
    Flash.flash_sr s; Flash.flash_cr s; Flash.flash_optcr s;
    Flash.flash_optcr1 s ].

(** The field returned by each case of the read switch of
    [stm32f4xx_rcc_read]. *)
Definition rcc_read_field : list (Z * (Rcc.STM32F4xxRccState -> Z)) :=
  [ (Rcc.RCC_CR, Rcc.rcc_cr); (Rcc.RCC_PLLCFGR, Rcc.rcc_pllcfgr);
    (Rcc.RCC_CFGR, Rcc.rcc_cfgr); (Rcc.RCC_CIR, Rcc.rcc_cir);
    (Rcc.RCC_AHB1RSTR, Rcc.rcc_ahb1rstr); (Rcc.RCC_AHB2RSTR, Rcc.rcc_ahb2rstr);
    (Rcc.RCC_APB1RSTR, Rcc.rcc_apb1rstr); (Rcc.RCC_APB2RSTR, Rcc.rcc_apb2rstr);
    (Rcc.RCC_AHB1ENR, Rcc.rcc_ahb1enr); (Rcc.RCC_AHB2ENR, Rcc.rcc_ahb2enr);
    (Rcc.RCC_APB1ENR, Rcc.rcc_apb1enr); (Rcc.RCC_APB2ENR, Rcc.rcc_apb2enr);
    (Rcc.RCC_AHB1LPENR, Rcc.rcc_ahb1lpenr);
    (Rcc.RCC_AHB2LPENR, Rcc.rcc_ahb2lpenr);
    (Rcc.RCC_APB1LPENR, Rcc.rcc_apb1lpenr);
    (Rcc.RCC_APB2LPENR, Rcc.rcc_apb2lpenr);
    (Rcc.RCC_BDCR, Rcc.rcc_bdcr); (Rcc.RCC_CSR, Rcc.rcc_csr);
    (Rcc.RCC_SSCGR, Rcc.rcc_sscgr); (Rcc.RCC_PLLI2SCFGR, Rcc.rcc_plli2scfgr);
    (Rcc.RCC_DCKCFGR, Rcc.rcc_dckcfgr) ].

(** The field returned by each case of the read switch of
    [stm32f4xx_flash_read]. *)
Definition flash_read_field : list (Z * (Flash.STM32F4xxFlashState -> Z)) :=
  [ (Flash.FLASH_ACR, Flash.flash_acr); (Flash.FLASH_KEYR, Flash.flash_keyr);
    (Flash.FLASH_OPTKEYR, Flash.flash_optkeyr);
    (Flash.FLASH_SR, Flash.flash_sr); (Flash.FLASH_CR, Flash.flash_sr);
    (Flash.FLASH_OPTCR, Flash.flash_optcr);
    (Flash.FLASH_OPTCR1, Flash.flash_optcr1) ].

(** The assignment to each register field of the clock-control struct. *)
Definition set_rcc_cr (v : Z) (s : Rcc.STM32F4xxRccState) :=
  s <| Rcc.rcc_cr := v |>.
Definition set_rcc_pllcfgr (v : Z) (s : Rcc.STM32F4xxRccState) :=
  s <| Rcc.rcc_pllcfgr := v |>.
Definition set_rcc_cfgr (v : Z) (s : Rcc.STM32F4xxRccState) :=
  s <| Rcc.rcc_cfgr := v |>.
Definition set_rcc_cir (v : Z) (s : Rcc.STM32F4xxRccState) :=
  s <| Rcc.rcc_cir := v |>.
Definition set_rcc_ahb1rstr (v : Z) (s : Rcc.STM32F4xxRccState) :=
  s <| Rcc.rcc_ahb1rstr := v |>.
Definition set_rcc_ahb2rstr (v : Z) (s : Rcc.STM32F4xxRccState) :=
  s <| Rcc.rcc_ahb2rstr := v |>.
Definition set_rcc_apb1rstr (v : Z) (s : Rcc.STM32F4xxRccState) :=
  s <| Rcc.rcc_apb1rstr := v |>.
Definition set_rcc_apb2rstr (v : Z) (s : Rcc.STM32F4xxRccState) :=
  s <| Rcc.rcc_apb2rstr := v |>.
Definition set_rcc_ahb1enr (v : Z) (s : Rcc.STM32F4xxRccState) :=
  s <| Rcc.rcc_ahb1enr := v |>.
Definition set_rcc_ahb2enr (v : Z) (s : Rcc.STM32F4xxRccState) :=
  s <| Rcc.rcc_ahb2enr := v |>.
Definition set_rcc_apb1enr (v : Z) (s : Rcc.STM32F4xxRccState) :=
  s <| Rcc.rcc_apb1enr := v |>.
Definition set_rcc_apb2enr (v : Z) (s : Rcc.STM32F4xxRccState) :=
  s <| Rcc.rcc_apb2enr := v |>.
Definition set_rcc_ahb1lpenr (v : Z) (s : Rcc.STM32F4xxRccState) :=
  s <| Rcc.rcc_ahb1lpenr := v |>.
Definition set_rcc_ahb2lpenr (v : Z) (s : Rcc.STM32F4xxRccState) :=
  s <| Rcc.rcc_ahb2lpenr := v |>.
Definition set_rcc_apb1lpenr (v : Z) (s : Rcc.STM32F4xxRccState) :=
  s <| Rcc.rcc_apb1lpenr := v |>.
Definition set_rcc_apb2lpenr (v : Z) (s : Rcc.STM32F4xxRccState) :=
  s <| Rcc.rcc_apb2lpenr := v |>.
Definition set_rcc_bdcr (v : Z) (s : Rcc.STM32F4xxRccState) :=
  s <| Rcc.rcc_bdcr := v |>.
Definition set_rcc_csr (v : Z) (s : Rcc.STM32F4xxRccState) :=
  s <| Rcc.rcc_csr := v |>.
Definition set_rcc_sscgr (v : Z) (s : Rcc.STM32F4xxRccState) :=
  s <| Rcc.rcc_sscgr := v |>.
Definition set_rcc_plli2scfgr (v : Z) (s : Rcc.STM32F4xxRccState) :=
  s <| Rcc.rcc_plli2scfgr := v |>.
Definition set_rcc_dckcfgr (v : Z) (s : Rcc.STM32F4xxRccState) :=
  s <| Rcc.rcc_dckcfgr := v |>.

(** The assignment to each field of the flash struct. *)
Definition set_flash_acr (v : Z) (s : Flash.STM32F4xxFlashState) :=
  s <| Flash.flash_acr := v |>.
Definition set_flash_keyr (v : Z) (s : Flash.STM32F4xxFlashState) :=
  s <| Flash.flash_keyr := v |>.
Definition set_flash_optkeyr (v : Z) (s : Flash.STM32F4xxFlashState) :=
  s <| Flash.flash_optkeyr := v |>.
Definition set_flash_sr (v : Z) (s : Flash.STM32F4xxFlashState) :=
  s <| Flash.flash_sr := v |>.
Definition set_flash_cr (v : Z) (s : Flash.STM32F4xxFlashState) :=
  s <| Flash.flash_cr := v |>.
Definition set_flash_optcr (v : Z) (s : Flash.STM32F4xxFlashState) :=
  s <| Flash.flash_optcr := v |>.
Definition set_flash_optcr1 (v : Z) (s : Flash.STM32F4xxFlashState) :=
  s <| Flash.flash_optcr1 := v |>.

(** The assignment made by each case of the write switch of
    [stm32f4xx_rcc_write], as a function of the 32-bit value. *)
Definition rcc_write_update
  : list (Z * (Z -> Rcc.STM32F4xxRccState -> Rcc.STM32F4xxRccState)) :=
  [
    (Rcc.RCC_CR, fun v => set_rcc_cr (Rcc.handle_rcc_cr_write v));
    (Rcc.RCC_PLLCFGR, set_rcc_pllcfgr);
    (Rcc.RCC_CFGR, fun v => set_rcc_cfgr (Rcc.handle_rcc_cfgr_write v));
    (Rcc.RCC_CIR, set_rcc_cir);
    (Rcc.RCC_AHB1RSTR, set_rcc_ahb1rstr);
    (Rcc.RCC_AHB2RSTR, set_rcc_ahb2rstr);
    (Rcc.RCC_APB1RSTR, set_rcc_apb1rstr);
    (Rcc.RCC_APB2RSTR, set_rcc_apb2rstr);
    (Rcc.RCC_AHB1ENR, set_rcc_ahb1enr);
    (Rcc.RCC_AHB2ENR, set_rcc_ahb2enr);
    (Rcc.RCC_APB1ENR, set_rcc_apb1enr);
    (Rcc.RCC_APB2ENR, set_rcc_apb2enr);
    (Rcc.RCC_AHB1LPENR, set_rcc_ahb1lpenr);
    (Rcc.RCC_AHB2LPENR, set_rcc_ahb2lpenr);
    (Rcc.RCC_APB1LPENR, set_rcc_apb1lpenr);
    (Rcc.RCC_APB2LPENR, set_rcc_apb2lpenr);
    (Rcc.RCC_BDCR, set_rcc_bdcr);
    (Rcc.RCC_CSR, set_rcc_csr);
    (Rcc.RCC_SSCGR, set_rcc_sscgr);
    (Rcc.RCC_PLLI2SCFGR, set_rcc_plli2scfgr);
    (Rcc.RCC_DCKCFGR, set_rcc_dckcfgr) ].

(** The assignment made by each case of the write switch of
    [stm32f4xx_flash_write]. *)
Definition flash_write_update
  : list (Z * (Z -> Flash.STM32F4xxFlashState -> Flash.STM32F4xxFlashState)) :=
  [
    (Flash.FLASH_ACR, set_flash_acr);
    (Flash.FLASH_KEYR, set_flash_keyr);
    (Flash.FLASH_OPTKEYR, set_flash_optkeyr);
    (Flash.FLASH_SR, set_flash_sr);
    (Flash.FLASH_CR, set_flash_cr);
    (Flash.FLASH_OPTCR, set_flash_optcr);
    (Flash.FLASH_OPTCR1, set_flash_optcr1) ].

(** A value a [uint32_t] field can hold. *)
Definition is_uint32 (x : Z) : Prop := 0 <= x < 2 ^ 32.

(** Every register of the struct holds a [uint32_t] value. *)
Definition rcc_wf (s : Rcc.STM32F4xxRccState) : Prop :=
  Forall is_uint32 (rcc_registers s).

Definition flash_wf (s : Flash.STM32F4xxFlashState) : Prop :=
  Forall is_uint32 (flash_registers s).

(** Whether an offset is one of the given register offsets. *)
Definition is_register (offsets : list Z) (addr : Z) : bool :=
  existsb (Z.eqb addr) offsets.

(** *** Notions for the SoC composition *)

(** The environment in which every fallible call succeeds, all else as in
    [env]. *)
Definition all_succeed (env : Soc.Env) : Soc.Env :=
  {| Soc.clock_has_source := Soc.clock_has_source env;
     Soc.succeeds := fun _ => true;
     Soc.cpu_type := Soc.cpu_type env |}.

(** The calls made and the way a run ended. *)
Definition calls_of {A : Type} (m : Soc.Wire A) : list Soc.Call := fst m.
Definition status_of {A : Type} (m : Soc.Wire A) : Soc.status A := snd m.


(** The device a call maps into the address space or connects an output
    line of. *)
Definition wires (c : Soc.Call) : option Soc.Device :=
  match c with
  | Soc.sysbus_mmio_map dev _ _ => Some dev
  | Soc.sysbus_connect_irq dev _ _ => Some dev
  | Soc.qdev_connect_gpio_out dev _ _ => Some dev
  | _ => None
  end.

(** The device a call realizes. *)
Definition realizes (c : Soc.Call) : option Soc.Device :=
  match c with
  | Soc.sysbus_realize dev => Some dev
  | Soc.qdev_realize dev => Some dev
  | _ => None
  end.

(** Every wiring call of the run is for a device in [known] or for one that
    a call of the run realized with success. *)
Definition wires_realized_only
    (env : Soc.Env) (known : Soc.Device -> Prop) {A : Type}
    (m : Soc.Wire A) : Prop :=
  forall c dev,
    In c (calls_of m) -> wires c = Some dev ->
    known dev \/
    exists r, In r (calls_of m) /\ realizes r = Some dev /\
              Soc.succeeds env r = true.

(** Every call of the run satisfies [P]. *)
Definition all_calls (P : Soc.Call -> Prop) {A : Type} (m : Soc.Wire A) : Prop :=
  forall c, In c (calls_of m) -> P c.

(** The children that the instance-init function initialises. *)
Definition is_child (h : Soc.Macros) (dev : Soc.Device) : Prop :=
  match dev with
  | Soc.armv7m | Soc.rcc | Soc.syscfg | Soc.flash_r | Soc.exti => True
  | Soc.usart i => (i < Soc.STM_NUM_USARTS h)%nat
  | Soc.timer i => (i < Soc.STM_NUM_TIMERS h)%nat
  | Soc.adc i => (i < Soc.STM_NUM_ADCS h)%nat
  | Soc.spi i => (i < Soc.STM_NUM_SPIS h)%nat
  | Soc.adc_irqs => False
  end.

(** The address at which the realize function maps a device. *)
Definition mmio_base (dev : Soc.Device) : option Z :=
  match dev with
  | Soc.rcc => Some Soc.RCC_ADDR
  | Soc.syscfg => Some Soc.SYSCFG_ADDR
  | Soc.flash_r => Some Soc.FLASH_R_ADDR
  | Soc.usart i => nth_error Soc.usart_addr i
  | Soc.timer i => nth_error Soc.timer_addr i
  | Soc.adc i => nth_error Soc.adc_addr i
  | Soc.spi i => nth_error Soc.spi_addr i
  | Soc.exti => Some Soc.EXTI_ADDR
  | Soc.armv7m | Soc.adc_irqs => None
  end.


(** If the run made a call of the kind [Q], then [R] holds of it. *)
Definition calls_imply (Q : Soc.Call -> Prop) (R : Soc.Wire unit -> Prop)
    (m : Soc.Wire unit) : Prop :=
  (exists c, In c (calls_of m) /\ Q c) -> R m.

(** The interrupt input a call connects a line to. *)
Definition irq_target (c : Soc.Call) : option Soc.Irq :=
  match c with
  | Soc.sysbus_connect_irq _ _ irq => Some irq
  | Soc.qdev_connect_gpio_out _ _ irq => Some irq
  | _ => None
  end.

(** The call connects a line to some input of the device [target]. *)
Definition connects_to (target : Soc.Device) (c : Soc.Call) : Prop :=
  exists k, irq_target c = Some (Soc.qdev_get_gpio_in target k).


(** Counts that use each table in full, with the flash and SRAM of the
    STM32F411xE memory map. *)
Definition macros_full_tables : Soc.Macros :=
  {| Soc.STM_NUM_USARTS := 3; Soc.STM_NUM_TIMERS := 4; Soc.STM_NUM_ADCS := 1;
     Soc.STM_NUM_SPIS := 5; Soc.FLASH_BASE_ADDRESS := 0x08000000;
     Soc.FLASH_SIZE := 512 * 1024; Soc.SRAM_BASE_ADDRESS := 0x20000000;
     Soc.SRAM_SIZE := 128 * 1024 |}.

(** An environment where the board wired [sysclk] only and the realize of
    the second timer fails. *)
Definition env_timer1_fails : Soc.Env :=
  {| Soc.clock_has_source :=
       fun c => match c with Soc.sysclk => true | Soc.refclk => false end;
     Soc.succeeds :=
       fun c => match c with
                | Soc.sysbus_realize (Soc.timer 1) => false
                | _ => true
                end;
     Soc.cpu_type := "cortex-m4-arm-cpu" |}.

(** ** Proof support *)

Arguments uint32_t : simpl never.
Arguments int : simpl never.
Arguments not32 : simpl never.
Arguments BIT : simpl never.
Arguments Rcc.handle_rcc_cr_write : simpl never.
Arguments Rcc.handle_rcc_cfgr_write : simpl never.

(** Replace every comparison between closed numbers by its value. *)
Ltac decide_test t :=
  let r := eval vm_compute in t in
  lazymatch r with
  | true => change t with true
  | false => change t with false
  end.

Ltac decide_closed_tests :=
  repeat match goal with
         | |- context [?a - ?b] =>
             let r := eval vm_compute in (a - b) in
             lazymatch r with
             | Z0 => idtac | Zpos _ => idtac | Zneg _ => idtac
             end;
             progress change (a - b) with r
         | |- context [?a =? ?b] => decide_test (a =? b)
         | |- context [?a <? ?b] => decide_test (a <? b)
         | |- context [?a <=? ?b] => decide_test (a <=? b)
         end;
  cbv iota; cbn [andb orb negb].

(** * Properties *)

(** ** Bits of the machine-integer operations *)

Lemma BIT_pow2 (n : Z) : 0 <= n -> BIT n = 2 ^ n.
Proof.
  intros Hn. unfold BIT. rewrite Z.shiftl_1_l. reflexivity.
Qed.

Lemma testbit_BIT (n i : Z) : 0 <= n -> Z.testbit (BIT n) i = (n =? i).
Proof.
  intros Hn. rewrite BIT_pow2 by assumption. apply Z.pow2_bits_eqb; assumption.
Qed.

Lemma testbit_uint32_t (x i : Z) :
  Z.testbit (uint32_t x) i = (i <? 32) && Z.testbit x i.
Proof.
  unfold uint32_t. destruct (Z.ltb_spec i 0) as [Hneg | Hpos].
  - rewrite !Z.testbit_neg_r by assumption. rewrite andb_false_r. reflexivity.
  - apply Z.testbit_mod_pow2; lia.
Qed.

Lemma testbit_not32 (x i : Z) :
  0 <= i -> Z.testbit (not32 x) i = (i <? 32) && negb (Z.testbit x i).
Proof.
  intros Hi. unfold not32. rewrite testbit_uint32_t, Z.lnot_spec by assumption.
  reflexivity.
Qed.

Lemma uint32_t_range (x : Z) : 0 <= uint32_t x < 2 ^ 32.
Proof. unfold uint32_t. apply Z.mod_pos_bound. lia. Qed.

Lemma uint32_t_small (x : Z) : 0 <= x < 2 ^ 32 -> uint32_t x = x.
Proof. intros Hx. unfold uint32_t. apply Z.mod_small. assumption. Qed.

Lemma uint32_t_BIT (n : Z) : 0 <= n < 32 -> uint32_t (BIT n) = BIT n.
Proof.
  intros Hn. apply uint32_t_small. rewrite BIT_pow2 by lia. split.
  - apply Z.pow_nonneg. lia.
  - apply Z.pow_lt_mono_r; lia.
Qed.

Lemma testbit_high (x i : Z) : 0 <= x < 2 ^ 32 -> 32 <= i -> Z.testbit x i = false.
Proof.
  intros Hx Hi. rewrite <- (uint32_t_small x Hx), testbit_uint32_t.
  destruct (Z.ltb_spec i 32); [lia | reflexivity].
Qed.

(** Masking with a single bit yields that bit or nothing. *)
Lemma land_BIT (v n : Z) :
  0 <= n -> Z.land v (BIT n) = if Z.testbit v n then BIT n else 0.
Proof.
  intros Hn. apply Z.bits_inj'. intros i Hi.
  rewrite Z.land_spec, testbit_BIT by assumption.
  destruct (Z.eqb_spec n i) as [-> | Hne].
  - destruct (Z.testbit v i); [| rewrite Z.bits_0; reflexivity].
    rewrite testbit_BIT, Z.eqb_refl by assumption. reflexivity.
  - rewrite andb_false_r.
    destruct (Z.testbit v n); [| rewrite Z.bits_0; reflexivity].
    rewrite testbit_BIT by assumption. symmetry. apply Z.eqb_neq. assumption.
Qed.

Lemma BIT_test_zero (v n : Z) :
  0 <= n < 32 ->
  (uint32_t (Z.land v (BIT n)) =? 0) = negb (Z.testbit v n).
Proof.
  intros Hn. rewrite land_BIT by lia. destruct (Z.testbit v n).
  - rewrite uint32_t_BIT, BIT_pow2 by lia. apply Z.eqb_neq.
    apply Z.pow_nonzero; lia.
  - reflexivity.
Qed.

(** ** [set_or_clear_if] on a ready/enable pair *)

(** With a single-bit mask [rdy] and the condition [value & BIT(en)], the
    result has bit [rdy] equal to bit [en] of the input and every other of
    the 32 bits as in the input. *)
Lemma set_or_clear_if_pair (value en rdy i : Z) :
  0 <= en < 32 -> 0 <= rdy < 32 -> 0 <= i < 32 ->
  Z.testbit
    (Rcc.set_or_clear_if value (uint32_t (BIT rdy))
       (uint32_t (Z.land value (BIT en)))) i
  = if i =? rdy then Z.testbit value en else Z.testbit value i.
Proof.
  intros Hen Hrdy Hi. unfold Rcc.set_or_clear_if.
  rewrite BIT_test_zero, negb_involutive, uint32_t_BIT by assumption.
  destruct (Z.testbit value en) eqn:Hbit.
  - rewrite Z.lor_spec, testbit_BIT by lia. rewrite (Z.eqb_sym rdy i).
    destruct (i =? rdy); [apply orb_true_r | apply orb_false_r].
  - rewrite Z.land_spec, testbit_not32, testbit_BIT by lia.
    rewrite (Z.eqb_sym rdy i).
    destruct (Z.ltb_spec i 32); [| lia].
    destruct (i =? rdy); simpl; [apply andb_false_r | apply andb_true_r].
Qed.

Lemma set_or_clear_if_range (value mask condition : Z) :
  0 <= value < 2 ^ 32 -> 0 <= mask < 2 ^ 32 ->
  0 <= Rcc.set_or_clear_if value mask condition < 2 ^ 32.
Proof.
  intros Hv Hm. unfold Rcc.set_or_clear_if.
  assert (Hbits : forall x, (forall i, 32 <= i -> Z.testbit x i = false) ->
                            0 <= x -> 0 <= x < 2 ^ 32).
  { intros x Hhigh Hx. split; [assumption |].
    destruct (Z.eq_dec x 0) as [-> | Hnz]; [lia |].
    apply Z.log2_lt_pow2; [lia |].
    destruct (Z.lt_ge_cases (Z.log2 x) 32) as [Hlt | Hge]; [assumption |].
    specialize (Hhigh (Z.log2 x) Hge).
    rewrite Z.bit_log2 in Hhigh by lia. discriminate. }
  destruct (negb (condition =? 0)).
  - apply Hbits.
    + intros i Hi. rewrite Z.lor_spec, !testbit_high by assumption. reflexivity.
    + apply Z.lor_nonneg. lia.
  - apply Hbits.
    + intros i Hi. rewrite Z.land_spec, (testbit_high value) by assumption.
      reflexivity.
    + apply Z.land_nonneg. lia.
Qed.

(** ** The derivation rules *)

(** [handle_rcc_cr_write] copies each enable bit into its ready bit and
    leaves the other bits alone. *)
Lemma handle_rcc_cr_write_bits (v i : Z) :
  0 <= i < 32 ->
  Z.testbit (Rcc.handle_rcc_cr_write v) i
  = if i =? 27 then Z.testbit v 26
    else if i =? 25 then Z.testbit v 24
    else if i =? 17 then Z.testbit v 16
    else if i =? 1 then Z.testbit v 0
    else Z.testbit v i.
Proof.
  intros Hi. unfold Rcc.handle_rcc_cr_write. cbv zeta.
  rewrite !set_or_clear_if_pair by lia.
  decide_closed_tests. reflexivity.
Qed.

Lemma testbit_3 (j : Z) : Z.testbit 0x3 j = (0 <=? j) && (j <? 2).
Proof. change 0x3 with (Z.ones 2). apply Z.testbit_ones. lia. Qed.

(** [handle_rcc_cfgr_write] copies bits 1:0 into bits 3:2 and leaves the
    other bits alone. *)
Lemma handle_rcc_cfgr_write_bits (v i : Z) :
  0 <= i < 32 ->
  Z.testbit (Rcc.handle_rcc_cfgr_write v) i
  = if i =? 2 then Z.testbit v 0
    else if i =? 3 then Z.testbit v 1
    else Z.testbit v i.
Proof.
  intros Hi. unfold Rcc.handle_rcc_cfgr_write. cbv zeta.
  rewrite Z.lor_spec, Z.land_spec, testbit_not32, !testbit_uint32_t by lia.
  rewrite !Z.shiftl_spec, Z.land_spec, !testbit_3 by lia.
  destruct (Z.ltb_spec i 32) as [_ | ?]; [| lia].
  destruct (Z.eqb_spec i 2) as [-> | Hn2].
  { decide_closed_tests. rewrite andb_false_r, andb_true_r. reflexivity. }
  destruct (Z.eqb_spec i 3) as [-> | Hn3].
  { decide_closed_tests. rewrite andb_false_r, andb_true_r. reflexivity. }
  destruct (Z.leb_spec 0 (i - 2)), (Z.ltb_spec (i - 2) 2);
    cbn [andb orb negb]; rewrite ?andb_false_r, ?andb_true_r, ?orb_false_r;
    try reflexivity; lia.
Qed.

Lemma handle_rcc_cr_write_range (v : Z) :
  0 <= v < 2 ^ 32 -> 0 <= Rcc.handle_rcc_cr_write v < 2 ^ 32.
Proof.
  intros Hv. unfold Rcc.handle_rcc_cr_write. cbv zeta.
  repeat apply set_or_clear_if_range; try apply uint32_t_range. assumption.
Qed.

Lemma handle_rcc_cfgr_write_range (v : Z) :
  0 <= v < 2 ^ 32 -> 0 <= Rcc.handle_rcc_cfgr_write v < 2 ^ 32.
Proof.
  intros Hv. unfold Rcc.handle_rcc_cfgr_write. cbv zeta.
  assert (Hlow : forall x, 0 <= x -> (forall i, 32 <= i -> Z.testbit x i = false)
                           -> x < 2 ^ 32).
  { intros x Hx Hhigh. destruct (Z.eq_dec x 0) as [-> | Hnz]; [lia |].
    apply Z.log2_lt_pow2; [lia |].
    destruct (Z.lt_ge_cases (Z.log2 x) 32) as [Hlt | Hge]; [assumption |].
    specialize (Hhigh (Z.log2 x) Hge).
    rewrite Z.bit_log2 in Hhigh by lia. discriminate. }
  split.
  - apply Z.lor_nonneg. split.
    + apply Z.land_nonneg. lia.
    + apply uint32_t_range.
  - apply Hlow.
    + apply Z.lor_nonneg. split.
      * apply Z.land_nonneg. lia.
      * apply uint32_t_range.
    + intros i Hi.
      rewrite Z.lor_spec, Z.land_spec, testbit_uint32_t, (testbit_high v)
        by assumption.
      destruct (Z.ltb_spec i 32); [lia | reflexivity].
Qed.

(** ** Dispatch *)

Lemma switch_default {A : Type} (x : Z) (cases : list (Z * A)) (d : A) :
  ~ In x (map fst cases) -> switch x cases d = d.
Proof.
  induction cases as [| [label body] rest IH]; intros Hnot.
  - reflexivity.
  - simpl in *. destruct (Z.eqb_spec x label) as [-> | Hne].
    + exfalso. apply Hnot. left. reflexivity.
    + apply IH. intros Hin. apply Hnot. right. assumption.
Qed.

(** A switch runs its default, when no label matches, or one of its cases. *)
Lemma switch_spec {A : Type} (x : Z) (cases : list (Z * A)) (d : A) :
  (~ In x (map fst cases) /\ switch x cases d = d) \/
  (exists body, In (x, body) cases /\ switch x cases d = body).
Proof.
  induction cases as [| [label body] rest IH].
  - left. split; [intros [] | reflexivity].
  - simpl. destruct (Z.eqb_spec x label) as [-> | Hne].
    + right. exists body. split; [left; reflexivity | reflexivity].
    + destruct IH as [[Hnot Hd] | [b [Hin Hb]]].
      * left. split; [| assumption]. intros [Heq | Hin]; [congruence | tauto].
      * right. exists b. split; [right; assumption | assumption].
Qed.

(** Case analysis on the switch in the goal: the default with no label
    matching, or one of the listed cases. *)
Ltac split_switch Hnot body Hin :=
  match goal with
  | |- context [switch ?x ?cs ?d] =>
      let Heq := fresh "Heq" in
      destruct (switch_spec x cs d) as [[Hnot Heq] | [body [Hin Heq]]];
      rewrite Heq; clear Heq
  end.

(** Take a list membership apart, running [tac] on each member. *)
Ltac each_member Hin tac :=
  repeat (destruct Hin as [Hin | Hin]; [tac Hin |]);
  try (exfalso; exact Hin).

Lemma int_small (x : Z) : - 2 ^ 31 <= x < 2 ^ 31 -> int x = x.
Proof. intros Hx. unfold int. rewrite Z.mod_small; lia. Qed.

(** ** Accesses to offsets without a register *)

(** C7.  An access inside the 0x400-byte window at an offset that is not one
    of the header's register offsets: a read returns 0, a write returns,
    each makes exactly one [qemu_log_mask] call (after its trace point), and
    the device struct is left as it was.  This holds for the clock-control
    and for the flash-interface peripheral. *)
Theorem unmapped_offset_access (addr size val64 : Z) :
  (0 <= addr < Rcc.MMIO_SIZE ->
   ~ In addr Rcc.register_offsets ->
   forall s : Rcc.STM32F4xxRccState,
     (exists log,
         Rcc.stm32f4xx_rcc_read addr size s = Returned (0, s, log) /\
         log = [ trace_point "stm32f4xx_rcc_read" [addr];
                 qemu_log_mask LOG_GUEST_ERROR
                   "STM32F4XX_rcc_read: Bad offset %x\n" addr ] /\
         diagnostics log = 1%nat) /\
     (exists log,
         Rcc.stm32f4xx_rcc_write addr val64 size s = Returned (tt, s, log) /\
         log = [ trace_point "stm32f4xx_rcc_write" [addr; uint32_t val64];
                 qemu_log_mask LOG_GUEST_ERROR
                   "STM32F4XX_rcc_write: Bad offset %x\n" addr ] /\
         diagnostics log = 1%nat)) /\
  (0 <= addr < Flash.MMIO_SIZE ->
   ~ In addr Flash.register_offsets ->
   forall s : Flash.STM32F4xxFlashState,
     (exists log,
         Flash.stm32f4xx_flash_read addr size s = Returned (0, s, log) /\
         log = [ trace_point "stm32f4xx_flash_read" [addr];
                 qemu_log_mask LOG_GUEST_ERROR
                   "STM32F4XX_flash_read: Bad offset %x\n" addr ] /\
         diagnostics log = 1%nat) /\
     (exists log,
         Flash.stm32f4xx_flash_write addr val64 size s = Returned (tt, s, log) /\
         log = [ trace_point "stm32f4xx_flash_write" [addr; uint32_t val64];
                 qemu_log_mask LOG_GUEST_ERROR
                   "STM32F4XX_flash_write: Bad offset %x\n" addr ] /\
         diagnostics log = 1%nat)).
Proof.
  split; intros Hwin Hnot s;
    (assert (Hint : int addr = addr)
       by (apply int_small; unfold Rcc.MMIO_SIZE, Flash.MMIO_SIZE in Hwin; lia));
    split; eexists; (split; [| split; reflexivity]).
  - unfold Rcc.stm32f4xx_rcc_read, bind, emit, get.
    rewrite switch_default by exact Hnot. rewrite Hint. reflexivity.
  - unfold Rcc.stm32f4xx_rcc_write, bind, emit. cbv zeta.
    rewrite switch_default by exact Hnot. rewrite Hint. reflexivity.
  - unfold Flash.stm32f4xx_flash_read, bind, emit, get.
    rewrite switch_default by exact Hnot. rewrite Hint. reflexivity.
  - unfold Flash.stm32f4xx_flash_write, bind, emit. cbv zeta.
    rewrite switch_default by exact Hnot. rewrite Hint. reflexivity.
Qed.

(** Offset 0x1C, reserved in the clock-control block and past the last
    register of the flash interface. *)
Lemma unmapped_offset_access_witness :
  0 <= 0x1C < Rcc.MMIO_SIZE /\
  ~ In 0x1C Rcc.register_offsets /\
  0 <= 0x1C < Flash.MMIO_SIZE /\
  ~ In 0x1C Flash.register_offsets /\
  (exists log,
      Rcc.stm32f4xx_rcc_read 0x1C 4 rcc_zero = Returned (0, rcc_zero, log) /\
      diagnostics log = 1%nat) /\
  (exists log,
      Flash.stm32f4xx_flash_write 0x1C 0xFFFFFFFF 4 flash_zero
      = Returned (tt, flash_zero, log) /\
      diagnostics log = 1%nat).
Proof.
  assert (Hwin : 0 <= 0x1C < 0x400) by lia.
  assert (Hrcc : ~ In 0x1C Rcc.register_offsets).
  { unfold Rcc.register_offsets. simpl. intros H.
    repeat (destruct H as [H | H]; [discriminate H |]). exact H. }
  assert (Hflash : ~ In 0x1C Flash.register_offsets).
  { unfold Flash.register_offsets. simpl. intros H.
    repeat (destruct H as [H | H]; [discriminate H |]). exact H. }
  destruct (unmapped_offset_access 0x1C 4 0xFFFFFFFF) as [Hr Hf].
  destruct (Hr Hwin Hrcc rcc_zero) as [[log1 [Hrd [_ Hd1]]] _].
  destruct (Hf Hwin Hflash flash_zero) as [_ [log2 [Hwr [_ Hd2]]]].
  repeat (split; [assumption |]).
  split; [exists log1 | exists log2]; split; assumption.
Defined.

(** ** Writes to the clock-control and clock-configuration registers *)

Lemma rcc_write_cr_run (s : Rcc.STM32F4xxRccState) (val64 size : Z) :
  Rcc.stm32f4xx_rcc_write Rcc.RCC_CR val64 size s
  = Returned (tt, s <| Rcc.rcc_cr := Rcc.handle_rcc_cr_write (uint32_t val64) |>,
              [ trace_point "stm32f4xx_rcc_write" [Rcc.RCC_CR; uint32_t val64] ]).
Proof. reflexivity. Qed.

Lemma rcc_write_cfgr_run (s : Rcc.STM32F4xxRccState) (val64 size : Z) :
  Rcc.stm32f4xx_rcc_write Rcc.RCC_CFGR val64 size s
  = Returned (tt,
              s <| Rcc.rcc_cfgr := Rcc.handle_rcc_cfgr_write (uint32_t val64) |>,
              [ trace_point "stm32f4xx_rcc_write" [Rcc.RCC_CFGR; uint32_t val64] ]).
Proof. reflexivity. Qed.

Lemma rcc_read_cr_run (s : Rcc.STM32F4xxRccState) (size : Z) :
  Rcc.stm32f4xx_rcc_read Rcc.RCC_CR size s
  = Returned (Rcc.rcc_cr s, s, [ trace_point "stm32f4xx_rcc_read" [Rcc.RCC_CR] ]).
Proof. reflexivity. Qed.

Lemma rcc_read_cfgr_run (s : Rcc.STM32F4xxRccState) (size : Z) :
  Rcc.stm32f4xx_rcc_read Rcc.RCC_CFGR size s
  = Returned (Rcc.rcc_cfgr s, s,
              [ trace_point "stm32f4xx_rcc_read" [Rcc.RCC_CFGR] ]).
Proof. reflexivity. Qed.

Lemma rcc_cr_updated (s : Rcc.STM32F4xxRccState) (v : Z) :
  Rcc.rcc_cr (s <| Rcc.rcc_cr := v |>) = v.
Proof. reflexivity. Qed.

Lemma rcc_cfgr_updated (s : Rcc.STM32F4xxRccState) (v : Z) :
  Rcc.rcc_cfgr (s <| Rcc.rcc_cfgr := v |>) = v.
Proof. reflexivity. Qed.

(** Whatever is written, the stored [rcc_cr] has each ready bit equal to its
    enable bit, and the enable bits are those written. *)
Lemma handle_rcc_cr_write_pairs (val64 : Z) :
  let r := Rcc.handle_rcc_cr_write (uint32_t val64) in
  (Z.testbit r 0 = Z.testbit val64 0 /\ Z.testbit r 1 = Z.testbit val64 0) /\
  (Z.testbit r 16 = Z.testbit val64 16 /\ Z.testbit r 17 = Z.testbit val64 16) /\
  (Z.testbit r 24 = Z.testbit val64 24 /\ Z.testbit r 25 = Z.testbit val64 24) /\
  (Z.testbit r 26 = Z.testbit val64 26 /\ Z.testbit r 27 = Z.testbit val64 26).
Proof.
  cbv zeta.
  repeat split;
    rewrite handle_rcc_cr_write_bits by lia; decide_closed_tests;
    rewrite testbit_uint32_t; decide_closed_tests; reflexivity.
Qed.

(** C5.  A write of any value to RCC_CR followed by a read of RCC_CR: the
    write and the read return, and the value read has bit 1 equal to bit 0,
    bit 17 equal to bit 16, bit 25 equal to bit 24 and bit 27 equal to
    bit 26, the enable bits 0, 16, 24 and 26 being those of the value
    written (ready set when enable is 1, cleared when it is 0). *)
Theorem rcc_cr_write_ready_follows_enable
    (s : Rcc.STM32F4xxRccState) (val64 size size' : Z) :
  exists s' wlog rlog r,
    Rcc.stm32f4xx_rcc_write Rcc.RCC_CR val64 size s = Returned (tt, s', wlog) /\
    Rcc.stm32f4xx_rcc_read Rcc.RCC_CR size' s' = Returned (r, s', rlog) /\
    (Z.testbit r 0 = Z.testbit val64 0 /\ Z.testbit r 1 = Z.testbit val64 0) /\
    (Z.testbit r 16 = Z.testbit val64 16 /\ Z.testbit r 17 = Z.testbit val64 16) /\
    (Z.testbit r 24 = Z.testbit val64 24 /\ Z.testbit r 25 = Z.testbit val64 24) /\
    (Z.testbit r 26 = Z.testbit val64 26 /\ Z.testbit r 27 = Z.testbit val64 26).
Proof.
  do 4 eexists.
  split; [apply rcc_write_cr_run |].
  split; [apply rcc_read_cr_run |].
  rewrite rcc_cr_updated. apply handle_rcc_cr_write_pairs.
Qed.

(** C6.  A write of a 32-bit value [v] to RCC_CFGR followed by a read of
    RCC_CFGR: the value read has its bits 3:2 equal to the low two bits of
    [v], and every bit other than bits 3 and 2 equal to that bit of [v]. *)
Theorem rcc_cfgr_write_switch_status
    (s : Rcc.STM32F4xxRccState) (v size size' : Z) :
  0 <= v < 2 ^ 32 ->
  exists s' wlog rlog r,
    Rcc.stm32f4xx_rcc_write Rcc.RCC_CFGR v size s = Returned (tt, s', wlog) /\
    Rcc.stm32f4xx_rcc_read Rcc.RCC_CFGR size' s' = Returned (r, s', rlog) /\
    Z.land (Z.shiftr r 2) 0x3 = Z.land v 0x3 /\
    (forall i, i <> 2 -> i <> 3 -> Z.testbit r i = Z.testbit v i).
Proof.
  intros Hv. do 4 eexists.
  split; [apply rcc_write_cfgr_run |].
  split; [apply rcc_read_cfgr_run |].
  rewrite rcc_cfgr_updated, (uint32_t_small v Hv). split.
  - apply Z.bits_inj'. intros i Hi.
    rewrite !Z.land_spec, Z.shiftr_spec, testbit_3 by assumption.
    destruct (Z.leb_spec 0 i); [| lia].
    destruct (Z.ltb_spec i 2); [| rewrite !andb_false_r; reflexivity].
    rewrite handle_rcc_cfgr_write_bits by lia. f_equal.
    assert (Hcases : i = 0 \/ i = 1) by lia.
    destruct Hcases as [-> | ->]; reflexivity.
  - intros i Hn2 Hn3.
    destruct (Z.lt_ge_cases i 0) as [Hneg | Hpos].
    { rewrite !Z.testbit_neg_r by assumption. reflexivity. }
    destruct (Z.lt_ge_cases i 32) as [Hlow | Hhigh].
    + rewrite handle_rcc_cfgr_write_bits by lia.
      destruct (Z.eqb_spec i 2); [contradiction |].
      destruct (Z.eqb_spec i 3); [contradiction |]. reflexivity.
    + rewrite !testbit_high; auto using handle_rcc_cfgr_write_range.
Qed.

(** Writing 6 (selection 2, status 1) to RCC_CFGR of the all-zero struct. *)
Lemma rcc_cfgr_write_switch_status_witness :
  0 <= 0x00000006 < 2 ^ 32 /\
  exists s' wlog rlog r,
    Rcc.stm32f4xx_rcc_write Rcc.RCC_CFGR 0x00000006 4 rcc_zero
    = Returned (tt, s', wlog) /\
    Rcc.stm32f4xx_rcc_read Rcc.RCC_CFGR 4 s' = Returned (r, s', rlog) /\
    Z.land (Z.shiftr r 2) 0x3 = Z.land 0x00000006 0x3 /\
    (forall i, i <> 2 -> i <> 3 -> Z.testbit r i = Z.testbit 0x00000006 i).
Proof.
  split; [lia |].
  apply (rcc_cfgr_write_switch_status rcc_zero 0x00000006 4 4). lia.
Defined.

(** ** The interrupt inputs of the clock-control peripheral *)

Lemma land_BIT_zero (v n : Z) :
  0 <= n < 32 ->
  (Z.land v (uint32_t (BIT n)) =? 0) = negb (Z.testbit v n).
Proof.
  intros Hn. rewrite uint32_t_BIT, land_BIT by lia. destruct (Z.testbit v n).
  - rewrite BIT_pow2 by lia. apply Z.eqb_neq. apply Z.pow_nonzero; lia.
  - reflexivity.
Qed.

Lemma irq_number_range (e : Rcc.RccIrqEvents) :
  0 <= Rcc.irq_number e < Rcc.RCC_IRQ_COUNT.
Proof. destruct e; unfold Rcc.RCC_IRQ_COUNT; simpl; lia. Qed.

(** What a call of the handler on one of the seven input lines does: it
    returns, after the trace point it drives the output line to 1 and then
    to 0, and it ORs the event index into [rcc_cir] when the level is
    nonzero and the gate is open. *)
Lemma rcc_set_irq_run (e : Rcc.RccIrqEvents) (level : Z)
    (s : Rcc.STM32F4xxRccState) :
  Rcc.stm32f4xx_rcc_set_irq (Rcc.irq_number e) level s
  = Returned
      (tt,
       (if negb (level =? 0) && irq_gate_open e (Rcc.rcc_cir s)
        then s <| Rcc.rcc_cir := Z.lor (Rcc.rcc_cir s) (Rcc.irq_number e) |>
        else s),
       [ trace_point "stm32f4xx_rcc_set_irq" [Rcc.irq_number e; level];
         qemu_set_irq 1; qemu_set_irq 0 ]).
Proof.
  unfold Rcc.stm32f4xx_rcc_set_irq.
  assert (Hassert : (Rcc.irq_number e <? Rcc.RCC_IRQ_COUNT) = true).
  { apply Z.ltb_lt. apply irq_number_range. }
  rewrite Hassert.
  assert (Hgate :
    (Rcc.irq_number e =? Rcc.irq_number Rcc.RCC_IRQ_CSS)
    || negb (Z.land (Rcc.rcc_cir s)
               (uint32_t (BIT (Rcc.irq_number e + Rcc.RCC_CIR_ENABLE_BIT_OFFSET)))
             =? 0)
    = irq_gate_open e (Rcc.rcc_cir s)).
  { rewrite land_BIT_zero, negb_involutive
      by (pose proof (irq_number_range e); unfold Rcc.RCC_IRQ_COUNT,
          Rcc.RCC_CIR_ENABLE_BIT_OFFSET in *; lia).
    destruct e; reflexivity. }
  assert (Hirq : uint32_t (Rcc.irq_number e) = Rcc.irq_number e).
  { apply uint32_t_small. pose proof (irq_number_range e).
    unfold Rcc.RCC_IRQ_COUNT in *. lia. }
  unfold bind, emit, g_assert, get, modify, ret, qemu_irq_pulse.
  destruct (level =? 0); cbn [negb andb].
  - reflexivity.
  - rewrite Hgate, Hirq.
    destruct (irq_gate_open e (Rcc.rcc_cir s)); reflexivity.
Qed.


(** C8.  Every call of the interrupt-input handler on one of the seven input
    lines returns and drives the single output line to 1 and back to 0,
    exactly once, whatever the level and whether or not the gate let the
    event into [rcc_cir]. *)
Theorem rcc_set_irq_always_pulses (e : Rcc.RccIrqEvents) (level : Z)
    (s : Rcc.STM32F4xxRccState) :
  exists s' log,
    Rcc.stm32f4xx_rcc_set_irq (Rcc.irq_number e) level s
    = Returned (tt, s', log) /\
    irq_levels log = [1; 0].
Proof.
  rewrite rcc_set_irq_run. do 2 eexists.
  split; reflexivity.
Qed.

(** C1.  The gate is open for the LSI-ready event (index 0) when bit 7 of
    [rcc_cir] is set, yet raising that event leaves [rcc_cir] as it was:
    the handler ORs the event index, which is 0, into the register, so no
    flag bit is latched. *)
Theorem rcc_set_irq_lsi_ready_not_latched :
  let s := rcc_zero <| Rcc.rcc_cir := BIT 7 |> in
  irq_gate_open Rcc.RCC_IRQ_LSI_READY (Rcc.rcc_cir s) = true /\
  Rcc.stm32f4xx_rcc_set_irq (Rcc.irq_number Rcc.RCC_IRQ_LSI_READY) 1 s
  = Returned (tt, s, [ trace_point "stm32f4xx_rcc_set_irq" [0; 1];
                       qemu_set_irq 1; qemu_set_irq 0 ]) /\
  Z.testbit (Rcc.rcc_cir s) (Rcc.irq_number Rcc.RCC_IRQ_LSI_READY) = false.
Proof. cbv zeta. repeat split; reflexivity. Qed.

(** The same slip on the clock-security event (index 6): on a zero
    [rcc_cir] the register becomes 6, i.e. bits 1 and 2, and bit 6 stays
    clear. *)
Lemma rcc_set_irq_css_sets_bits_1_and_2 :
  exists s' log,
    Rcc.stm32f4xx_rcc_set_irq (Rcc.irq_number Rcc.RCC_IRQ_CSS) 1 rcc_zero
    = Returned (tt, s', log) /\
    Rcc.rcc_cir s' = 6 /\
    Z.testbit (Rcc.rcc_cir s') 6 = false.
Proof. do 2 eexists. repeat split; reflexivity. Qed.

(** X11.  When the level is zero, or the event's gate is closed, a call of
    the interrupt-input handler returns with the whole struct unchanged. *)
Lemma rcc_set_irq_gate_closed (e : Rcc.RccIrqEvents) (level : Z)
    (s : Rcc.STM32F4xxRccState) :
  level = 0 \/ irq_gate_open e (Rcc.rcc_cir s) = false ->
  exists log,
    Rcc.stm32f4xx_rcc_set_irq (Rcc.irq_number e) level s = Returned (tt, s, log).
Proof.
  intros Hclosed. rewrite rcc_set_irq_run. eexists.
  destruct Hclosed as [-> | ->]; [| rewrite andb_false_r]; reflexivity.
Qed.

(** ** The derived bits as an invariant of the clock-control peripheral *)

Lemma cr_consistent_handle (v : Z) : cr_consistent (Rcc.handle_rcc_cr_write v).
Proof.
  unfold cr_consistent.
  repeat split; rewrite !handle_rcc_cr_write_bits by lia;
    decide_closed_tests; reflexivity.
Qed.

Lemma cfgr_consistent_handle (v : Z) :
  cfgr_consistent (Rcc.handle_rcc_cfgr_write v).
Proof.
  unfold cfgr_consistent.
  repeat split; rewrite !handle_rcc_cfgr_write_bits by lia;
    decide_closed_tests; reflexivity.
Qed.

(** A write returns, and leaves [rcc_cr] and [rcc_cfgr] alone unless it is
    addressed to them, in which case it stores the derived value. *)
Lemma rcc_write_cr_cfgr (addr val64 size : Z) (s : Rcc.STM32F4xxRccState) :
  exists s' log,
    Rcc.stm32f4xx_rcc_write addr val64 size s = Returned (tt, s', log) /\
    (Rcc.rcc_cr s' = Rcc.rcc_cr s \/
     Rcc.rcc_cr s' = Rcc.handle_rcc_cr_write (uint32_t val64)) /\
    (Rcc.rcc_cfgr s' = Rcc.rcc_cfgr s \/
     Rcc.rcc_cfgr s' = Rcc.handle_rcc_cfgr_write (uint32_t val64)).
Proof.
  unfold Rcc.stm32f4xx_rcc_write. cbv zeta. unfold bind at 1. unfold emit at 1.
  match goal with
  | |- context [switch ?x ?cs ?d] =>
      destruct (switch_spec x cs d) as [[_ Heq] | [body [Hin Heq]]];
      rewrite Heq; clear Heq
  end.
  - do 2 eexists. split; [reflexivity |]. split; left; reflexivity.
  - simpl in Hin.
    repeat (destruct Hin as [Hin | Hin];
            [ injection Hin as _ <-; do 2 eexists;
              (split; [reflexivity |]);
              split; first [left; reflexivity | right; reflexivity]
            | ]).
    contradiction.
Qed.

(** The interrupt-input handler, on any line number from 0 up, either
    trips its assertion or returns with [rcc_cr] and [rcc_cfgr] as they
    were. *)
Lemma rcc_set_irq_cr_cfgr (irq level : Z) (s : Rcc.STM32F4xxRccState) :
  0 <= irq ->
  match Rcc.stm32f4xx_rcc_set_irq irq level s with
  | Returned (_, s', _) =>
      Rcc.rcc_cr s' = Rcc.rcc_cr s /\ Rcc.rcc_cfgr s' = Rcc.rcc_cfgr s
  | Aborted => Rcc.RCC_IRQ_COUNT <= irq
  end.
Proof.
  intros _.
  unfold Rcc.stm32f4xx_rcc_set_irq, bind, emit, g_assert, get, modify, ret,
    qemu_irq_pulse.
  destruct (Z.ltb_spec irq Rcc.RCC_IRQ_COUNT) as [Hlt | Hge]; [| assumption].
  destruct (negb (level =? 0)); [| split; reflexivity].
  match goal with
  | |- context [if ?c then _ else _] => destruct c
  end; split; reflexivity.
Qed.

(** C9.  From a struct in which every ready bit of [rcc_cr] equals its
    enable bit and bits 3:2 of [rcc_cfgr] equal its bits 1:0: every MMIO
    write, at any offset and of any value, returns with a struct that
    satisfies this again; every call of the interrupt-input handler on one
    of the seven lines returns with such a struct (and on a line number
    outside them it trips its assertion).  Moreover
    from any struct at all, a write to RCC_CR (resp. RCC_CFGR) returns with
    [rcc_cr] (resp. [rcc_cfgr]) consistent, whatever is written. *)
Theorem rcc_derived_bits_invariant (s : Rcc.STM32F4xxRccState) :
  derived_consistent s ->
  (forall addr val64 size,
      exists s' log,
        Rcc.stm32f4xx_rcc_write addr val64 size s = Returned (tt, s', log) /\
        derived_consistent s') /\
  (forall e level,
      exists s' log,
        Rcc.stm32f4xx_rcc_set_irq (Rcc.irq_number e) level s
        = Returned (tt, s', log) /\
        derived_consistent s') /\
  (forall irq level,
      0 <= irq ->
      match Rcc.stm32f4xx_rcc_set_irq irq level s with
      | Returned (_, s', _) => derived_consistent s'
      | Aborted => Rcc.RCC_IRQ_COUNT <= irq
      end) /\
  (forall (s0 : Rcc.STM32F4xxRccState) val64 size,
      exists s' log,
        Rcc.stm32f4xx_rcc_write Rcc.RCC_CR val64 size s0
        = Returned (tt, s', log) /\
        cr_consistent (Rcc.rcc_cr s')) /\
  (forall (s0 : Rcc.STM32F4xxRccState) val64 size,
      exists s' log,
        Rcc.stm32f4xx_rcc_write Rcc.RCC_CFGR val64 size s0
        = Returned (tt, s', log) /\
        cfgr_consistent (Rcc.rcc_cfgr s')).
Proof.
  intros [Hcr Hcfgr]. repeat apply conj.
  - intros addr val64 size.
    destruct (rcc_write_cr_cfgr addr val64 size s)
      as [s' [log [Hrun [Hcr' Hcfgr']]]].
    exists s', log. split; [assumption |]. split.
    + destruct Hcr' as [-> | ->]; [assumption | apply cr_consistent_handle].
    + destruct Hcfgr' as [-> | ->]; [assumption | apply cfgr_consistent_handle].
  - intros e level.
    pose proof (rcc_set_irq_cr_cfgr (Rcc.irq_number e) level s
                  (proj1 (irq_number_range e))) as Hframe.
    rewrite rcc_set_irq_run in *. do 2 eexists. split; [reflexivity |].
    destruct Hframe as [Hcr' Hcfgr']. split.
    + rewrite Hcr'. assumption.
    + rewrite Hcfgr'. assumption.
  - intros irq level Hirq.
    pose proof (rcc_set_irq_cr_cfgr irq level s Hirq) as Hframe.
    destruct (Rcc.stm32f4xx_rcc_set_irq irq level s) as [[[u s'] log] |];
      [| assumption].
    destruct Hframe as [Hcr' Hcfgr']. split.
    + rewrite Hcr'. assumption.
    + rewrite Hcfgr'. assumption.
  - intros s0 val64 size. rewrite rcc_write_cr_run. do 2 eexists.
    split; [reflexivity |]. rewrite rcc_cr_updated. apply cr_consistent_handle.
  - intros s0 val64 size. rewrite rcc_write_cfgr_run. do 2 eexists.
    split; [reflexivity |]. rewrite rcc_cfgr_updated.
    apply cfgr_consistent_handle.
Qed.

(** The all-zero struct is consistent; a write to RCC_CR and a
    clock-security event keep it so. *)
Lemma rcc_derived_bits_invariant_witness :
  derived_consistent rcc_zero /\
  (exists s' log,
      Rcc.stm32f4xx_rcc_write Rcc.RCC_CR 0x01010001 4 rcc_zero
      = Returned (tt, s', log) /\
      derived_consistent s') /\
  (exists s' log,
      Rcc.stm32f4xx_rcc_set_irq (Rcc.irq_number Rcc.RCC_IRQ_CSS) 1 rcc_zero
      = Returned (tt, s', log) /\
      derived_consistent s').
Proof.
  assert (Hzero : derived_consistent rcc_zero).
  { unfold derived_consistent, cr_consistent, cfgr_consistent.
    repeat split; reflexivity. }
  split; [exact Hzero |].
  destruct (rcc_derived_bits_invariant rcc_zero Hzero) as [Hw [Hi _]].
  split; [apply Hw | apply Hi].
Defined.

(** ** Reset *)

(** [stm32f4xx_rcc_reset] stores its constants and keeps the reserved
    words. *)
Lemma rcc_reset_run (s : Rcc.STM32F4xxRccState) :
  Rcc.stm32f4xx_rcc_reset s
  = Returned
      (tt,
       Rcc.Build_RccState 0x0000FF81 0x24003010 0 0 0 0 (Rcc.rcc_reserved0 s)
         0 0 (Rcc.rcc_reserved1 s) 0 0 (Rcc.rcc_reserved2 s) 0 0
         (Rcc.rcc_reserved3 s) 0x0061900F 0x00000080 (Rcc.rcc_reserved4 s)
         0x10E2C80F 0x00077930 (Rcc.rcc_reserved5 s) 0 0x0E000000
         (Rcc.rcc_reserved6 s) 0 0x24003000 (Rcc.rcc_reserved7 s) 0,
       []).
Proof. reflexivity. Qed.

Lemma flash_reset_run (s : Flash.STM32F4xxFlashState) :
  Flash.stm32f4xx_flash_reset s
  = Returned (tt, Flash.Build_FlashState 0 0 0 0 0x80000000 0x0FFFAAED
                    0x0FFF0000, []).
Proof. reflexivity. Qed.

(** X13.  After a reset of the clock-control peripheral, a read at each of
    the 21 register offsets returns that register's reset constant. *)
Lemma rcc_reset_then_read (s : Rcc.STM32F4xxRccState) (offset R size : Z) :
  In (offset, R) Rcc.reset_values ->
  exists s' log,
    Rcc.stm32f4xx_rcc_reset s = Returned (tt, s', []) /\
    Rcc.stm32f4xx_rcc_read offset size s' = Returned (R, s', log).
Proof.
  intros Hin. rewrite rcc_reset_run.
  unfold Rcc.reset_values in Hin. simpl in Hin.
  repeat (destruct Hin as [Hin | Hin];
          [injection Hin as <- <-; do 2 eexists; split; reflexivity |]).
  contradiction.
Qed.

(** X21.  After a reset of the flash interface, a read at each register
    offset other than FLASH_CR returns that register's reset constant. *)
Lemma flash_reset_then_read (s : Flash.STM32F4xxFlashState) (offset R size : Z) :
  In (offset, R) Flash.reset_values ->
  offset <> Flash.FLASH_CR ->
  exists s' log,
    Flash.stm32f4xx_flash_reset s = Returned (tt, s', []) /\
    Flash.stm32f4xx_flash_read offset size s' = Returned (R, s', log).
Proof.
  intros Hin Hne. rewrite flash_reset_run.
  unfold Flash.reset_values in Hin. simpl in Hin.
  repeat (destruct Hin as [Hin | Hin];
          [injection Hin as <- <-;
           first [ exfalso; apply Hne; reflexivity
                 | do 2 eexists; split; reflexivity ] |]).
  contradiction.
Qed.

(** C3.  The flash interface's reset stores 0x80000000 in [flash_cr], the
    reset constant of the register at offset FLASH_CR, but a read at
    FLASH_CR right after the reset returns 0: the FLASH_CR case of the read
    switch returns [flash_sr]. *)
Theorem flash_reset_then_read_cr (s : Flash.STM32F4xxFlashState) (size : Z) :
  exists s' log,
    Flash.stm32f4xx_flash_reset s = Returned (tt, s', []) /\
    In (Flash.FLASH_CR, 0x80000000) Flash.reset_values /\
    Flash.flash_cr s' = 0x80000000 /\
    Flash.stm32f4xx_flash_read Flash.FLASH_CR size s' = Returned (0, s', log).
Proof.
  rewrite flash_reset_run. do 2 eexists.
  split; [reflexivity |]. split; [| split; reflexivity].
  unfold Flash.reset_values. simpl. tauto.
Qed.

(** C4, the claim as stated fails: on the struct the reset produces,
    [handle_rcc_cr_write] does not return [rcc_cr] unchanged. *)
Lemma rcc_reset_cr_fixed_point_counterexample :
  exists s',
    Rcc.stm32f4xx_rcc_reset rcc_zero = Returned (tt, s', []) /\
    Rcc.handle_rcc_cr_write (Rcc.rcc_cr s') <> Rcc.rcc_cr s'.
Proof.
  eexists. split; [apply rcc_reset_run |].
  vm_compute. discriminate.
Qed.

(** C4.  The reset is idempotent; on the struct it produces
    [handle_rcc_cfgr_write] returns [rcc_cfgr] unchanged, the pairs 17/16,
    25/24 and 27/26 of [rcc_cr] are consistent, and [handle_rcc_cr_write]
    changes [rcc_cr] (0x0000FF81, enable bit 0 set and ready bit 1 clear)
    in bit 1 only, giving 0x0000FF83. *)
Theorem rcc_reset_idempotent_and_derived (s : Rcc.STM32F4xxRccState) :
  exists s',
    Rcc.stm32f4xx_rcc_reset s = Returned (tt, s', []) /\
    Rcc.stm32f4xx_rcc_reset s' = Returned (tt, s', []) /\
    Rcc.handle_rcc_cfgr_write (Rcc.rcc_cfgr s') = Rcc.rcc_cfgr s' /\
    cfgr_consistent (Rcc.rcc_cfgr s') /\
    Rcc.rcc_cr s' = 0x0000FF81 /\
    Rcc.handle_rcc_cr_write (Rcc.rcc_cr s') = 0x0000FF83 /\
    Z.testbit (Rcc.rcc_cr s') 17 = Z.testbit (Rcc.rcc_cr s') 16 /\
    Z.testbit (Rcc.rcc_cr s') 25 = Z.testbit (Rcc.rcc_cr s') 24 /\
    Z.testbit (Rcc.rcc_cr s') 27 = Z.testbit (Rcc.rcc_cr s') 26.
Proof.
  eexists. split; [apply rcc_reset_run |].
  split; [rewrite rcc_reset_run; reflexivity |].
  unfold cfgr_consistent. repeat split; vm_compute; reflexivity.
Qed.

(** ** The flash interface's control and status registers *)

Lemma flash_write_cr_run (s : Flash.STM32F4xxFlashState) (val64 size : Z) :
  Flash.stm32f4xx_flash_write Flash.FLASH_CR val64 size s
  = Returned (tt, s <| Flash.flash_cr := uint32_t val64 |>,
              [ trace_point "stm32f4xx_flash_write"
                  [Flash.FLASH_CR; uint32_t val64] ]).
Proof. reflexivity. Qed.

Lemma flash_read_sr_run (s : Flash.STM32F4xxFlashState) (size : Z) :
  Flash.stm32f4xx_flash_read Flash.FLASH_SR size s
  = Returned (Flash.flash_sr s, s,
              [ trace_point "stm32f4xx_flash_read" [Flash.FLASH_SR] ]).
Proof. reflexivity. Qed.

Lemma flash_read_cr_run (s : Flash.STM32F4xxFlashState) (size : Z) :
  Flash.stm32f4xx_flash_read Flash.FLASH_CR size s
  = Returned (Flash.flash_sr s, s,
              [ trace_point "stm32f4xx_flash_read" [Flash.FLASH_CR] ]).
Proof. reflexivity. Qed.

(** C2, the claim as stated fails: after a reset, writing 0xFFFFFFFF to
    FLASH_CR and reading FLASH_SR returns 0, not the value written. *)
Lemma flash_cr_write_sr_read_counterexample :
  exists s0 s1 wlog rlog r,
    Flash.stm32f4xx_flash_reset flash_zero = Returned (tt, s0, []) /\
    Flash.stm32f4xx_flash_write Flash.FLASH_CR 0xFFFFFFFF 4 s0
    = Returned (tt, s1, wlog) /\
    Flash.stm32f4xx_flash_read Flash.FLASH_SR 4 s1 = Returned (r, s1, rlog) /\
    r = 0 /\ r <> 0xFFFFFFFF.
Proof.
  do 5 eexists. split; [apply flash_reset_run |].
  split; [apply flash_write_cr_run |].
  split; [apply flash_read_sr_run |].
  split; [reflexivity | discriminate].
Qed.

(** C2.  Writing any value to FLASH_CR and then reading FLASH_SR returns
    the status register's own stored value, which the write leaves as it
    was. *)
Theorem flash_cr_write_then_sr_read
    (s : Flash.STM32F4xxFlashState) (X size size' : Z) :
  exists s' wlog rlog,
    Flash.stm32f4xx_flash_write Flash.FLASH_CR X size s
    = Returned (tt, s', wlog) /\
    Flash.stm32f4xx_flash_read Flash.FLASH_SR size' s'
    = Returned (Flash.flash_sr s, s', rlog) /\
    Flash.flash_sr s' = Flash.flash_sr s.
Proof.
  do 3 eexists. split; [apply flash_write_cr_run |].
  rewrite flash_read_sr_run. split; reflexivity.
Qed.

(** A read never changes the struct, and what it returns and logs depends
    on the struct only through the fields other than [flash_cr]. *)
Lemma flash_read_ignores_cr (s1 s2 : Flash.STM32F4xxFlashState) (addr size : Z) :
  same_but_flash_cr s1 s2 ->
  exists r log,
    Flash.stm32f4xx_flash_read addr size s1 = Returned (r, s1, log) /\
    Flash.stm32f4xx_flash_read addr size s2 = Returned (r, s2, log).
Proof.
  intros (Hacr & Hkeyr & Hoptkeyr & Hsr & Hoptcr & Hoptcr1).
  unfold Flash.stm32f4xx_flash_read, bind, emit, get.
  match goal with
  | |- context [switch ?x ?cs ?d] =>
      destruct (switch_spec x cs d) as [[Hnot Heq] | [body [Hin Heq]]];
      rewrite Heq; clear Heq
  end.
  - rewrite switch_default by exact Hnot. do 2 eexists. split; reflexivity.
  - simpl in Hin.
    repeat (destruct Hin as [Hin | Hin];
            [ injection Hin as <- <-; do 2 eexists;
              (split; [reflexivity |]); simpl; unfold ret;
              first [ rewrite Hacr | rewrite Hkeyr | rewrite Hoptkeyr
                    | rewrite Hsr | rewrite Hoptcr | rewrite Hoptcr1 ];
              reflexivity
            | ]).
    contradiction.
Qed.

Lemma same_but_flash_cr_write (s : Flash.STM32F4xxFlashState) (v : Z) :
  same_but_flash_cr (s <| Flash.flash_cr := v |>) s.
Proof. unfold same_but_flash_cr. repeat split; reflexivity. Qed.

(** C10.  Two flash structs that differ only in [flash_cr] give the same
    returned value and the same calls for a read at every offset, neither
    read changing its struct; a read at FLASH_CR returns [flash_sr]; and
    after a write of any value to FLASH_CR, a read at any offset returns
    what it returned before the write. *)
Theorem flash_cr_not_observable (s1 s2 : Flash.STM32F4xxFlashState) :
  same_but_flash_cr s1 s2 ->
  (forall addr size,
      exists r log,
        Flash.stm32f4xx_flash_read addr size s1 = Returned (r, s1, log) /\
        Flash.stm32f4xx_flash_read addr size s2 = Returned (r, s2, log)) /\
  (forall size,
      exists log,
        Flash.stm32f4xx_flash_read Flash.FLASH_CR size s1
        = Returned (Flash.flash_sr s1, s1, log)) /\
  (forall X size addr size',
      exists s' wlog r rlog,
        Flash.stm32f4xx_flash_write Flash.FLASH_CR X size s1
        = Returned (tt, s', wlog) /\
        Flash.stm32f4xx_flash_read addr size' s' = Returned (r, s', rlog) /\
        Flash.stm32f4xx_flash_read addr size' s1 = Returned (r, s1, rlog)).
Proof.
  intros Hsame. repeat apply conj.
  - intros addr size. apply flash_read_ignores_cr. assumption.
  - intros size. eexists. apply flash_read_cr_run.
  - intros X size addr size'.
    destruct (flash_read_ignores_cr
                (s1 <| Flash.flash_cr := uint32_t X |>) s1 addr size'
                (same_but_flash_cr_write s1 (uint32_t X)))
      as [r [rlog [Hafter Hbefore]]].
    exists (s1 <| Flash.flash_cr := uint32_t X |>). do 3 eexists.
    split; [apply flash_write_cr_run |].
    split; [exact Hafter | exact Hbefore].
Qed.

(** The all-zero flash struct and the same struct with [flash_cr] all
    ones read alike at FLASH_CR. *)
Lemma flash_cr_not_observable_witness :
  same_but_flash_cr flash_zero (flash_zero <| Flash.flash_cr := 0xFFFFFFFF |>) /\
  (exists r log,
      Flash.stm32f4xx_flash_read Flash.FLASH_CR 4 flash_zero
      = Returned (r, flash_zero, log) /\
      Flash.stm32f4xx_flash_read Flash.FLASH_CR 4
        (flash_zero <| Flash.flash_cr := 0xFFFFFFFF |>)
      = Returned (r, flash_zero <| Flash.flash_cr := 0xFFFFFFFF |>, log)).
Proof.
  assert (Hsame : same_but_flash_cr flash_zero
                    (flash_zero <| Flash.flash_cr := 0xFFFFFFFF |>)).
  { unfold same_but_flash_cr. repeat split; reflexivity. }
  split; [exact Hsame |].
  destruct (flash_cr_not_observable _ _ Hsame) as [Hread _].
  apply Hread.
Defined.

(** * Further properties of the register blocks *)

(** ** The two switches of the clock-control peripheral, case by case *)

Lemma is_register_false (offsets : list Z) (addr : Z) :
  ~ In addr offsets -> is_register offsets addr = false.
Proof.
  intros Hnot. unfold is_register.
  destruct (existsb (Z.eqb addr) offsets) eqn:Hex; [| reflexivity].
  apply existsb_exists in Hex. destruct Hex as [x [Hin Heq]].
  apply Z.eqb_eq in Heq. subst x. contradiction.
Qed.

Lemma is_register_true (offsets : list Z) (addr : Z) :
  In addr offsets -> is_register offsets addr = true.
Proof.
  intros Hin. unfold is_register. apply existsb_exists.
  exists addr. split; [assumption | apply Z.eqb_refl].
Qed.

(** A read runs the default case, or returns the field of its case. *)
Lemma rcc_read_cases (addr size : Z) (s : Rcc.STM32F4xxRccState) :
  (~ In addr Rcc.register_offsets /\
   Rcc.stm32f4xx_rcc_read addr size s
   = Returned (0, s, [ trace_point "stm32f4xx_rcc_read" [addr];
                       qemu_log_mask LOG_GUEST_ERROR
                         "STM32F4XX_rcc_read: Bad offset %x\n" (int addr) ])) \/
  (exists field,
      In (addr, field) rcc_read_field /\
      Rcc.stm32f4xx_rcc_read addr size s
      = Returned (field s, s, [ trace_point "stm32f4xx_rcc_read" [addr] ])).
Proof.
  unfold Rcc.stm32f4xx_rcc_read. unfold bind at 1 2, emit at 1, get.
  split_switch Hnot body Hin.
  - left. split; [exact Hnot | reflexivity].
  - right. each_member Hin
      ltac:(fun H => injection H as <- <-; eexists;
                     split; [| reflexivity]; unfold rcc_read_field;
                     auto 25 using in_eq, in_cons).
Qed.

(** A write runs the default case, or makes the assignment of its case. *)
Lemma rcc_write_cases (addr val64 size : Z) (s : Rcc.STM32F4xxRccState) :
  (~ In addr Rcc.register_offsets /\
   Rcc.stm32f4xx_rcc_write addr val64 size s
   = Returned (tt, s, [ trace_point "stm32f4xx_rcc_write" [addr; uint32_t val64];
                        qemu_log_mask LOG_GUEST_ERROR
                          "STM32F4XX_rcc_write: Bad offset %x\n" (int addr) ])) \/
  (exists update,
      In (addr, update) rcc_write_update /\
      Rcc.stm32f4xx_rcc_write addr val64 size s
      = Returned (tt, update (uint32_t val64) s,
                  [ trace_point "stm32f4xx_rcc_write" [addr; uint32_t val64] ])).
Proof.
  unfold Rcc.stm32f4xx_rcc_write. cbv zeta. unfold bind at 1, emit at 1.
  split_switch Hnot body Hin.
  - left. split; [exact Hnot | reflexivity].
  - right. each_member Hin
      ltac:(fun H => injection H as <- <-; eexists;
                     split; [unfold rcc_write_update;
                             auto 25 using in_eq, in_cons | reflexivity]).
Qed.

(** ** Round trips and independence of the clock-control registers *)

Lemma rcc_read_field_functional
    (b : Z) (f f' : Rcc.STM32F4xxRccState -> Z) :
  In (b, f) rcc_read_field -> In (b, f') rcc_read_field -> f = f'.
Proof.
  intros Hf Hf'.
  each_member Hf
    ltac:(fun H =>
            injection H as <- <-;
            each_member Hf'
              ltac:(fun H' =>
                      first [ discriminate H'
                            | injection H' as <-; reflexivity ])).
Qed.

(** The read at a label of the table, whatever the struct. *)
Lemma rcc_read_at (b : Z) (f : Rcc.STM32F4xxRccState -> Z) :
  In (b, f) rcc_read_field ->
  forall size s,
    Rcc.stm32f4xx_rcc_read b size s
    = Returned (f s, s, [ trace_point "stm32f4xx_rcc_read" [b] ]).
Proof.
  intros Hf size s.
  destruct (rcc_read_cases b size s) as [[Hnot _] | [f' [Hf' Hr]]].
  - exfalso. apply Hnot. apply (in_map fst) in Hf. exact Hf.
  - rewrite (rcc_read_field_functional b f f' Hf Hf'). exact Hr.
Qed.

Lemma rcc_read_unmapped (b size : Z) (s : Rcc.STM32F4xxRccState) :
  ~ In b Rcc.register_offsets ->
  Rcc.stm32f4xx_rcc_read b size s
  = Returned (0, s, [ trace_point "stm32f4xx_rcc_read" [b];
                      qemu_log_mask LOG_GUEST_ERROR
                        "STM32F4XX_rcc_read: Bad offset %x\n" (int b) ]).
Proof.
  intros Hnot.
  destruct (rcc_read_cases b size s) as [[_ Hr] | [f [Hf _]]].
  - exact Hr.
  - exfalso. apply Hnot. apply (in_map fst) in Hf. exact Hf.
Qed.

Lemma rcc_read_field_total (b : Z) :
  In b Rcc.register_offsets -> exists f, In (b, f) rcc_read_field.
Proof.
  intros Hin.
  destruct (rcc_read_cases b 0 rcc_zero) as [[Hnot _] | [f [Hf _]]];
    [contradiction | exists f; assumption].
Qed.

(** The assignments of two different cases commute, and a later assignment
    by a case overrides an earlier one by the same case. *)
Lemma rcc_update_commute
    (a b : Z) (ua ub : Z -> Rcc.STM32F4xxRccState -> Rcc.STM32F4xxRccState) :
  In (a, ua) rcc_write_update -> In (b, ub) rcc_write_update -> a <> b ->
  forall va vb s, ub vb (ua va s) = ua va (ub vb s).
Proof.
  intros Hua Hub Hne va vb s.
  each_member Hua
    ltac:(fun H =>
            injection H as <- <-;
            each_member Hub
              ltac:(fun H' =>
                      injection H' as <- <-;
                      first [ exfalso; apply Hne; reflexivity
                            | reflexivity ])).
Qed.

Lemma rcc_update_override
    (a : Z) (ua : Z -> Rcc.STM32F4xxRccState -> Rcc.STM32F4xxRccState) :
  In (a, ua) rcc_write_update ->
  forall va vb s, ua vb (ua va s) = ua vb s.
Proof.
  intros Hua va vb s.
  each_member Hua ltac:(fun H => injection H as <- <-; reflexivity).
Qed.

(** The labels of the update table are pairwise distinct, so a label has
    one update. *)
Lemma rcc_write_update_functional
    (a : Z) (u u' : Z -> Rcc.STM32F4xxRccState -> Rcc.STM32F4xxRccState) :
  In (a, u) rcc_write_update -> In (a, u') rcc_write_update -> u = u'.
Proof.
  intros Hu Hu'.
  each_member Hu
    ltac:(fun H =>
            injection H as <- <-;
            each_member Hu'
              ltac:(fun H' =>
                      first [ discriminate H'
                            | injection H' as <-; reflexivity ])).
Qed.

(** The write at a label of the table, whatever the struct. *)
Lemma rcc_write_at
    (a : Z) (u : Z -> Rcc.STM32F4xxRccState -> Rcc.STM32F4xxRccState) :
  In (a, u) rcc_write_update ->
  forall val64 size s,
    Rcc.stm32f4xx_rcc_write a val64 size s
    = Returned (tt, u (uint32_t val64) s,
                [ trace_point "stm32f4xx_rcc_write" [a; uint32_t val64] ]).
Proof.
  intros Hu val64 size s.
  destruct (rcc_write_cases a val64 size s) as [[Hnot _] | [u' [Hu' Hw]]].
  - exfalso. apply Hnot. apply (in_map fst) in Hu. exact Hu.
  - rewrite (rcc_write_update_functional a u u' Hu Hu'). exact Hw.
Qed.

Lemma rcc_write_unmapped (a val64 size : Z) (s : Rcc.STM32F4xxRccState) :
  ~ In a Rcc.register_offsets ->
  Rcc.stm32f4xx_rcc_write a val64 size s
  = Returned (tt, s, [ trace_point "stm32f4xx_rcc_write" [a; uint32_t val64];
                       qemu_log_mask LOG_GUEST_ERROR
                         "STM32F4XX_rcc_write: Bad offset %x\n" (int a) ]).
Proof.
  intros Hnot.
  destruct (rcc_write_cases a val64 size s) as [[_ Hw] | [u [Hu _]]].
  - exact Hw.
  - exfalso. apply Hnot. apply (in_map fst) in Hu. exact Hu.
Qed.

(** Either an offset has no register, or the table has its update. *)
Lemma rcc_offset_cases (a : Z) :
  ~ In a Rcc.register_offsets \/ exists u, In (a, u) rcc_write_update.
Proof.
  destruct (rcc_write_cases a 0 0 rcc_zero) as [[Hnot _] | [u [Hu _]]];
    [left; assumption | right; exists u; assumption].
Qed.

(** The field read at one label is not changed by the assignment of
    another label, and holds the assigned value after the assignment of
    its own label when that is not RCC_CR or RCC_CFGR. *)
Lemma rcc_field_frame
    (a b : Z) (u : Z -> Rcc.STM32F4xxRccState -> Rcc.STM32F4xxRccState)
    (f : Rcc.STM32F4xxRccState -> Z) :
  In (a, u) rcc_write_update -> In (b, f) rcc_read_field -> a <> b ->
  forall v s, f (u v s) = f s.
Proof.
  intros Hu Hf Hne v s.
  each_member Hu
    ltac:(fun H =>
            injection H as <- <-;
            each_member Hf
              ltac:(fun H' =>
                      injection H' as <- <-;
                      first [ exfalso; apply Hne; reflexivity
                            | reflexivity ])).
Qed.

Lemma rcc_field_stored
    (a : Z) (u : Z -> Rcc.STM32F4xxRccState -> Rcc.STM32F4xxRccState)
    (f : Rcc.STM32F4xxRccState -> Z) :
  In (a, u) rcc_write_update -> In (a, f) rcc_read_field ->
  a <> Rcc.RCC_CR -> a <> Rcc.RCC_CFGR ->
  forall v s, f (u v s) = v.
Proof.
  intros Hu Hf Hcr Hcfgr v s.
  each_member Hu
    ltac:(fun H =>
            injection H as <- <-;
            first [ exfalso; apply Hcr; reflexivity
                  | exfalso; apply Hcfgr; reflexivity
                  | each_member Hf
                      ltac:(fun H' =>
                              first [ discriminate H'
                                    | injection H' as <-; reflexivity ]) ]).
Qed.

(** X2.  Writing to any register offset of the clock-control peripheral
    other than RCC_CR and RCC_CFGR and reading the same offset back returns
    the value written, truncated to 32 bits; this includes RCC_CIR, which is
    stored verbatim. *)
Theorem rcc_plain_write_then_read
    (addr val64 size size' : Z) (s : Rcc.STM32F4xxRccState) :
  In addr Rcc.register_offsets ->
  addr <> Rcc.RCC_CR -> addr <> Rcc.RCC_CFGR ->
  exists s' wlog rlog,
    Rcc.stm32f4xx_rcc_write addr val64 size s = Returned (tt, s', wlog) /\
    Rcc.stm32f4xx_rcc_read addr size' s'
    = Returned (uint32_t val64, s', rlog).
Proof.
  intros Hin Hcr Hcfgr.
  destruct (rcc_offset_cases addr) as [Hnot | [u Hu]]; [contradiction |].
  destruct (rcc_read_field_total addr Hin) as [f Hf].
  do 3 eexists. split; [apply (rcc_write_at addr u Hu) |].
  rewrite (rcc_read_at addr f Hf).
  rewrite (rcc_field_stored addr u f Hu Hf Hcr Hcfgr). reflexivity.
Qed.

Lemma rcc_plain_write_then_read_witness :
  In Rcc.RCC_CIR Rcc.register_offsets /\
  Rcc.RCC_CIR <> Rcc.RCC_CR /\ Rcc.RCC_CIR <> Rcc.RCC_CFGR /\
  exists s' wlog rlog,
    Rcc.stm32f4xx_rcc_write Rcc.RCC_CIR 0x1FFFFFFFF 4 rcc_zero
    = Returned (tt, s', wlog) /\
    Rcc.stm32f4xx_rcc_read Rcc.RCC_CIR 4 s'
    = Returned (uint32_t 0x1FFFFFFFF, s', rlog).
Proof.
  assert (Hin : In Rcc.RCC_CIR Rcc.register_offsets).
  { unfold Rcc.register_offsets. do 3 right. left. reflexivity. }
  assert (Hcr : Rcc.RCC_CIR <> Rcc.RCC_CR) by discriminate.
  assert (Hcfgr : Rcc.RCC_CIR <> Rcc.RCC_CFGR) by discriminate.
  repeat (split; [assumption |]).
  apply (rcc_plain_write_then_read Rcc.RCC_CIR 0x1FFFFFFFF 4 4 rcc_zero
           Hin Hcr Hcfgr).
Defined.

(** X3.  A write at one offset of the clock-control peripheral does not
    change what a read at any other offset returns and logs. *)
Theorem rcc_write_frame
    (a b val64 size size' : Z) (s : Rcc.STM32F4xxRccState) :
  a <> b ->
  exists s' wlog r rlog,
    Rcc.stm32f4xx_rcc_write a val64 size s = Returned (tt, s', wlog) /\
    Rcc.stm32f4xx_rcc_read b size' s' = Returned (r, s', rlog) /\
    Rcc.stm32f4xx_rcc_read b size' s = Returned (r, s, rlog).
Proof.
  intros Hne.
  destruct (rcc_offset_cases a) as [Hnota | [u Hu]].
  - destruct (rcc_read_cases b size' s) as [[_ Hr] | [f [_ Hr]]];
      do 4 eexists;
      (split; [apply (rcc_write_unmapped a val64 size s Hnota) |]);
      split; exact Hr.
  - destruct (rcc_read_cases b size' s) as [[Hnotb _] | [f [Hf _]]];
      do 4 eexists; (split; [apply (rcc_write_at a u Hu) |]).
    + split; apply (rcc_read_unmapped b size' _ Hnotb).
    + rewrite !(rcc_read_at b f Hf).
      rewrite (rcc_field_frame a b u f Hu Hf Hne). split; reflexivity.
Qed.

Lemma rcc_write_frame_witness :
  Rcc.RCC_CIR <> Rcc.RCC_CR /\
  exists s' wlog r rlog,
    Rcc.stm32f4xx_rcc_write Rcc.RCC_CIR 0xFFFFFFFF 4 rcc_zero
    = Returned (tt, s', wlog) /\
    Rcc.stm32f4xx_rcc_read Rcc.RCC_CR 4 s' = Returned (r, s', rlog) /\
    Rcc.stm32f4xx_rcc_read Rcc.RCC_CR 4 rcc_zero
    = Returned (r, rcc_zero, rlog).
Proof.
  assert (Hne : Rcc.RCC_CIR <> Rcc.RCC_CR) by discriminate.
  split; [exact Hne |].
  apply (rcc_write_frame Rcc.RCC_CIR Rcc.RCC_CR 0xFFFFFFFF 4 4 rcc_zero Hne).
Defined.

(** X4.  Two writes to the clock-control peripheral: a second write to the
    same offset makes the first one unobservable in the struct, and writes
    to two different offsets give the same struct in either order. *)
Theorem rcc_write_write
    (a b va vb size : Z) (s : Rcc.STM32F4xxRccState) :
  (exists s1 s2 l1 l2,
      Rcc.stm32f4xx_rcc_write a va size s = Returned (tt, s1, l1) /\
      Rcc.stm32f4xx_rcc_write a vb size s1 = Returned (tt, s2, l2) /\
      Rcc.stm32f4xx_rcc_write a vb size s = Returned (tt, s2, l2)) /\
  (a <> b ->
   exists sa sb sab la lb,
     Rcc.stm32f4xx_rcc_write a va size s = Returned (tt, sa, la) /\
     Rcc.stm32f4xx_rcc_write b vb size sa = Returned (tt, sab, lb) /\
     Rcc.stm32f4xx_rcc_write b vb size s = Returned (tt, sb, lb) /\
     Rcc.stm32f4xx_rcc_write a va size sb = Returned (tt, sab, la)).
Proof.
  split.
  - destruct (rcc_offset_cases a) as [Hnot | [u Hu]]; do 4 eexists.
    + split; [apply (rcc_write_unmapped a va size s Hnot) |].
      split; apply (rcc_write_unmapped a vb size s Hnot).
    + split; [apply (rcc_write_at a u Hu) |].
      split; [apply (rcc_write_at a u Hu) |].
      rewrite (rcc_update_override a u Hu). apply (rcc_write_at a u Hu).
  - intros Hne.
    destruct (rcc_offset_cases a) as [Hnota | [ua Hua]];
      destruct (rcc_offset_cases b) as [Hnotb | [ub Hub]]; do 5 eexists.
    + split; [apply (rcc_write_unmapped a va size s Hnota) |].
      split; [apply (rcc_write_unmapped b vb size s Hnotb) |].
      split; [apply (rcc_write_unmapped b vb size s Hnotb) |].
      apply (rcc_write_unmapped a va size s Hnota).
    + split; [apply (rcc_write_unmapped a va size s Hnota) |].
      split; [apply (rcc_write_at b ub Hub) |].
      split; [apply (rcc_write_at b ub Hub) |].
      apply (rcc_write_unmapped a va size _ Hnota).
    + split; [apply (rcc_write_at a ua Hua) |].
      split; [apply (rcc_write_unmapped b vb size _ Hnotb) |].
      split; [apply (rcc_write_unmapped b vb size s Hnotb) |].
      apply (rcc_write_at a ua Hua).
    + split; [apply (rcc_write_at a ua Hua) |].
      split; [apply (rcc_write_at b ub Hub) |].
      split; [apply (rcc_write_at b ub Hub) |].
      rewrite (rcc_update_commute a b ua ub Hua Hub Hne).
      apply (rcc_write_at a ua Hua).
Qed.

Lemma rcc_write_write_witness :
  Rcc.RCC_CR <> Rcc.RCC_CIR /\
  exists sa sb sab la lb,
    Rcc.stm32f4xx_rcc_write Rcc.RCC_CR 1 4 rcc_zero = Returned (tt, sa, la) /\
    Rcc.stm32f4xx_rcc_write Rcc.RCC_CIR 0x80 4 sa = Returned (tt, sab, lb) /\
    Rcc.stm32f4xx_rcc_write Rcc.RCC_CIR 0x80 4 rcc_zero
    = Returned (tt, sb, lb) /\
    Rcc.stm32f4xx_rcc_write Rcc.RCC_CR 1 4 sb = Returned (tt, sab, la).
Proof.
  assert (Hne : Rcc.RCC_CR <> Rcc.RCC_CIR) by discriminate.
  split; [exact Hne |].
  exact (proj2 (rcc_write_write Rcc.RCC_CR Rcc.RCC_CIR 1 0x80 4 rcc_zero) Hne).
Defined.
(** ** Diagnostics and the interrupt line under MMIO accesses *)

(** X1.  An MMIO read or write of the clock-control peripheral, at any
    offset: both return, the read leaves the struct as it was, neither
    drives the interrupt output line, and each makes a [qemu_log_mask] call
    exactly when the offset is not a register offset (none otherwise). *)
Theorem rcc_access_diagnostic_iff_unmapped
    (addr size val64 : Z) (s : Rcc.STM32F4xxRccState) :
  exists r rlog s' wlog,
    Rcc.stm32f4xx_rcc_read addr size s = Returned (r, s, rlog) /\
    Rcc.stm32f4xx_rcc_write addr val64 size s = Returned (tt, s', wlog) /\
    diagnostics rlog
    = (if is_register Rcc.register_offsets addr then 0 else 1)%nat /\
    diagnostics wlog
    = (if is_register Rcc.register_offsets addr then 0 else 1)%nat /\
    irq_levels rlog = [] /\ irq_levels wlog = [].
Proof.
  destruct (rcc_offset_cases addr) as [Hnot | [u Hu]].
  - rewrite (is_register_false Rcc.register_offsets addr Hnot).
    do 4 eexists.
    split; [apply (rcc_read_unmapped addr size s Hnot) |].
    split; [apply (rcc_write_unmapped addr val64 size s Hnot) |].
    repeat split; reflexivity.
  - assert (Hin : In addr Rcc.register_offsets).
    { apply (in_map fst) in Hu. exact Hu. }
    destruct (rcc_read_field_total addr Hin) as [f Hf].
    rewrite (is_register_true Rcc.register_offsets addr Hin).
    do 4 eexists.
    split; [apply (rcc_read_at addr f Hf) |].
    split; [apply (rcc_write_at addr u Hu) |].
    repeat split; reflexivity.
Qed.

(** ** Every register stays a 32-bit value *)

Lemma is_uint32_uint32_t (x : Z) : is_uint32 (uint32_t x).
Proof. apply uint32_t_range. Qed.

Lemma is_uint32_bits (x : Z) :
  0 <= x -> (forall i, 32 <= i -> Z.testbit x i = false) -> is_uint32 x.
Proof.
  intros Hx Hhigh. split; [assumption |].
  destruct (Z.eq_dec x 0) as [-> | Hnz]; [lia |].
  apply Z.log2_lt_pow2; [lia |].
  destruct (Z.lt_ge_cases (Z.log2 x) 32) as [Hlt | Hge]; [assumption |].
  specialize (Hhigh (Z.log2 x) Hge).
  rewrite Z.bit_log2 in Hhigh by lia. discriminate.
Qed.

Lemma is_uint32_lor (x y : Z) :
  is_uint32 x -> is_uint32 y -> is_uint32 (Z.lor x y).
Proof.
  intros Hx Hy. apply is_uint32_bits.
  - apply Z.lor_nonneg. unfold is_uint32 in *. lia.
  - intros i Hi. rewrite Z.lor_spec, !testbit_high by assumption. reflexivity.
Qed.

Lemma is_uint32_irq_number (e : Rcc.RccIrqEvents) :
  is_uint32 (Rcc.irq_number e).
Proof. destruct e; unfold is_uint32; simpl; lia. Qed.

(** The 21 conditions of [rcc_wf], as hypotheses. *)
Ltac split_wf H :=
  unfold rcc_wf, rcc_registers, flash_wf, flash_registers in H;
  repeat match type of H with
         | Forall _ (_ :: _) =>
             let H1 := fresh "Hreg" in
             apply Forall_cons_iff in H; destruct H as [H1 H]
         end.

Ltac prove_wf :=
  unfold rcc_wf, rcc_registers, flash_wf, flash_registers;
  repeat (apply Forall_cons;
          [ first [ assumption
                  | apply is_uint32_uint32_t
                  | apply handle_rcc_cr_write_range; apply uint32_t_range
                  | apply handle_rcc_cfgr_write_range; apply uint32_t_range
                  | unfold is_uint32; simpl; lia ] |]);
  apply Forall_nil.

(** X5.  The reset of the clock-control peripheral leaves every register a
    32-bit value, and from a struct whose registers are 32-bit values every
    MMIO write and every interrupt-input call returns with such a struct and
    every MMIO read returns a 32-bit value. *)
Theorem rcc_registers_stay_32_bit (s : Rcc.STM32F4xxRccState) :
  rcc_wf s ->
  (forall addr val64 size,
      exists s' log,
        Rcc.stm32f4xx_rcc_write addr val64 size s = Returned (tt, s', log) /\
        rcc_wf s') /\
  (forall e level,
      exists s' log,
        Rcc.stm32f4xx_rcc_set_irq (Rcc.irq_number e) level s
        = Returned (tt, s', log) /\
        rcc_wf s') /\
  (forall addr size,
      exists r log,
        Rcc.stm32f4xx_rcc_read addr size s = Returned (r, s, log) /\
        is_uint32 r) /\
  (forall s0 : Rcc.STM32F4xxRccState,
      exists s',
        Rcc.stm32f4xx_rcc_reset s0 = Returned (tt, s', []) /\ rcc_wf s').
Proof.
  intros Hwf. repeat apply conj.
  - intros addr val64 size.
    destruct (rcc_offset_cases addr) as [Hnot | [u Hu]].
    + do 2 eexists.
      split; [apply (rcc_write_unmapped addr val64 size s Hnot) | exact Hwf].
    + do 2 eexists. split; [apply (rcc_write_at addr u Hu) |].
      split_wf Hwf.
      each_member Hu ltac:(fun H => injection H as <- <-; prove_wf).
  - intros e level. rewrite rcc_set_irq_run. do 2 eexists.
    split; [reflexivity |].
    destruct (negb (level =? 0) && irq_gate_open e (Rcc.rcc_cir s));
      [| exact Hwf].
    split_wf Hwf.
    assert (Hcir : is_uint32 (Z.lor (Rcc.rcc_cir s) (Rcc.irq_number e))).
    { apply is_uint32_lor; [assumption | apply is_uint32_irq_number]. }
    prove_wf.
  - intros addr size.
    destruct (rcc_read_cases addr size s) as [[_ Hr] | [f [Hf Hr]]];
      rewrite Hr; do 2 eexists; (split; [reflexivity |]).
    + unfold is_uint32. lia.
    + split_wf Hwf.
      each_member Hf ltac:(fun H => injection H as <- <-; assumption).
  - intros s0. rewrite rcc_reset_run. eexists. split; [reflexivity |].
    prove_wf.
Qed.

Lemma rcc_registers_stay_32_bit_witness :
  rcc_wf rcc_zero /\
  (exists s' log,
      Rcc.stm32f4xx_rcc_write Rcc.RCC_CR 0x1FFFFFFFF 4 rcc_zero
      = Returned (tt, s', log) /\
      rcc_wf s').
Proof.
  assert (Hwf : rcc_wf rcc_zero).
  { unfold rcc_wf, rcc_registers.
    repeat (apply Forall_cons; [unfold is_uint32; simpl; lia |]).
    apply Forall_nil. }
  split; [exact Hwf |].
  apply (proj1 (rcc_registers_stay_32_bit rcc_zero Hwf)).
Defined.

(** ** The derivation rules as projections onto the consistent values *)

Lemma bits_eq_uint32 (x y : Z) :
  is_uint32 x -> is_uint32 y ->
  (forall i, 0 <= i < 32 -> Z.testbit x i = Z.testbit y i) -> x = y.
Proof.
  intros Hx Hy Hlow. apply Z.bits_inj'. intros i Hi.
  destruct (Z.lt_ge_cases i 32) as [Hlt | Hge].
  - apply Hlow. lia.
  - rewrite !testbit_high by assumption. reflexivity.
Qed.

(** X6.  On 32-bit values, [handle_rcc_cr_write] returns its argument
    unchanged exactly when every ready bit already equals its enable bit,
    [handle_rcc_cfgr_write] exactly when bits 3:2 already equal bits 1:0,
    and applying either rule twice is the same as applying it once. *)
Theorem rcc_derivation_rules_fixed_points (v : Z) :
  is_uint32 v ->
  (Rcc.handle_rcc_cr_write v = v <-> cr_consistent v) /\
  (Rcc.handle_rcc_cfgr_write v = v <-> cfgr_consistent v) /\
  Rcc.handle_rcc_cr_write (Rcc.handle_rcc_cr_write v)
  = Rcc.handle_rcc_cr_write v /\
  Rcc.handle_rcc_cfgr_write (Rcc.handle_rcc_cfgr_write v)
  = Rcc.handle_rcc_cfgr_write v.
Proof.
  intros Hv.
  assert (Hcr : forall w, is_uint32 w -> cr_consistent w ->
                          Rcc.handle_rcc_cr_write w = w).
  { intros w Hw (H1 & H17 & H25 & H27).
    apply bits_eq_uint32;
      [apply handle_rcc_cr_write_range; assumption | assumption |].
    intros i Hi. rewrite handle_rcc_cr_write_bits by assumption.
    destruct (Z.eqb_spec i 27) as [-> | _]; [symmetry; assumption |].
    destruct (Z.eqb_spec i 25) as [-> | _]; [symmetry; assumption |].
    destruct (Z.eqb_spec i 17) as [-> | _]; [symmetry; assumption |].
    destruct (Z.eqb_spec i 1) as [-> | _]; [symmetry; assumption |].
    reflexivity. }
  assert (Hcfgr : forall w, is_uint32 w -> cfgr_consistent w ->
                            Rcc.handle_rcc_cfgr_write w = w).
  { intros w Hw (H2 & H3).
    apply bits_eq_uint32;
      [apply handle_rcc_cfgr_write_range; assumption | assumption |].
    intros i Hi. rewrite handle_rcc_cfgr_write_bits by assumption.
    destruct (Z.eqb_spec i 2) as [-> | _]; [symmetry; assumption |].
    destruct (Z.eqb_spec i 3) as [-> | _]; [symmetry; assumption |].
    reflexivity. }
  split; [| split; [| split]].
  - split; [| apply Hcr; assumption].
    intros Heq. rewrite <- Heq. apply cr_consistent_handle.
  - split; [| apply Hcfgr; assumption].
    intros Heq. rewrite <- Heq. apply cfgr_consistent_handle.
  - apply Hcr; [apply handle_rcc_cr_write_range; assumption |].
    apply cr_consistent_handle.
  - apply Hcfgr; [apply handle_rcc_cfgr_write_range; assumption |].
    apply cfgr_consistent_handle.
Qed.

Lemma rcc_derivation_rules_fixed_points_witness :
  is_uint32 0x0000FF83 /\
  (Rcc.handle_rcc_cr_write 0x0000FF83 = 0x0000FF83
   <-> cr_consistent 0x0000FF83).
Proof.
  assert (Hv : is_uint32 0x0000FF83) by (unfold is_uint32; lia).
  split; [exact Hv |].
  apply (proj1 (rcc_derivation_rules_fixed_points 0x0000FF83 Hv)).
Defined.

(** X7.  A write of a 32-bit value [v] to RCC_CR followed by a read of
    RCC_CR returns a 32-bit value all of whose bits other than the four
    ready bits 1, 17, 25 and 27 are those of [v]. *)
Theorem rcc_cr_write_keeps_other_bits
    (s : Rcc.STM32F4xxRccState) (v size size' : Z) :
  is_uint32 v ->
  exists s' wlog rlog r,
    Rcc.stm32f4xx_rcc_write Rcc.RCC_CR v size s = Returned (tt, s', wlog) /\
    Rcc.stm32f4xx_rcc_read Rcc.RCC_CR size' s' = Returned (r, s', rlog) /\
    is_uint32 r /\
    (forall i, i <> 1 -> i <> 17 -> i <> 25 -> i <> 27 ->
               Z.testbit r i = Z.testbit v i).
Proof.
  intros Hv. do 4 eexists.
  split; [apply rcc_write_cr_run |].
  split; [apply rcc_read_cr_run |].
  rewrite rcc_cr_updated, (uint32_t_small v Hv).
  split; [apply handle_rcc_cr_write_range; assumption |].
  intros i H1 H17 H25 H27.
  destruct (Z.lt_ge_cases i 0) as [Hneg | Hpos].
  { rewrite !Z.testbit_neg_r by assumption. reflexivity. }
  destruct (Z.lt_ge_cases i 32) as [Hlow | Hhigh].
  - rewrite handle_rcc_cr_write_bits by lia.
    destruct (Z.eqb_spec i 27); [contradiction |].
    destruct (Z.eqb_spec i 25); [contradiction |].
    destruct (Z.eqb_spec i 17); [contradiction |].
    destruct (Z.eqb_spec i 1); [contradiction |]. reflexivity.
  - rewrite !testbit_high; auto using handle_rcc_cr_write_range.
Qed.

Lemma rcc_cr_write_keeps_other_bits_witness :
  is_uint32 0x01000001 /\
  exists s' wlog rlog r,
    Rcc.stm32f4xx_rcc_write Rcc.RCC_CR 0x01000001 4 rcc_zero
    = Returned (tt, s', wlog) /\
    Rcc.stm32f4xx_rcc_read Rcc.RCC_CR 4 s' = Returned (r, s', rlog) /\
    is_uint32 r /\
    (forall i, i <> 1 -> i <> 17 -> i <> 25 -> i <> 27 ->
               Z.testbit r i = Z.testbit 0x01000001 i).
Proof.
  assert (Hv : is_uint32 0x01000001) by (unfold is_uint32; lia).
  split; [exact Hv |].
  apply (rcc_cr_write_keeps_other_bits rcc_zero 0x01000001 4 4 Hv).
Defined.

(** ** What the interrupt-input handler does to [rcc_cir] *)

Lemma shiftr_irq_number (e : Rcc.RccIrqEvents) :
  Z.shiftr (Rcc.irq_number e) 3 = 0.
Proof. destruct e; reflexivity. Qed.

Lemma irq_gate_open_lor (e e' : Rcc.RccIrqEvents) (cir : Z) :
  irq_gate_open e' (Z.lor cir (Rcc.irq_number e)) = irq_gate_open e' cir.
Proof.
  destruct e'; try reflexivity; unfold irq_gate_open;
    rewrite Z.lor_spec; destruct e; apply orb_false_r.
Qed.

Lemma land_lor_absorb (x y : Z) : Z.land (Z.lor x y) x = x.
Proof.
  apply Z.bits_inj'. intros i _. rewrite Z.land_spec, Z.lor_spec.
  destruct (Z.testbit x i), (Z.testbit y i); reflexivity.
Qed.

(** X8.  A call of the interrupt-input handler on one of the seven lines
    changes nothing but [rcc_cir]; in [rcc_cir] it clears no bit and leaves
    all bits from bit 3 up as they were, so the enable bits 7 to 12 and with
    them the gate of every event are unchanged. *)
Theorem rcc_set_irq_cir_bits (e : Rcc.RccIrqEvents) (level : Z)
    (s : Rcc.STM32F4xxRccState) :
  exists s' log,
    Rcc.stm32f4xx_rcc_set_irq (Rcc.irq_number e) level s
    = Returned (tt, s', log) /\
    s' = set_rcc_cir (Rcc.rcc_cir s') s /\
    Z.land (Rcc.rcc_cir s') (Rcc.rcc_cir s) = Rcc.rcc_cir s /\
    Z.shiftr (Rcc.rcc_cir s') 3 = Z.shiftr (Rcc.rcc_cir s) 3 /\
    (forall e', irq_gate_open e' (Rcc.rcc_cir s')
                = irq_gate_open e' (Rcc.rcc_cir s)).
Proof.
  rewrite rcc_set_irq_run. do 2 eexists. split; [reflexivity |].
  destruct (negb (level =? 0) && irq_gate_open e (Rcc.rcc_cir s)).
  - change (Rcc.rcc_cir (s <| Rcc.rcc_cir :=
                               Z.lor (Rcc.rcc_cir s) (Rcc.irq_number e) |>))
      with (Z.lor (Rcc.rcc_cir s) (Rcc.irq_number e)).
    split; [reflexivity |]. split; [| split].
    + apply land_lor_absorb.
    + rewrite Z.shiftr_lor, shiftr_irq_number. apply Z.lor_0_r.
    + intros e'. apply irq_gate_open_lor.
  - split; [destruct s; reflexivity |]. split; [apply Z.land_diag |].
    split; reflexivity.
Qed.

(** X9.  Repeating a call of the interrupt-input handler, with the same line
    and level, leaves the struct as the first call left it. *)
Theorem rcc_set_irq_idempotent (e : Rcc.RccIrqEvents) (level : Z)
    (s : Rcc.STM32F4xxRccState) :
  exists s' log,
    Rcc.stm32f4xx_rcc_set_irq (Rcc.irq_number e) level s
    = Returned (tt, s', log) /\
    Rcc.stm32f4xx_rcc_set_irq (Rcc.irq_number e) level s'
    = Returned (tt, s', log).
Proof.
  rewrite rcc_set_irq_run. do 2 eexists. split; [reflexivity |].
  rewrite rcc_set_irq_run.
  destruct (negb (level =? 0)); cbn [andb]; [| reflexivity].
  destruct (irq_gate_open e (Rcc.rcc_cir s)) eqn:Hgate.
  - change (Rcc.rcc_cir (s <| Rcc.rcc_cir :=
                               Z.lor (Rcc.rcc_cir s) (Rcc.irq_number e) |>))
      with (Z.lor (Rcc.rcc_cir s) (Rcc.irq_number e)).
    rewrite irq_gate_open_lor, Hgate.
    rewrite <- Z.lor_assoc, Z.lor_diag. reflexivity.
  - rewrite Hgate. reflexivity.
Qed.

(** ** Reset of the clock-control peripheral *)

(** X12.  After a reset of the clock-control peripheral nothing of the
    registers' earlier contents can be read: from any two structs, a read at
    any offset after the reset returns the same value and makes the same
    calls.  The reset itself makes no call, and keeps the reserved words of
    the struct. *)
Theorem rcc_reset_erases_registers
    (s1 s2 : Rcc.STM32F4xxRccState) (addr size : Z) :
  exists s1' s2' r log,
    Rcc.stm32f4xx_rcc_reset s1 = Returned (tt, s1', []) /\
    Rcc.stm32f4xx_rcc_reset s2 = Returned (tt, s2', []) /\
    Rcc.stm32f4xx_rcc_read addr size s1' = Returned (r, s1', log) /\
    Rcc.stm32f4xx_rcc_read addr size s2' = Returned (r, s2', log) /\
    [ Rcc.rcc_reserved0 s1'; Rcc.rcc_reserved1 s1'; Rcc.rcc_reserved2 s1';
      Rcc.rcc_reserved3 s1'; Rcc.rcc_reserved4 s1'; Rcc.rcc_reserved5 s1';
      Rcc.rcc_reserved6 s1'; Rcc.rcc_reserved7 s1' ]
    = [ Rcc.rcc_reserved0 s1; Rcc.rcc_reserved1 s1; Rcc.rcc_reserved2 s1;
        Rcc.rcc_reserved3 s1; Rcc.rcc_reserved4 s1; Rcc.rcc_reserved5 s1;
        Rcc.rcc_reserved6 s1; Rcc.rcc_reserved7 s1 ].
Proof.
  rewrite !rcc_reset_run.
  destruct (rcc_read_cases addr size s1) as [[Hnot _] | [f [Hf _]]].
  - do 4 eexists. split; [reflexivity |]. split; [reflexivity |].
    split; [apply (rcc_read_unmapped addr size _ Hnot) |].
    split; [apply (rcc_read_unmapped addr size _ Hnot) | reflexivity].
  - pose proof (rcc_read_at addr f Hf size) as Hread.
    each_member Hf
      ltac:(fun H => injection H as <- <-; do 4 eexists;
                     split; [reflexivity |]; split; [reflexivity |];
                     split; [rewrite Hread; reflexivity |];
                     split; [rewrite Hread; reflexivity |];
                     reflexivity).
Qed.

(** ** The two switches of the flash interface, case by case *)

Lemma flash_read_cases (addr size : Z) (s : Flash.STM32F4xxFlashState) :
  (~ In addr Flash.register_offsets /\
   Flash.stm32f4xx_flash_read addr size s
   = Returned (0, s, [ trace_point "stm32f4xx_flash_read" [addr];
                       qemu_log_mask LOG_GUEST_ERROR
                         "STM32F4XX_flash_read: Bad offset %x\n" (int addr) ])) \/
  (exists field,
      In (addr, field) flash_read_field /\
      Flash.stm32f4xx_flash_read addr size s
      = Returned (field s, s, [ trace_point "stm32f4xx_flash_read" [addr] ])).
Proof.
  unfold Flash.stm32f4xx_flash_read. unfold bind at 1 2, emit at 1, get.
  split_switch Hnot body Hin.
  - left. split; [exact Hnot | reflexivity].
  - right. each_member Hin
      ltac:(fun H => injection H as <- <-; eexists;
                     split; [| reflexivity]; unfold flash_read_field;
                     auto 10 using in_eq, in_cons).
Qed.

Lemma flash_write_cases (addr val64 size : Z) (s : Flash.STM32F4xxFlashState) :
  (~ In addr Flash.register_offsets /\
   Flash.stm32f4xx_flash_write addr val64 size s
   = Returned (tt, s,
               [ trace_point "stm32f4xx_flash_write" [addr; uint32_t val64];
                 qemu_log_mask LOG_GUEST_ERROR
                   "STM32F4XX_flash_write: Bad offset %x\n" (int addr) ])) \/
  (exists update,
      In (addr, update) flash_write_update /\
      Flash.stm32f4xx_flash_write addr val64 size s
      = Returned (tt, update (uint32_t val64) s,
                  [ trace_point "stm32f4xx_flash_write"
                      [addr; uint32_t val64] ])).
Proof.
  unfold Flash.stm32f4xx_flash_write. cbv zeta. unfold bind at 1, emit at 1.
  split_switch Hnot body Hin.
  - left. split; [exact Hnot | reflexivity].
  - right. each_member Hin
      ltac:(fun H => injection H as <- <-; eexists;
                     split; [unfold flash_write_update;
                             auto 10 using in_eq, in_cons | reflexivity]).
Qed.

Lemma flash_read_field_functional
    (b : Z) (f f' : Flash.STM32F4xxFlashState -> Z) :
  In (b, f) flash_read_field -> In (b, f') flash_read_field -> f = f'.
Proof.
  intros Hf Hf'.
  each_member Hf
    ltac:(fun H =>
            injection H as <- <-;
            each_member Hf'
              ltac:(fun H' =>
                      first [ discriminate H'
                            | injection H' as <-; reflexivity ])).
Qed.

Lemma flash_write_update_functional
    (a : Z) (u u' : Z -> Flash.STM32F4xxFlashState -> Flash.STM32F4xxFlashState) :
  In (a, u) flash_write_update -> In (a, u') flash_write_update -> u = u'.
Proof.
  intros Hu Hu'.
  each_member Hu
    ltac:(fun H =>
            injection H as <- <-;
            each_member Hu'
              ltac:(fun H' =>
                      first [ discriminate H'
                            | injection H' as <-; reflexivity ])).
Qed.

Lemma flash_read_at (b : Z) (f : Flash.STM32F4xxFlashState -> Z) :
  In (b, f) flash_read_field ->
  forall size s,
    Flash.stm32f4xx_flash_read b size s
    = Returned (f s, s, [ trace_point "stm32f4xx_flash_read" [b] ]).
Proof.
  intros Hf size s.
  destruct (flash_read_cases b size s) as [[Hnot _] | [f' [Hf' Hr]]].
  - exfalso. apply Hnot. apply (in_map fst) in Hf. exact Hf.
  - rewrite (flash_read_field_functional b f f' Hf Hf'). exact Hr.
Qed.

Lemma flash_read_unmapped (b size : Z) (s : Flash.STM32F4xxFlashState) :
  ~ In b Flash.register_offsets ->
  Flash.stm32f4xx_flash_read b size s
  = Returned (0, s, [ trace_point "stm32f4xx_flash_read" [b];
                      qemu_log_mask LOG_GUEST_ERROR
                        "STM32F4XX_flash_read: Bad offset %x\n" (int b) ]).
Proof.
  intros Hnot.
  destruct (flash_read_cases b size s) as [[_ Hr] | [f [Hf _]]].
  - exact Hr.
  - exfalso. apply Hnot. apply (in_map fst) in Hf. exact Hf.
Qed.

Lemma flash_write_at
    (a : Z) (u : Z -> Flash.STM32F4xxFlashState -> Flash.STM32F4xxFlashState) :
  In (a, u) flash_write_update ->
  forall val64 size s,
    Flash.stm32f4xx_flash_write a val64 size s
    = Returned (tt, u (uint32_t val64) s,
                [ trace_point "stm32f4xx_flash_write" [a; uint32_t val64] ]).
Proof.
  intros Hu val64 size s.
  destruct (flash_write_cases a val64 size s) as [[Hnot _] | [u' [Hu' Hw]]].
  - exfalso. apply Hnot. apply (in_map fst) in Hu. exact Hu.
  - rewrite (flash_write_update_functional a u u' Hu Hu'). exact Hw.
Qed.

Lemma flash_write_unmapped (a val64 size : Z) (s : Flash.STM32F4xxFlashState) :
  ~ In a Flash.register_offsets ->
  Flash.stm32f4xx_flash_write a val64 size s
  = Returned (tt, s,
              [ trace_point "stm32f4xx_flash_write" [a; uint32_t val64];
                qemu_log_mask LOG_GUEST_ERROR
                  "STM32F4XX_flash_write: Bad offset %x\n" (int a) ]).
Proof.
  intros Hnot.
  destruct (flash_write_cases a val64 size s) as [[_ Hw] | [u [Hu _]]].
  - exact Hw.
  - exfalso. apply Hnot. apply (in_map fst) in Hu. exact Hu.
Qed.

Lemma flash_offset_cases (a : Z) :
  ~ In a Flash.register_offsets \/ exists u, In (a, u) flash_write_update.
Proof.
  destruct (flash_write_cases a 0 0 flash_zero) as [[Hnot _] | [u [Hu _]]];
    [left; assumption | right; exists u; assumption].
Qed.

Lemma flash_read_field_total (b : Z) :
  In b Flash.register_offsets -> exists f, In (b, f) flash_read_field.
Proof.
  intros Hin.
  destruct (flash_read_cases b 0 flash_zero) as [[Hnot _] | [f [Hf _]]];
    [contradiction | exists f; assumption].
Qed.

Lemma flash_field_frame
    (a b : Z) (u : Z -> Flash.STM32F4xxFlashState -> Flash.STM32F4xxFlashState)
    (f : Flash.STM32F4xxFlashState -> Z) :
  In (a, u) flash_write_update -> In (b, f) flash_read_field ->
  a <> b -> ~ (a = Flash.FLASH_SR /\ b = Flash.FLASH_CR) ->
  forall v s, f (u v s) = f s.
Proof.
  intros Hu Hf Hne Halias v s.
  each_member Hu
    ltac:(fun H =>
            injection H as <- <-;
            each_member Hf
              ltac:(fun H' =>
                      injection H' as <- <-;
                      first [ exfalso; apply Hne; reflexivity
                            | exfalso; apply Halias; split; reflexivity
                            | reflexivity ])).
Qed.

Lemma flash_field_stored
    (a : Z) (u : Z -> Flash.STM32F4xxFlashState -> Flash.STM32F4xxFlashState)
    (f : Flash.STM32F4xxFlashState -> Z) :
  In (a, u) flash_write_update -> In (a, f) flash_read_field ->
  a <> Flash.FLASH_CR ->
  forall v s, f (u v s) = v.
Proof.
  intros Hu Hf Hcr v s.
  each_member Hu
    ltac:(fun H =>
            injection H as <- <-;
            first [ exfalso; apply Hcr; reflexivity
                  | each_member Hf
                      ltac:(fun H' =>
                              first [ discriminate H'
                                    | injection H' as <-; reflexivity ]) ]).
Qed.

Lemma flash_update_commute
    (a b : Z)
    (ua ub : Z -> Flash.STM32F4xxFlashState -> Flash.STM32F4xxFlashState) :
  In (a, ua) flash_write_update -> In (b, ub) flash_write_update -> a <> b ->
  forall va vb s, ub vb (ua va s) = ua va (ub vb s).
Proof.
  intros Hua Hub Hne va vb s.
  each_member Hua
    ltac:(fun H =>
            injection H as <- <-;
            each_member Hub
              ltac:(fun H' =>
                      injection H' as <- <-;
                      first [ exfalso; apply Hne; reflexivity
                            | reflexivity ])).
Qed.

Lemma flash_update_override
    (a : Z) (ua : Z -> Flash.STM32F4xxFlashState -> Flash.STM32F4xxFlashState) :
  In (a, ua) flash_write_update ->
  forall va vb s, ua vb (ua va s) = ua vb s.
Proof.
  intros Hua va vb s.
  each_member Hua ltac:(fun H => injection H as <- <-; reflexivity).
Qed.

(** ** Round trips and independence of the flash-interface registers *)

(** X14.  An MMIO read or write of the flash interface, at any offset: both
    return, the read leaves the struct as it was, neither drives the
    interrupt output line, and each makes a [qemu_log_mask] call exactly
    when the offset is not a register offset. *)
Theorem flash_access_diagnostic_iff_unmapped
    (addr size val64 : Z) (s : Flash.STM32F4xxFlashState) :
  exists r rlog s' wlog,
    Flash.stm32f4xx_flash_read addr size s = Returned (r, s, rlog) /\
    Flash.stm32f4xx_flash_write addr val64 size s = Returned (tt, s', wlog) /\
    diagnostics rlog
    = (if is_register Flash.register_offsets addr then 0 else 1)%nat /\
    diagnostics wlog
    = (if is_register Flash.register_offsets addr then 0 else 1)%nat /\
    irq_levels rlog = [] /\ irq_levels wlog = [].
Proof.
  destruct (flash_offset_cases addr) as [Hnot | [u Hu]].
  - rewrite (is_register_false Flash.register_offsets addr Hnot).
    do 4 eexists.
    split; [apply (flash_read_unmapped addr size s Hnot) |].
    split; [apply (flash_write_unmapped addr val64 size s Hnot) |].
    repeat split; reflexivity.
  - assert (Hin : In addr Flash.register_offsets).
    { apply (in_map fst) in Hu. exact Hu. }
    destruct (flash_read_field_total addr Hin) as [f Hf].
    rewrite (is_register_true Flash.register_offsets addr Hin).
    do 4 eexists.
    split; [apply (flash_read_at addr f Hf) |].
    split; [apply (flash_write_at addr u Hu) |].
    repeat split; reflexivity.
Qed.

(** X15.  Writing to any register offset of the flash interface other than
    FLASH_CR and reading the same offset back returns the value written,
    truncated to 32 bits. *)
Theorem flash_write_then_read
    (addr val64 size size' : Z) (s : Flash.STM32F4xxFlashState) :
  In addr Flash.register_offsets ->
  addr <> Flash.FLASH_CR ->
  exists s' wlog rlog,
    Flash.stm32f4xx_flash_write addr val64 size s = Returned (tt, s', wlog) /\
    Flash.stm32f4xx_flash_read addr size' s'
    = Returned (uint32_t val64, s', rlog).
Proof.
  intros Hin Hcr.
  destruct (flash_offset_cases addr) as [Hnot | [u Hu]]; [contradiction |].
  destruct (flash_read_field_total addr Hin) as [f Hf].
  do 3 eexists. split; [apply (flash_write_at addr u Hu) |].
  rewrite (flash_read_at addr f Hf).
  rewrite (flash_field_stored addr u f Hu Hf Hcr). reflexivity.
Qed.

Lemma flash_write_then_read_witness :
  In Flash.FLASH_OPTCR Flash.register_offsets /\
  Flash.FLASH_OPTCR <> Flash.FLASH_CR /\
  exists s' wlog rlog,
    Flash.stm32f4xx_flash_write Flash.FLASH_OPTCR 0x1FFFFFFFF 4 flash_zero
    = Returned (tt, s', wlog) /\
    Flash.stm32f4xx_flash_read Flash.FLASH_OPTCR 4 s'
    = Returned (uint32_t 0x1FFFFFFFF, s', rlog).
Proof.
  assert (Hin : In Flash.FLASH_OPTCR Flash.register_offsets).
  { unfold Flash.register_offsets. do 5 right. left. reflexivity. }
  assert (Hcr : Flash.FLASH_OPTCR <> Flash.FLASH_CR) by discriminate.
  repeat (split; [assumption |]).
  apply (flash_write_then_read Flash.FLASH_OPTCR 0x1FFFFFFFF 4 4 flash_zero
           Hin Hcr).
Defined.

(** X16.  A write at one offset of the flash interface does not change what
    a read at another offset returns and logs, the pair (write at FLASH_SR,
    read at FLASH_CR) excepted. *)
Theorem flash_write_frame
    (a b val64 size size' : Z) (s : Flash.STM32F4xxFlashState) :
  a <> b -> ~ (a = Flash.FLASH_SR /\ b = Flash.FLASH_CR) ->
  exists s' wlog r rlog,
    Flash.stm32f4xx_flash_write a val64 size s = Returned (tt, s', wlog) /\
    Flash.stm32f4xx_flash_read b size' s' = Returned (r, s', rlog) /\
    Flash.stm32f4xx_flash_read b size' s = Returned (r, s, rlog).
Proof.
  intros Hne Halias.
  destruct (flash_offset_cases a) as [Hnota | [u Hu]].
  - destruct (flash_read_cases b size' s) as [[_ Hr] | [f [_ Hr]]];
      do 4 eexists;
      (split; [apply (flash_write_unmapped a val64 size s Hnota) |]);
      split; exact Hr.
  - destruct (flash_read_cases b size' s) as [[Hnotb _] | [f [Hf _]]];
      do 4 eexists; (split; [apply (flash_write_at a u Hu) |]).
    + split; apply (flash_read_unmapped b size' _ Hnotb).
    + rewrite !(flash_read_at b f Hf).
      rewrite (flash_field_frame a b u f Hu Hf Hne Halias).
      split; reflexivity.
Qed.

Lemma flash_write_frame_witness :
  Flash.FLASH_CR <> Flash.FLASH_SR /\
  ~ (Flash.FLASH_CR = Flash.FLASH_SR /\ Flash.FLASH_SR = Flash.FLASH_CR) /\
  exists s' wlog r rlog,
    Flash.stm32f4xx_flash_write Flash.FLASH_CR 0xFFFFFFFF 4 flash_zero
    = Returned (tt, s', wlog) /\
    Flash.stm32f4xx_flash_read Flash.FLASH_SR 4 s' = Returned (r, s', rlog) /\
    Flash.stm32f4xx_flash_read Flash.FLASH_SR 4 flash_zero
    = Returned (r, flash_zero, rlog).
Proof.
  assert (Hne : Flash.FLASH_CR <> Flash.FLASH_SR) by discriminate.
  assert (Halias : ~ (Flash.FLASH_CR = Flash.FLASH_SR
                      /\ Flash.FLASH_SR = Flash.FLASH_CR)).
  { intros [H _]. discriminate H. }
  repeat (split; [assumption |]).
  apply (flash_write_frame Flash.FLASH_CR Flash.FLASH_SR 0xFFFFFFFF 4 4
           flash_zero Hne Halias).
Defined.

(** X17.  Two writes to the flash interface: a second write to the same
    offset makes the first one unobservable in the struct, and writes to two
    different offsets give the same struct in either order. *)
Theorem flash_write_write
    (a b va vb size : Z) (s : Flash.STM32F4xxFlashState) :
  (exists s1 s2 l1 l2,
      Flash.stm32f4xx_flash_write a va size s = Returned (tt, s1, l1) /\
      Flash.stm32f4xx_flash_write a vb size s1 = Returned (tt, s2, l2) /\
      Flash.stm32f4xx_flash_write a vb size s = Returned (tt, s2, l2)) /\
  (a <> b ->
   exists sa sb sab la lb,
     Flash.stm32f4xx_flash_write a va size s = Returned (tt, sa, la) /\
     Flash.stm32f4xx_flash_write b vb size sa = Returned (tt, sab, lb) /\
     Flash.stm32f4xx_flash_write b vb size s = Returned (tt, sb, lb) /\
     Flash.stm32f4xx_flash_write a va size sb = Returned (tt, sab, la)).
Proof.
  split.
  - destruct (flash_offset_cases a) as [Hnot | [u Hu]]; do 4 eexists.
    + split; [apply (flash_write_unmapped a va size s Hnot) |].
      split; apply (flash_write_unmapped a vb size s Hnot).
    + split; [apply (flash_write_at a u Hu) |].
      split; [apply (flash_write_at a u Hu) |].
      rewrite (flash_update_override a u Hu). apply (flash_write_at a u Hu).
  - intros Hne.
    destruct (flash_offset_cases a) as [Hnota | [ua Hua]];
      destruct (flash_offset_cases b) as [Hnotb | [ub Hub]]; do 5 eexists.
    + split; [apply (flash_write_unmapped a va size s Hnota) |].
      split; [apply (flash_write_unmapped b vb size s Hnotb) |].
      split; [apply (flash_write_unmapped b vb size s Hnotb) |].
      apply (flash_write_unmapped a va size s Hnota).
    + split; [apply (flash_write_unmapped a va size s Hnota) |].
      split; [apply (flash_write_at b ub Hub) |].
      split; [apply (flash_write_at b ub Hub) |].
      apply (flash_write_unmapped a va size _ Hnota).
    + split; [apply (flash_write_at a ua Hua) |].
      split; [apply (flash_write_unmapped b vb size _ Hnotb) |].
      split; [apply (flash_write_unmapped b vb size s Hnotb) |].
      apply (flash_write_at a ua Hua).
    + split; [apply (flash_write_at a ua Hua) |].
      split; [apply (flash_write_at b ub Hub) |].
      split; [apply (flash_write_at b ub Hub) |].
      rewrite (flash_update_commute a b ua ub Hua Hub Hne).
      apply (flash_write_at a ua Hua).
Qed.

Lemma flash_write_write_witness :
  Flash.FLASH_SR <> Flash.FLASH_CR /\
  exists sa sb sab la lb,
    Flash.stm32f4xx_flash_write Flash.FLASH_SR 1 4 flash_zero
    = Returned (tt, sa, la) /\
    Flash.stm32f4xx_flash_write Flash.FLASH_CR 2 4 sa
    = Returned (tt, sab, lb) /\
    Flash.stm32f4xx_flash_write Flash.FLASH_CR 2 4 flash_zero
    = Returned (tt, sb, lb) /\
    Flash.stm32f4xx_flash_write Flash.FLASH_SR 1 4 sb
    = Returned (tt, sab, la).
Proof.
  assert (Hne : Flash.FLASH_SR <> Flash.FLASH_CR) by discriminate.
  split; [exact Hne |].
  exact (proj2 (flash_write_write Flash.FLASH_SR Flash.FLASH_CR 1 2 4
                  flash_zero) Hne).
Defined.

(** X18.  The reset of the flash interface leaves every register a 32-bit
    value, and from a struct whose registers are 32-bit values every MMIO
    write and every interrupt-input call returns with such a struct and
    every MMIO read returns a 32-bit value. *)
Theorem flash_registers_stay_32_bit (s : Flash.STM32F4xxFlashState) :
  flash_wf s ->
  (forall addr val64 size,
      exists s' log,
        Flash.stm32f4xx_flash_write addr val64 size s
        = Returned (tt, s', log) /\
        flash_wf s') /\
  (forall irq level,
      exists log,
        Flash.stm32f4xx_flash_set_irq irq level s = Returned (tt, s, log)) /\
  (forall addr size,
      exists r log,
        Flash.stm32f4xx_flash_read addr size s = Returned (r, s, log) /\
        is_uint32 r) /\
  (forall s0 : Flash.STM32F4xxFlashState,
      exists s',
        Flash.stm32f4xx_flash_reset s0 = Returned (tt, s', []) /\
        flash_wf s').
Proof.
  intros Hwf. repeat apply conj.
  - intros addr val64 size.
    destruct (flash_offset_cases addr) as [Hnot | [u Hu]].
    + do 2 eexists.
      split; [apply (flash_write_unmapped addr val64 size s Hnot) | exact Hwf].
    + do 2 eexists. split; [apply (flash_write_at addr u Hu) |].
      split_wf Hwf.
      each_member Hu ltac:(fun H => injection H as <- <-; prove_wf).
  - intros irq level. eexists. reflexivity.
  - intros addr size.
    destruct (flash_read_cases addr size s) as [[_ Hr] | [f [Hf Hr]]];
      rewrite Hr; do 2 eexists; (split; [reflexivity |]).
    + unfold is_uint32. lia.
    + split_wf Hwf.
      each_member Hf ltac:(fun H => injection H as <- <-; assumption).
  - intros s0. rewrite flash_reset_run. eexists. split; [reflexivity |].
    prove_wf.
Qed.

Lemma flash_registers_stay_32_bit_witness :
  flash_wf flash_zero /\
  (exists s' log,
      Flash.stm32f4xx_flash_write Flash.FLASH_KEYR 0x1FFFFFFFF 4 flash_zero
      = Returned (tt, s', log) /\
      flash_wf s').
Proof.
  assert (Hwf : flash_wf flash_zero).
  { unfold flash_wf, flash_registers.
    repeat (apply Forall_cons; [unfold is_uint32; simpl; lia |]).
    apply Forall_nil. }
  split; [exact Hwf |].
  apply (proj1 (flash_registers_stay_32_bit flash_zero Hwf)).
Defined.

(** X19.  After a reset of the flash interface nothing of the registers'
    earlier contents can be read: from any two structs, a read at any offset
    after the reset returns the same value and makes the same calls; the
    reset itself makes no call. *)
Theorem flash_reset_erases_registers
    (s1 s2 : Flash.STM32F4xxFlashState) (addr size : Z) :
  exists s' r log,
    Flash.stm32f4xx_flash_reset s1 = Returned (tt, s', []) /\
    Flash.stm32f4xx_flash_reset s2 = Returned (tt, s', []) /\
    Flash.stm32f4xx_flash_read addr size s' = Returned (r, s', log).
Proof.
  rewrite !flash_reset_run.
  destruct (flash_read_cases addr size
              (Flash.Build_FlashState 0 0 0 0 0x80000000 0x0FFFAAED
                 0x0FFF0000)) as [[_ Hr] | [f [_ Hr]]];
    do 3 eexists; (split; [reflexivity |]); (split; [reflexivity |]);
    exact Hr.
Qed.

(** ** [set_or_clear_if] on any mask *)

(** X20.  Bit by bit, for the 32 bits of a [uint32_t]: [set_or_clear_if]
    leaves the bits outside the mask as they are in [value] and makes every
    bit of the mask 1 when the condition is nonzero and 0 when it is zero;
    on 32-bit arguments the result is a 32-bit value.  The flash file's copy
    of the function behaves the same. *)
Theorem set_or_clear_if_bits (value mask condition i : Z) :
  0 <= i < 32 ->
  Z.testbit (Rcc.set_or_clear_if value mask condition) i
  = (if Z.testbit mask i then negb (condition =? 0) else Z.testbit value i) /\
  Z.testbit (Flash.set_or_clear_if value mask condition) i
  = (if Z.testbit mask i then negb (condition =? 0) else Z.testbit value i) /\
  (is_uint32 value -> is_uint32 mask ->
   is_uint32 (Rcc.set_or_clear_if value mask condition) /\
   is_uint32 (Flash.set_or_clear_if value mask condition)).
Proof.
  intros Hi.
  assert (Hbits :
    Z.testbit (Rcc.set_or_clear_if value mask condition) i
    = (if Z.testbit mask i then negb (condition =? 0) else Z.testbit value i)).
  { unfold Rcc.set_or_clear_if. destruct (condition =? 0); cbn [negb].
    - rewrite Z.land_spec, testbit_not32 by lia.
      destruct (Z.ltb_spec i 32); [| lia].
      destruct (Z.testbit mask i); cbn [negb andb];
        [apply andb_false_r | apply andb_true_r].
    - rewrite Z.lor_spec.
      destruct (Z.testbit mask i); [apply orb_true_r | apply orb_false_r]. }
  split; [exact Hbits |]. split; [exact Hbits |].
  intros Hv Hm. split; apply set_or_clear_if_range; assumption.
Qed.

Lemma set_or_clear_if_bits_witness :
  0 <= 17 < 32 /\
  Z.testbit (Rcc.set_or_clear_if 0x00010000 0x00020000 0x00010000) 17
  = (if Z.testbit 0x00020000 17 then negb (0x00010000 =? 0)
     else Z.testbit 0x00010000 17).
Proof.
  assert (Hi : 0 <= 17 < 32) by lia.
  split; [exact Hi |].
  apply (proj1 (set_or_clear_if_bits 0x00010000 0x00020000 0x00010000 17 Hi)).
Defined.

(** ** Concrete instances of the conditional properties above *)


(** The HSE-ready event on an all-zero [rcc_cir], whose gate is closed. *)
Lemma rcc_set_irq_gate_closed_witness :
  (1 = 0 \/ irq_gate_open Rcc.RCC_IRQ_HSE_READY (Rcc.rcc_cir rcc_zero) = false) /\
  exists log,
    Rcc.stm32f4xx_rcc_set_irq (Rcc.irq_number Rcc.RCC_IRQ_HSE_READY) 1 rcc_zero
    = Returned (tt, rcc_zero, log).
Proof.
  assert (Hclosed : 1 = 0 \/ irq_gate_open Rcc.RCC_IRQ_HSE_READY
                               (Rcc.rcc_cir rcc_zero) = false).
  { right. reflexivity. }
  split; [exact Hclosed |].
  apply (rcc_set_irq_gate_closed Rcc.RCC_IRQ_HSE_READY 1 rcc_zero Hclosed).
Defined.

(** The low-power enable register of AHB1 after a reset. *)
Lemma rcc_reset_then_read_witness :
  In (Rcc.RCC_AHB1LPENR, 0x0061900F) Rcc.reset_values /\
  exists s' log,
    Rcc.stm32f4xx_rcc_reset rcc_zero = Returned (tt, s', []) /\
    Rcc.stm32f4xx_rcc_read Rcc.RCC_AHB1LPENR 4 s'
    = Returned (0x0061900F, s', log).
Proof.
  assert (Hin : In (Rcc.RCC_AHB1LPENR, 0x0061900F) Rcc.reset_values).
  { unfold Rcc.reset_values. do 12 right. left. reflexivity. }
  split; [exact Hin |].
  apply (rcc_reset_then_read rcc_zero Rcc.RCC_AHB1LPENR 0x0061900F 4 Hin).
Defined.

(** The option control register after a reset. *)
Lemma flash_reset_then_read_witness :
  In (Flash.FLASH_OPTCR, 0x0FFFAAED) Flash.reset_values /\
  Flash.FLASH_OPTCR <> Flash.FLASH_CR /\
  exists s' log,
    Flash.stm32f4xx_flash_reset flash_zero = Returned (tt, s', []) /\
    Flash.stm32f4xx_flash_read Flash.FLASH_OPTCR 4 s'
    = Returned (0x0FFFAAED, s', log).
Proof.
  assert (Hin : In (Flash.FLASH_OPTCR, 0x0FFFAAED) Flash.reset_values).
  { unfold Flash.reset_values. do 5 right. left. reflexivity. }
  assert (Hne : Flash.FLASH_OPTCR <> Flash.FLASH_CR) by discriminate.
  split; [exact Hin |]. split; [exact Hne |].
  apply (flash_reset_then_read flash_zero Flash.FLASH_OPTCR 0x0FFFAAED 4
           Hin Hne).
Defined.

(** * Properties of the SoC composition *)

(** ** Sequencing *)

Lemma wire_bind_done {A B : Type} (l : list Soc.Call) (a : A)
    (f : A -> Soc.Wire B) :
  Soc.bind (l, Soc.Done a) f = (l ++ calls_of (f a), status_of (f a)).
Proof. unfold Soc.bind, calls_of, status_of. destruct (f a). reflexivity. Qed.

Lemma wire_call_then {B : Type} (c : Soc.Call) (k : Soc.Wire B) :
  Soc.bind (Soc.call c) (fun _ => k) = (c :: calls_of k, status_of k).
Proof. unfold Soc.call. rewrite wire_bind_done. reflexivity. Qed.

Lemma wire_attempt_then {B : Type} (env : Soc.Env) (c : Soc.Call)
    (k : Soc.Wire B) :
  Soc.bind (Soc.attempt env c) (fun _ => k)
  = if Soc.succeeds env c then (c :: calls_of k, status_of k)
    else ([c], Soc.Failed (Soc.error_of c)).
Proof.
  unfold Soc.attempt. destruct (Soc.succeeds env c).
  - rewrite wire_bind_done. reflexivity.
  - reflexivity.
Qed.

Lemma wire_index_then {B : Type} (table : list Z) (i : nat)
    (f : Z -> Soc.Wire B) :
  Soc.bind (Soc.index table i) f
  = match nth_error table i with
    | Some x => f x
    | None => ([], Soc.Undefined)
    end.
Proof.
  unfold Soc.index. destruct (nth_error table i) as [x |].
  - unfold Soc.ret. rewrite wire_bind_done. destruct (f x). reflexivity.
  - reflexivity.
Qed.

(** The calls of a sequence start with the calls of its first part. *)
Lemma calls_of_bind {A B : Type} (m : Soc.Wire A) (f : A -> Soc.Wire B) :
  exists rest,
    calls_of (Soc.bind m f) = calls_of m ++ rest /\
    match status_of m with
    | Soc.Done a => rest = calls_of (f a) /\
                    status_of (Soc.bind m f) = status_of (f a)
    | Soc.Failed e => rest = [] /\ status_of (Soc.bind m f) = Soc.Failed e
    | Soc.Undefined => rest = [] /\ status_of (Soc.bind m f) = Soc.Undefined
    end.
Proof.
  destruct m as [l [a | e |]].
  - rewrite wire_bind_done. eexists. split; [reflexivity |].
    split; reflexivity.
  - exists []. split; [symmetry; apply app_nil_r | split; reflexivity].
  - exists []. split; [symmetry; apply app_nil_r | split; reflexivity].
Qed.

(** ** The clock preconditions *)

(** X22.  The realize function checks the two clock inputs before anything
    else: if [refclk] has a source it fails with the message that refclk
    must not be wired up, otherwise if [sysclk] has no source it fails with
    the message that sysclk must be wired up; it makes no call at all (no
    region, device or interrupt line is touched) exactly in these two
    cases. *)
Theorem soc_realize_clock_preconditions (h : Soc.Macros) (env : Soc.Env) :
  (Soc.clock_has_source env Soc.refclk = true ->
   Soc.stm32f411_soc_realize h env
   = ([], Soc.Failed
            (Soc.error_setg
               "refclk clock must not be wired up by the board code"))) /\
  (Soc.clock_has_source env Soc.refclk = false ->
   Soc.clock_has_source env Soc.sysclk = false ->
   Soc.stm32f411_soc_realize h env
   = ([], Soc.Failed
            (Soc.error_setg
               "sysclk clock must be wired up by the board code"))) /\
  (calls_of (Soc.stm32f411_soc_realize h env) = [] <->
   Soc.clock_has_source env Soc.refclk = true \/
   Soc.clock_has_source env Soc.sysclk = false).
Proof.
  unfold Soc.stm32f411_soc_realize.
  destruct (Soc.clock_has_source env Soc.refclk);
    destruct (Soc.clock_has_source env Soc.sysclk); cbn [negb].
  - split; [reflexivity |]. split; [discriminate |].
    split; [left | ]; reflexivity.
  - split; [reflexivity |]. split; [discriminate |].
    split; [left | ]; reflexivity.
  - split; [discriminate |]. split; [discriminate |].
    rewrite wire_call_then. split; [discriminate |].
    intros [H | H]; discriminate H.
  - split; [discriminate |]. split; [reflexivity |].
    split; [right | ]; reflexivity.
Qed.

Lemma soc_realize_clock_preconditions_witness :
  Soc.clock_has_source (all_succeed env_timer1_fails) Soc.refclk = false /\
  (calls_of (Soc.stm32f411_soc_realize macros_full_tables
               (all_succeed env_timer1_fails)) = [] <->
   Soc.clock_has_source (all_succeed env_timer1_fails) Soc.refclk = true \/
   Soc.clock_has_source (all_succeed env_timer1_fails) Soc.sysclk = false).
Proof.
  split; [reflexivity |].
  apply (proj2 (proj2 (soc_realize_clock_preconditions macros_full_tables
                         (all_succeed env_timer1_fails)))).
Defined.

(** ** Stopping at the first failure *)










(** The run in which the realize of the second timer fails: it ends with
    that call, after the first timer was mapped and connected. *)
Example soc_realize_timer1_fails_run :
  status_of (Soc.stm32f411_soc_realize macros_full_tables env_timer1_fails)
  = Soc.Failed (Soc.error_of (Soc.sysbus_realize (Soc.timer 1))) /\
  skipn 38
    (calls_of (Soc.stm32f411_soc_realize macros_full_tables env_timer1_fails))
  = [ Soc.sysbus_mmio_map (Soc.timer 0) 0 0x40000000;
      Soc.sysbus_connect_irq (Soc.timer 0) 0
        (Soc.qdev_get_gpio_in Soc.armv7m 28);
      Soc.qdev_prop_set_uint64 (Soc.timer 1) "clock-frequency" 1000000000;
      Soc.sysbus_realize (Soc.timer 1) ].
Proof. split; vm_compute; reflexivity. Qed.

(** ** Wiring only what was realized *)

Section WiresRealized.
Variable env : Soc.Env.

Lemma wro_ret (known : Soc.Device -> Prop) :
  wires_realized_only env known (Soc.ret tt).
Proof. intros c dev []. Qed.

Lemma wro_call_other (known : Soc.Device -> Prop) (c : Soc.Call)
    (k : Soc.Wire unit) :
  wires c = None -> wires_realized_only env known k ->
  wires_realized_only env known (Soc.bind (Soc.call c) (fun _ => k)).
Proof.
  intros Hc Hk x dev Hin Hx. rewrite wire_call_then in *.
  unfold calls_of in *. cbn [fst] in *. destruct Hin as [<- | Hin].
  - congruence.
  - destruct (Hk x dev Hin Hx) as [Hknown | (r & Hr & Hrd & Hok)];
      [left; assumption | right].
    exists r. split; [right; assumption | split; assumption].
Qed.

Lemma wro_call_wire (known : Soc.Device -> Prop) (c : Soc.Call)
    (dev : Soc.Device) (k : Soc.Wire unit) :
  wires c = Some dev -> known dev -> wires_realized_only env known k ->
  wires_realized_only env known (Soc.bind (Soc.call c) (fun _ => k)).
Proof.
  intros Hc Hdev Hk x dev' Hin Hx. rewrite wire_call_then in *.
  unfold calls_of in *. cbn [fst] in *. destruct Hin as [<- | Hin].
  - left. congruence.
  - destruct (Hk x dev' Hin Hx) as [Hknown | (r & Hr & Hrd & Hok)];
      [left; assumption | right].
    exists r. split; [right; assumption | split; assumption].
Qed.

Lemma wro_call_last_other (known : Soc.Device -> Prop) (c : Soc.Call) :
  wires c = None -> wires_realized_only env known (Soc.call c).
Proof.
  intros Hc x dev Hin Hx. destruct Hin as [<- | []]. congruence.
Qed.

Lemma wro_call_last_wire (known : Soc.Device -> Prop) (c : Soc.Call)
    (dev : Soc.Device) :
  wires c = Some dev -> known dev -> wires_realized_only env known (Soc.call c).
Proof.
  intros Hc Hdev x dev' Hin Hx. destruct Hin as [<- | []].
  left. congruence.
Qed.

(** After a realize call that succeeded, its device is known. *)
Lemma wro_attempt_realize (known : Soc.Device -> Prop) (c : Soc.Call)
    (dev : Soc.Device) (k : Soc.Wire unit) :
  realizes c = Some dev -> wires c = None ->
  wires_realized_only env (fun x => x = dev \/ known x) k ->
  wires_realized_only env known (Soc.bind (Soc.attempt env c) (fun _ => k)).
Proof.
  intros Hreal Hc Hk x dev' Hin Hx. rewrite wire_attempt_then in *.
  destruct (Soc.succeeds env c) eqn:Hok; unfold calls_of in *;
    cbn [fst] in *.
  - destruct Hin as [<- | Hin]; [congruence |].
    destruct (Hk x dev' Hin Hx) as [[-> | Hknown] | (r & Hr & Hrd & Hrok)].
    + right. exists c. split; [left; reflexivity | split; assumption].
    + left. assumption.
    + right. exists r. split; [right; assumption | split; assumption].
  - destruct Hin as [<- | []]. congruence.
Qed.

Lemma wro_attempt_other (known : Soc.Device -> Prop) (c : Soc.Call)
    (k : Soc.Wire unit) :
  wires c = None -> wires_realized_only env known k ->
  wires_realized_only env known (Soc.bind (Soc.attempt env c) (fun _ => k)).
Proof.
  intros Hc Hk x dev' Hin Hx. rewrite wire_attempt_then in *.
  destruct (Soc.succeeds env c) eqn:Hok; unfold calls_of in *;
    cbn [fst] in *.
  - destruct Hin as [<- | Hin]; [congruence |].
    destruct (Hk x dev' Hin Hx) as [Hknown | (r & Hr & Hrd & Hrok)];
      [left; assumption | right].
    exists r. split; [right; assumption | split; assumption].
  - destruct Hin as [<- | []]. congruence.
Qed.

Lemma wro_index (known : Soc.Device -> Prop) (table : list Z) (i : nat)
    (f : Z -> Soc.Wire unit) :
  (forall x, wires_realized_only env known (f x)) ->
  wires_realized_only env known (Soc.bind (Soc.index table i) f).
Proof.
  intros Hf. rewrite wire_index_then.
  destruct (nth_error table i) as [x |]; [apply Hf |].
  intros c dev [].
Qed.

Lemma wro_seq (known : Soc.Device -> Prop) (m k : Soc.Wire unit) :
  wires_realized_only env known m -> wires_realized_only env known k ->
  wires_realized_only env known (Soc.bind m (fun _ => k)).
Proof.
  intros Hm Hk x dev Hin Hx.
  destruct (calls_of_bind m (fun _ => k)) as [rest [Hcalls Hrest]].
  rewrite Hcalls in *. apply in_app_or in Hin. destruct Hin as [Hin | Hin].
  - destruct (Hm x dev Hin Hx) as [Hknown | (r & Hr & Hrd & Hok)];
      [left; assumption | right].
    exists r. split; [apply in_or_app; left; assumption |].
    split; assumption.
  - destruct (status_of m) as [[] | e |]; destruct Hrest as [-> _];
      try contradiction.
    destruct (Hk x dev Hin Hx) as [Hknown | (r & Hr & Hrd & Hok)];
      [left; assumption | right].
    exists r. split; [apply in_or_app; right; assumption |].
    split; assumption.
Qed.

Lemma wro_for_loop (known : Soc.Device -> Prop) (count : nat) :
  forall (i : nat) (body : nat -> Soc.Wire unit),
    (forall j, wires_realized_only env known (body j)) ->
    wires_realized_only env known (Soc.for_loop count i body).
Proof.
  induction count as [| count IH]; intros i body Hbody.
  - apply wro_ret.
  - cbn [Soc.for_loop]. apply wro_seq; [apply Hbody | apply IH, Hbody].
Qed.
End WiresRealized.

(** X24.  In every run of the realize function, whatever fails and whatever
    the device counts: a device is mapped into the address space, has an
    interrupt line connected, or has a GPIO output connected only if a
    realize call for that very device was made in the run and succeeded. *)
Theorem soc_realize_wires_realized_devices
    (h : Soc.Macros) (env : Soc.Env) (c : Soc.Call) (dev : Soc.Device) :
  In c (calls_of (Soc.stm32f411_soc_realize h env)) ->
  wires c = Some dev ->
  exists r,
    In r (calls_of (Soc.stm32f411_soc_realize h env)) /\
    realizes r = Some dev /\ Soc.succeeds env r = true.
Proof.
  assert (Hwro : wires_realized_only env (fun _ => False)
                   (Soc.stm32f411_soc_realize h env)).
  { unfold Soc.stm32f411_soc_realize.
    destruct (Soc.clock_has_source env Soc.refclk); [intros x d [] |].
    destruct (Soc.clock_has_source env Soc.sysclk); [| intros x d []].
    cbn [negb]. unfold Soc.for_each.
    repeat first
      [ eapply wro_attempt_realize; [reflexivity | reflexivity |]
      | apply wro_attempt_other; [reflexivity |]
      | apply wro_call_other; [reflexivity |]
      | eapply wro_call_wire;
        [reflexivity | cbv beta; auto 12 |]
      | apply wro_call_last_other; reflexivity
      | eapply wro_call_last_wire; [reflexivity | cbv beta; auto 12]
      | apply wro_index; intros ?
      | apply wro_seq; [apply wro_for_loop; intros j |] ]. }
  intros Hin Hwires. destruct (Hwro c dev Hin Hwires) as [[] | Hr]. exact Hr.
Qed.

Lemma soc_realize_wires_realized_devices_witness :
  In (Soc.sysbus_mmio_map (Soc.timer 0) 0 0x40000000)
    (calls_of (Soc.stm32f411_soc_realize macros_full_tables env_timer1_fails))
  /\
  wires (Soc.sysbus_mmio_map (Soc.timer 0) 0 0x40000000)
  = Some (Soc.timer 0) /\
  exists r,
    In r (calls_of (Soc.stm32f411_soc_realize macros_full_tables
                      env_timer1_fails)) /\
    realizes r = Some (Soc.timer 0) /\
    Soc.succeeds env_timer1_fails r = true.
Proof.
  assert (Hin : In (Soc.sysbus_mmio_map (Soc.timer 0) 0 0x40000000)
                  (calls_of (Soc.stm32f411_soc_realize macros_full_tables
                               env_timer1_fails))).
  { vm_compute. do 38 right. left. reflexivity. }
  split; [exact Hin |]. split; [reflexivity |].
  apply (soc_realize_wires_realized_devices macros_full_tables
           env_timer1_fails _ (Soc.timer 0) Hin eq_refl).
Defined.

(** ** What is realized and where it is mapped *)

Section AllCalls.
Variable env : Soc.Env.
Variable P : Soc.Call -> Prop.

Lemma all_calls_ret : all_calls P (Soc.ret tt).
Proof. intros c []. Qed.

Lemma all_calls_call (c : Soc.Call) (k : Soc.Wire unit) :
  P c -> all_calls P k -> all_calls P (Soc.bind (Soc.call c) (fun _ => k)).
Proof.
  intros Hc Hk x Hin. rewrite wire_call_then in Hin.
  destruct Hin as [<- | Hin]; [exact Hc | apply Hk, Hin].
Qed.

Lemma all_calls_call_last (c : Soc.Call) : P c -> all_calls P (Soc.call c).
Proof. intros Hc x [<- | []]. exact Hc. Qed.

Lemma all_calls_attempt (c : Soc.Call) (k : Soc.Wire unit) :
  P c -> all_calls P k ->
  all_calls P (Soc.bind (Soc.attempt env c) (fun _ => k)).
Proof.
  intros Hc Hk x Hin. rewrite wire_attempt_then in Hin.
  destruct (Soc.succeeds env c).
  - destruct Hin as [<- | Hin]; [exact Hc | apply Hk, Hin].
  - destruct Hin as [<- | []]. exact Hc.
Qed.

Lemma all_calls_index (table : list Z) (i : nat) (f : Z -> Soc.Wire unit) :
  (forall x, nth_error table i = Some x -> all_calls P (f x)) ->
  all_calls P (Soc.bind (Soc.index table i) f).
Proof.
  intros Hf. rewrite wire_index_then.
  destruct (nth_error table i) as [x |]; [apply Hf; reflexivity |].
  intros c [].
Qed.

Lemma all_calls_seq (m k : Soc.Wire unit) :
  all_calls P m -> all_calls P k -> all_calls P (Soc.bind m (fun _ => k)).
Proof.
  intros Hm Hk x Hin.
  destruct (calls_of_bind m (fun _ => k)) as [rest [Hcalls Hrest]].
  rewrite Hcalls in Hin. apply in_app_or in Hin.
  destruct Hin as [Hin | Hin]; [apply Hm, Hin |].
  destruct (status_of m) as [[] | e |]; destruct Hrest as [-> _];
    try contradiction.
  apply Hk, Hin.
Qed.

Lemma all_calls_for_loop (count : nat) :
  forall (i : nat) (body : nat -> Soc.Wire unit),
    (forall j, (i <= j < i + count)%nat -> all_calls P (body j)) ->
    all_calls P (Soc.for_loop count i body).
Proof.
  induction count as [| count IH]; intros i body Hbody.
  - apply all_calls_ret.
  - cbn [Soc.for_loop]. apply all_calls_seq.
    + apply Hbody. lia.
    + apply IH. intros j Hj. apply Hbody. lia.
Qed.
End AllCalls.

(** Every [sysbus_realize] of a run is for a child within the counts, and
    every [sysbus_mmio_map] maps region 0 of its device at the device's
    base address. *)
Lemma soc_realize_calls (h : Soc.Macros) (env : Soc.Env) :
  all_calls
    (fun c =>
       (forall dev, c = Soc.sysbus_realize dev -> is_child h dev) /\
       (forall dev n addr,
           c = Soc.sysbus_mmio_map dev n addr ->
           n = 0 /\ mmio_base dev = Some addr))
    (Soc.stm32f411_soc_realize h env).
Proof.
  unfold Soc.stm32f411_soc_realize.
  destruct (Soc.clock_has_source env Soc.refclk); [intros x [] |].
  destruct (Soc.clock_has_source env Soc.sysclk); [| intros x []].
  cbn [negb]. unfold Soc.for_each.
  repeat first
    [ apply all_calls_call;
      [ split; [ intros ? Heq; discriminate Heq
               | intros ? ? ? Heq; first [ discriminate Heq
                                         | injection Heq as <- <- <-;
                                           split; [reflexivity | assumption]
                                         | injection Heq as <- <- <-;
                                           split; reflexivity ] ] |]
    | apply all_calls_call_last;
      split; [intros ? Heq; discriminate Heq
             | intros ? ? ? Heq; discriminate Heq]
    | apply all_calls_attempt;
      [ split; [ intros ? Heq;
                 first [ discriminate Heq
                       | injection Heq as <-; cbn [is_child];
                         first [exact I | lia] ]
               | intros ? ? ? Heq; discriminate Heq ] |]
    | apply all_calls_index; intros ? ?
    | apply all_calls_seq; [apply all_calls_for_loop; intros j Hj |] ].
Qed.

Lemma for_loop_of_calls (c : nat -> Soc.Call) (count : nat) :
  forall i,
    Soc.for_loop count i (fun j => Soc.call (c j))
    = (map c (seq i count), Soc.Done tt).
Proof.
  induction count as [| count IH]; intros i.
  - reflexivity.
  - cbn [Soc.for_loop seq map]. rewrite wire_call_then, IH. reflexivity.
Qed.

Lemma wire_bind_calls {B : Type} (l : list Soc.Call) (k : Soc.Wire B) :
  Soc.bind (l, Soc.Done tt) (fun _ => k)
  = (l ++ calls_of k, status_of k).
Proof. apply wire_bind_done. Qed.

(** The instance-init function makes these calls and runs to its end. *)
Lemma soc_initfn_calls (h : Soc.Macros) :
  Soc.stm32f411_soc_initfn h
  = ([ Soc.object_initialize_child "armv7m" Soc.armv7m Soc.TYPE_ARMV7M;
       Soc.object_initialize_child "rcc" Soc.rcc Soc.TYPE_STM32F4XX_RCC;
       Soc.object_initialize_child "syscfg" Soc.syscfg
         Soc.TYPE_STM32F4XX_SYSCFG;
       Soc.object_initialize_child "flash_r" Soc.flash_r
         Soc.TYPE_STM32F4XX_FLASH ]
     ++ map (fun i => Soc.object_initialize_child "usart[*]" (Soc.usart i)
                        Soc.TYPE_STM32F2XX_USART)
          (seq 0 (Soc.STM_NUM_USARTS h))
     ++ map (fun i => Soc.object_initialize_child "timer[*]" (Soc.timer i)
                        Soc.TYPE_STM32F2XX_TIMER)
          (seq 0 (Soc.STM_NUM_TIMERS h))
     ++ map (fun i => Soc.object_initialize_child "adc[*]" (Soc.adc i)
                        Soc.TYPE_STM32F2XX_ADC)
          (seq 0 (Soc.STM_NUM_ADCS h))
     ++ map (fun i => Soc.object_initialize_child "spi[*]" (Soc.spi i)
                        Soc.TYPE_STM32F2XX_SPI)
          (seq 0 (Soc.STM_NUM_SPIS h))
     ++ [ Soc.object_initialize_child "exti" Soc.exti Soc.TYPE_STM32F4XX_EXTI;
          Soc.qdev_init_clock_in "sysclk" Soc.sysclk;
          Soc.qdev_init_clock_in "refclk" Soc.refclk ],
     Soc.Done tt).
Proof.
  unfold Soc.stm32f411_soc_initfn, Soc.for_each.
  rewrite !for_loop_of_calls.
  repeat (rewrite ?wire_call_then, ?wire_bind_calls;
          unfold calls_of, status_of; cbn [fst snd]).
  reflexivity.
Qed.

(** X25.  The instance-init function always runs to its end, and in every
    run of the realize function a [sysbus_realize] call is made only for a
    device that is a child within the device counts and that the
    instance-init function has initialised with [object_initialize_child]. *)
Theorem soc_realize_only_initialised_children
    (h : Soc.Macros) (env : Soc.Env) (dev : Soc.Device) :
  In (Soc.sysbus_realize dev) (calls_of (Soc.stm32f411_soc_realize h env)) ->
  status_of (Soc.stm32f411_soc_initfn h) = Soc.Done tt /\
  is_child h dev /\
  exists name type,
    In (Soc.object_initialize_child name dev type)
      (calls_of (Soc.stm32f411_soc_initfn h)).
Proof.
  intros Hin.
  assert (Hchild : is_child h dev).
  { apply (proj1 (soc_realize_calls h env _ Hin)). reflexivity. }
  rewrite soc_initfn_calls. unfold calls_of, status_of. cbn [fst snd app].
  split; [reflexivity |]. split; [exact Hchild |].
  destruct dev as [| | | | i | i | i | i | |]; cbn [is_child] in Hchild;
    try contradiction; do 2 eexists.
  - left. reflexivity.
  - do 1 right. left. reflexivity.
  - do 2 right. left. reflexivity.
  - do 3 right. left. reflexivity.
  - do 4 right. apply in_or_app. left.
    apply (in_map (fun i => Soc.object_initialize_child "usart[*]"
                              (Soc.usart i) Soc.TYPE_STM32F2XX_USART)).
    apply in_seq. lia.
  - do 4 right. apply in_or_app. right. apply in_or_app. left.
    apply (in_map (fun i => Soc.object_initialize_child "timer[*]"
                              (Soc.timer i) Soc.TYPE_STM32F2XX_TIMER)).
    apply in_seq. lia.
  - do 4 right. do 2 (apply in_or_app; right). apply in_or_app. left.
    apply (in_map (fun i => Soc.object_initialize_child "adc[*]"
                              (Soc.adc i) Soc.TYPE_STM32F2XX_ADC)).
    apply in_seq. lia.
  - do 4 right. do 3 (apply in_or_app; right). apply in_or_app. left.
    apply (in_map (fun i => Soc.object_initialize_child "spi[*]"
                              (Soc.spi i) Soc.TYPE_STM32F2XX_SPI)).
    apply in_seq. lia.
  - do 4 right. do 4 (apply in_or_app; right). left. reflexivity.
Qed.

Lemma soc_realize_only_initialised_children_witness :
  In (Soc.sysbus_realize (Soc.timer 1))
    (calls_of (Soc.stm32f411_soc_realize macros_full_tables env_timer1_fails))
  /\
  is_child macros_full_tables (Soc.timer 1) /\
  exists name type,
    In (Soc.object_initialize_child name (Soc.timer 1) type)
      (calls_of (Soc.stm32f411_soc_initfn macros_full_tables)).
Proof.
  assert (Hin : In (Soc.sysbus_realize (Soc.timer 1))
                  (calls_of (Soc.stm32f411_soc_realize macros_full_tables
                               env_timer1_fails))).
  { vm_compute. do 41 right. left. reflexivity. }
  split; [exact Hin |].
  apply (proj2 (soc_realize_only_initialised_children macros_full_tables
                  env_timer1_fails (Soc.timer 1) Hin)).
Defined.





(** ** Stub regions and interrupt inputs *)

Section CallsImply.

Variable env : Soc.Env.
Variable Q : Soc.Call -> Prop.
Variable R : Soc.Wire unit -> Prop.

Hypothesis R_call : forall (c : Soc.Call) (k : Soc.Wire unit),
  R k -> R (Soc.bind (Soc.call c) (fun _ => k)).
Hypothesis R_seq : forall m k : Soc.Wire unit,
  status_of m = Soc.Done tt -> R k -> R (Soc.bind m (fun _ => k)).

Lemma calls_imply_now (m : Soc.Wire unit) : R m -> calls_imply Q R m.
Proof. intros Hm _. exact Hm. Qed.

Lemma calls_imply_nothing : calls_imply Q R ([], Soc.Undefined).
Proof. intros [x [[] _]]. Qed.

Lemma calls_imply_call (c : Soc.Call) (k : Soc.Wire unit) :
  ~ Q c -> calls_imply Q R k ->
  calls_imply Q R (Soc.bind (Soc.call c) (fun _ => k)).
Proof.
  intros Hc Hk [x [Hin Hx]]. apply R_call.
  rewrite wire_call_then in Hin. unfold calls_of in Hin. cbn [fst] in Hin.
  destruct Hin as [<- | Hin]; [contradiction |].
  apply Hk. exists x. split; assumption.
Qed.

Lemma calls_imply_seq (m k : Soc.Wire unit) :
  all_calls (fun c => ~ Q c) m -> calls_imply Q R k ->
  calls_imply Q R (Soc.bind m (fun _ => k)).
Proof.
  intros Hm Hk [x [Hin Hx]].
  destruct (calls_of_bind m (fun _ => k)) as [rest [Hcalls Hrest]].
  rewrite Hcalls in Hin. apply in_app_or in Hin. destruct Hin as [Hin | Hin].
  - destruct (Hm x Hin Hx).
  - destruct (status_of m) as [[] | e |] eqn:Hst; destruct Hrest as [-> _];
      try contradiction.
    apply R_seq; [exact Hst |]. apply Hk. exists x. split; assumption.
Qed.

Lemma calls_imply_attempt (c : Soc.Call) (k : Soc.Wire unit) :
  ~ Q c -> calls_imply Q R k ->
  calls_imply Q R (Soc.bind (Soc.attempt env c) (fun _ => k)).
Proof.
  intros Hc Hk. apply calls_imply_seq; [| exact Hk].
  intros x [<- | []]. exact Hc.
Qed.

Lemma calls_imply_index (table : list Z) (i : nat)
    (f : Z -> Soc.Wire unit) :
  (forall x, calls_imply Q R (f x)) ->
  calls_imply Q R (Soc.bind (Soc.index table i) f).
Proof.
  intros Hf. rewrite wire_index_then.
  destruct (nth_error table i) as [x |]; [apply Hf | apply calls_imply_nothing].
Qed.

End CallsImply.



Lemma made_after_call (x c : Soc.Call) (k : Soc.Wire unit) :
  In x (calls_of k) -> In x (calls_of (Soc.bind (Soc.call c) (fun _ => k))).
Proof. intros Hk. rewrite wire_call_then. right. exact Hk. Qed.

Lemma made_after_seq (x : Soc.Call) (m k : Soc.Wire unit) :
  status_of m = Soc.Done tt -> In x (calls_of k) ->
  In x (calls_of (Soc.bind m (fun _ => k))).
Proof.
  intros Hm Hk.
  destruct (calls_of_bind m (fun _ => k)) as [rest [-> Hrest]].
  rewrite Hm in Hrest. destruct Hrest as [-> _].
  apply in_or_app. right. exact Hk.
Qed.

Lemma made_by_call (c : Soc.Call) (k : Soc.Wire unit) :
  In c (calls_of (Soc.bind (Soc.call c) (fun _ => k))).
Proof. rewrite wire_call_then. left. reflexivity. Qed.

(** Goes through the realize function call by call; [not_Q] proves that a
    call is not of the kind looked for, [finish] proves the conclusion once the
    calls that matter are reached. *)
Ltac through_realize R_call R_seq not_Q finish :=
  unfold Soc.stm32f411_soc_realize;
  match goal with
  | |- context [Soc.clock_has_source ?env Soc.refclk] =>
      destruct (Soc.clock_has_source env Soc.refclk);
      [intros [? [[] _]] |];
      destruct (Soc.clock_has_source env Soc.sysclk);
      [| intros [? [[] _]]]
  end;
  cbn [negb]; unfold Soc.for_each;
  repeat first
    [ apply calls_imply_now; finish
    | apply (calls_imply_attempt _ _ _ R_seq); [not_Q |]
    | apply (calls_imply_call _ _ R_call); [not_Q |]
    | apply (calls_imply_seq _ _ R_seq);
      [ apply all_calls_for_loop; intros ? ?;
        repeat first
          [ apply all_calls_call; [not_Q |]
          | apply all_calls_attempt; [not_Q |]
          | apply all_calls_call_last; not_Q
          | apply all_calls_index; intros ? ? ]
      |] ].



(** The bounds of the interrupt inputs the realize function connects. *)
Lemma soc_realize_irq_bounds (h : Soc.Macros) (env : Soc.Env) :
  all_calls
    (fun c =>
       forall target k,
         irq_target c = Some (Soc.qdev_get_gpio_in target k) ->
         (target = Soc.armv7m /\ 0 <= k < 100) \/
         (target = Soc.adc_irqs /\ 0 <= k < Z.of_nat (Soc.STM_NUM_ADCS h)) \/
         target = Soc.exti)
    (Soc.stm32f411_soc_realize h env).
Proof.
  assert (Htable : forall (table : list Z) (i : nat) (x : Z),
             Forall (fun y => 0 <= y < 100) table ->
             nth_error table i = Some x -> 0 <= x < 100).
  { intros table i x Hall Hnth. apply nth_error_In in Hnth.
    rewrite Forall_forall in Hall. apply Hall, Hnth. }
  assert (Husart : Forall (fun y => 0 <= y < 100) Soc.usart_irq)
    by (repeat constructor; lia).
  assert (Htimer : Forall (fun y => 0 <= y < 100) Soc.timer_irq)
    by (repeat constructor; lia).
  assert (Hspi : Forall (fun y => 0 <= y < 100) Soc.spi_irq)
    by (repeat constructor; lia).
  assert (Hexti : Forall (fun y => 0 <= y < 100) Soc.exti_irq)
    by (repeat constructor; lia).
  unfold Soc.stm32f411_soc_realize.
  destruct (Soc.clock_has_source env Soc.refclk); [intros x [] |].
  destruct (Soc.clock_has_source env Soc.sysclk); [| intros x []].
  cbn [negb]. unfold Soc.for_each.
  repeat first
    [ apply all_calls_call;
      [ intros ? ? Heq;
        first
          [ discriminate Heq
          | injection Heq as <- <-;
            first
              [ right; right; reflexivity
              | left; split; [reflexivity |];
                first
                  [ unfold Soc.RCC_IRQ, Soc.SYSCFG_IRQ, Soc.FLASH_R_IRQ,
                      Soc.ADC_IRQ; lia
                  | eapply Htable; [| eassumption]; assumption ]
              | right; left; split; [reflexivity | lia] ] ] |]
    | apply all_calls_call_last;
      intros ? ? Heq;
      first
        [ discriminate Heq
        | injection Heq as <- <-;
          first
            [ right; right; reflexivity
            | left; split; [reflexivity |];
              eapply Htable; [| eassumption]; assumption
            | right; left; split; [reflexivity | lia] ] ]
    | apply all_calls_attempt; [intros ? ? Heq; discriminate Heq |]
    | apply all_calls_index; intros ? ?
    | apply all_calls_seq; [apply all_calls_for_loop; intros ? ? |] ].
Qed.

(** X28.  In every run of the realize function, a line connected to an
    interrupt input of the CPU object uses an input number below the
    [num-irq] that the run has given that object, and a line connected to an
    input of the ADC or-gate uses an input number below the [num-lines] that
    the run has given the gate. *)
Theorem soc_realize_irq_inputs_in_range
    (h : Soc.Macros) (env : Soc.Env) (c : Soc.Call) (k : Z) :
  In c (calls_of (Soc.stm32f411_soc_realize h env)) ->
  (irq_target c = Some (Soc.qdev_get_gpio_in Soc.armv7m k) ->
   exists N,
     In (Soc.qdev_prop_set_uint32 Soc.armv7m "num-irq" N)
       (calls_of (Soc.stm32f411_soc_realize h env)) /\
     0 <= k < N) /\
  (irq_target c = Some (Soc.qdev_get_gpio_in Soc.adc_irqs k) ->
   exists N,
     In (Soc.object_property_set_int Soc.adc_irqs "num-lines" N)
       (calls_of (Soc.stm32f411_soc_realize h env)) /\
     0 <= k < N).
Proof.
  intros Hin.
  pose proof (soc_realize_irq_bounds h env c Hin) as Hbound.
  split; intros Htarget.
  - exists 100. split.
    + assert (Hset : calls_imply (connects_to Soc.armv7m)
                       (fun m => In (Soc.qdev_prop_set_uint32 Soc.armv7m
                                       "num-irq" 100) (calls_of m))
                       (Soc.stm32f411_soc_realize h env)).
      { through_realize
          (made_after_call
             (Soc.qdev_prop_set_uint32 Soc.armv7m "num-irq" 100))
          (made_after_seq
             (Soc.qdev_prop_set_uint32 Soc.armv7m "num-irq" 100))
          ltac:(intros [? Heq]; discriminate Heq)
          ltac:(apply made_by_call). }
      apply Hset. exists c. split; [exact Hin |]. exists k. exact Htarget.
    + destruct (Hbound _ _ Htarget) as [[_ Hk] | [[Heq _] | Heq]];
        [exact Hk | discriminate Heq | discriminate Heq].
  - exists (Z.of_nat (Soc.STM_NUM_ADCS h)). split.
    + assert (Hset : calls_imply (connects_to Soc.adc_irqs)
                       (fun m => In (Soc.object_property_set_int Soc.adc_irqs
                                       "num-lines"
                                       (Z.of_nat (Soc.STM_NUM_ADCS h)))
                                   (calls_of m))
                       (Soc.stm32f411_soc_realize h env)).
      { through_realize
          (made_after_call
             (Soc.object_property_set_int Soc.adc_irqs "num-lines"
                (Z.of_nat (Soc.STM_NUM_ADCS h))))
          (made_after_seq
             (Soc.object_property_set_int Soc.adc_irqs "num-lines"
                (Z.of_nat (Soc.STM_NUM_ADCS h))))
          ltac:(intros [? Heq]; discriminate Heq)
          ltac:(apply made_by_call). }
      apply Hset. exists c. split; [exact Hin |]. exists k. exact Htarget.
    + destruct (Hbound _ _ Htarget) as [[Heq _] | [[_ Hk] | Heq]];
        [discriminate Heq | exact Hk | discriminate Heq].
Qed.

Lemma soc_realize_irq_inputs_in_range_witness :
  In (Soc.sysbus_connect_irq (Soc.spi 4) 0
        (Soc.qdev_get_gpio_in Soc.armv7m 85))
    (calls_of (Soc.stm32f411_soc_realize macros_full_tables
                 (all_succeed env_timer1_fails))) /\
  exists N,
    In (Soc.qdev_prop_set_uint32 Soc.armv7m "num-irq" N)
      (calls_of (Soc.stm32f411_soc_realize macros_full_tables
                   (all_succeed env_timer1_fails))) /\
    0 <= 85 < N.
Proof.
  assert (Hin : In (Soc.sysbus_connect_irq (Soc.spi 4) 0
                      (Soc.qdev_get_gpio_in Soc.armv7m 85))
                  (calls_of (Soc.stm32f411_soc_realize macros_full_tables
                               (all_succeed env_timer1_fails)))).
  { vm_compute. repeat first [left; reflexivity | right]. }
  split; [exact Hin |].
  apply (soc_realize_irq_inputs_in_range macros_full_tables
           (all_succeed env_timer1_fails) _ 85 Hin).
  reflexivity.
Defined.
